(** * Replicate Operator: capture / replay engine

    A shallow embedding of the browser extension's background script
    (recording controller, flow store, replay orchestrator), of its
    per-frame replay script (frame executor) and of its content scripts
    (frame observers with their selector resolver), followed by the
    properties of the specification that were checked against them.

    Conventions.
    - Times are [Z] milliseconds as read from [Date.now()].
    - A string is a sequence of code units below 256; text with other
      characters is outside the model.
    - Tab and frame identifiers are [Z].
    - The observer's [Map] is a [gmap]. [savedFlows] is a plain JS
      object used as a dictionary: its own properties are a [gmap], what
      it inherits is [Background.objectPrototype], and it is read and
      written through [Background.getProperty] and
      [Background.setProperty].
    - An [async] handler runs in segments, one per [await]. The
      functions named after the handlers run the segments one after the
      other; [Interleaving.step] runs them one at a time, with other
      events in between.
    - Browser calls whose result the script cannot compute on its own
      ([chrome.tabs.sendMessage], [document.querySelector],
      [CSS.escape], [JSON.stringify], ...) are inputs of the model:
      Section variables or fields of the event being handled. *)

From Stdlib Require Import ZArith Ascii String List Bool Lia.
From Stdlib Require Import DecimalString.
From stdpp Require Import base option list gmap strings pretty.

Local Open Scope Z_scope.
Set Warnings "-register-all".


(* ================================================================== *)
(** ** Action steps *)
(* ================================================================== *)

(** A recorded step is a JS object discriminated by its [type] field.
    [frameId] is optional: flows recorded by older revisions carry none
    and the orchestrator reads it as [step.frameId || 0]. *)
Inductive Step : Type :=
| Goto (url : string) (frameId : option Z)
| Wait (duration : Z)
| Click (selector label : string) (frameId : option Z)
| Change (selector value : string) (frameId : option Z).

(** What a frame observer puts in the [action] field of a
    [recordAction] message. *)
Inductive Action : Type :=
| AClick (selector label : string)
| AChange (selector value : string).

Definition step_eq_dec : ∀ a b : Step, {a = b} + {a ≠ b}.
Proof. repeat decide equality. Defined.

Definition action_eq_dec : ∀ a b : Action, {a = b} + {a ≠ b}.
Proof. repeat decide equality. Defined.

(** [{ ...action, frameId: sender.frameId }] *)
Definition withFrameId (action : Action) (frameId : Z) : Step :=
  match action with
  | AClick sel lbl => Click sel lbl (Some frameId)
  | AChange sel v => Change sel v (Some frameId)
  end.

Definition isWait (s : Step) : bool :=
  match s with Wait _ => true | _ => false end.

Definition isGoto (s : Step) : bool :=
  match s with Goto _ _ => true | _ => false end.

(* ================================================================== *)
(** ** Background script: recording controller and flow store *)
(* ================================================================== *)

Module Background.

(** [chrome.tabs.Tab], restricted to the fields the script reads. *)
Record Tab : Type := mkTab { tab_id : Z; tab_url : string }.

(** [chrome.runtime.MessageSender]: content scripts have a [tab], the
    side panel has none. *)
Record Sender : Type := mkSender { sender_tab : option Tab; sender_frameId : Z }.

Inductive Request : Type :=
| recordAction (action : Action)
| startRecording
| stopRecordingAndSave (name : string)
| cancelRecording
| runFlow (name : string)
| displayFlow (name : string)
| deleteFlow (name : string)
| getFlows
| otherRequest (type : string).

(** The four module-level variables of the background script. *)
Record State : Type := mkState {
  isRecording : bool;
  recordedSteps : list Step;
  lastActionTimestamp : Z;
  recordingTabId : option Z
}.

Definition initialState : State :=
  {| isRecording := false; recordedSteps := []; lastActionTimestamp := 0;
     recordingTabId := None |}.

(** The value stored under the key [flows] of [chrome.storage.local];
    [loadSavedFlows] reads a missing key as the empty object. It is a
    plain object: the [gmap] holds its own properties, the rest it
    inherits from [Object.prototype]. *)
Abbreviation FlowStore := (gmap string (list Step)).

(** The properties of [Object.prototype], each with what its [length]
    reads as: the number of declared parameters for the functions, and
    [None] (for [undefined]) for [__proto__], an accessor that reads as
    [Object.prototype] itself. *)
Definition objectPrototype : list (string * option nat) :=
  [("constructor", Some 1%nat);
   ("__defineGetter__", Some 2%nat);
   ("__defineSetter__", Some 2%nat);
   ("hasOwnProperty", Some 1%nat);
   ("__lookupGetter__", Some 1%nat);
   ("__lookupSetter__", Some 1%nat);
   ("isPrototypeOf", Some 1%nat);
   ("propertyIsEnumerable", Some 1%nat);
   ("toString", Some 0%nat);
   ("valueOf", Some 0%nat);
   ("__proto__", None);
   ("toLocaleString", Some 0%nat)].

Definition inheritedLength (name : string) : option (option nat) :=
  snd <$> List.find (λ p, String.eqb (fst p) name) objectPrototype.

(** What [savedFlows[flowName]] evaluates to: an own property, else an
    inherited one, else [undefined]. *)
Inductive Property : Type :=
| OwnFlow (steps : list Step)
| Inherited (length : option nat)
| Undefined.

Definition getProperty (savedFlows : FlowStore) (flowName : string) : Property :=
  match savedFlows !! flowName with
  | Some steps => OwnFlow steps
  | None =>
    match inheritedLength flowName with
    | Some len => Inherited len
    | None => Undefined
    end
  end.

(** [savedFlows[flowName] = steps]. An own property is overwritten and a
    new name becomes an own property, except [__proto__]: assigning to
    it runs the setter inherited from [Object.prototype], which changes
    the object's prototype and creates no property, so that the object
    written back to the store holds what it held. *)
Definition setProperty (flowName : string) (steps : list Step) (savedFlows : FlowStore)
    : FlowStore :=
  match savedFlows !! flowName with
  | Some _ => <[flowName := steps]> savedFlows
  | None =>
    if String.eqb flowName "__proto__" then savedFlows
    else <[flowName := steps]> savedFlows
  end.

(** Messages the background sends to the side panel. *)
Inductive UiMessage : Type :=
| recordingStateChanged (isRec : bool) (steps : list Step)
| updateLiveSteps (steps : list Step)
| flowsUpdated.

(** [tabId === recordingTabId] *)
Definition isRecordingTab (tabId : Z) (st : State) : bool :=
  match recordingTabId st with
  | Some r => tabId =? r
  | None => false
  end.

(** [handleRecordAction(action, sender)], with [now] the value read
    from [Date.now()]. *)
Definition handleRecordAction (now : Z) (action : Action) (sender : Sender)
    (st : State) : State * list UiMessage :=
  let steps1 :=
    if 100 <? now - lastActionTimestamp st
    then recordedSteps st ++ [Wait (now - lastActionTimestamp st)]
    else recordedSteps st in
  let step := withFrameId action (sender_frameId sender) in
  let steps2 := steps1 ++ [step] in
  ({| isRecording := isRecording st;
      recordedSteps := steps2;
      lastActionTimestamp := now;
      recordingTabId := recordingTabId st |},
   [updateLiveSteps steps2]).

(** [resetState()] *)
Definition resetState (st : State) : State * list UiMessage :=
  (initialState, [recordingStateChanged false []; flowsUpdated]).

(** The segment of [handleStartRecording()] that follows its [await]:
    [activeTab] is the first result of
    [chrome.tabs.query({active: true, currentWindow: true})], [st] the
    state at the moment the handler resumes. [isRecording] is not
    tested again. *)
Definition startRecordingOn (now : Z) (activeTab : option Tab) (st : State)
    : State * list UiMessage :=
  match activeTab with
  | None => (st, [])
  | Some tab =>
    let steps := [Goto (tab_url tab) (Some 0)] in
    ({| isRecording := true;
        recordedSteps := steps;
        lastActionTimestamp := now;
        recordingTabId := Some (tab_id tab) |},
     [recordingStateChanged true steps])
  end.

(** [handleStartRecording()] when nothing else runs while it awaits the
    query: the test of [isRecording] and the segment after the [await]
    then see the same state. *)
Definition handleStartRecording (now : Z) (activeTab : option Tab) (st : State)
    : State * list UiMessage :=
  if isRecording st then (st, [])
  else startRecordingOn now activeTab st.

(** [handleStopRecordingAndSave(flowName)] when nothing else runs while
    it awaits the store: the test of [isRecording], the assignment of
    the recorded steps to the object read from the store, the write of
    that object and the reset then follow one another directly. *)
Definition handleStopRecordingAndSave (flowName : string) (st : State)
    (flows : FlowStore) : State * FlowStore * list UiMessage :=
  if negb (isRecording st) then (st, flows, [])
  else
    let savedFlows := setProperty flowName (recordedSteps st) flows in
    let '(st', out) := resetState st in
    (st', savedFlows, out).

(** [handleCancelRecording()]: the flag flips at once; [resetState]
    runs from a 100ms timer, delivered later as [ResetTimer]. *)
Definition handleCancelRecording (st : State) : State :=
  if negb (isRecording st) then st
  else {| isRecording := false;
          recordedSteps := recordedSteps st;
          lastActionTimestamp := lastActionTimestamp st;
          recordingTabId := recordingTabId st |}.

(** [handleDeleteFlow(flowName)] when nothing else runs while it awaits
    the store: [delete savedFlows[flowName]] removes an own property and
    is silent about a name that is not one. *)
Definition handleDeleteFlow (flowName : string) (flows : FlowStore)
    : FlowStore * list UiMessage :=
  (delete flowName flows, [flowsUpdated]).

(** First [chrome.runtime.onMessage] listener: content scripts. *)
Definition onContentScriptMessage (now : Z) (request : Request) (sender : Sender)
    (st : State) : State * list UiMessage :=
  match sender_tab sender with
  | None => (st, [])
  | Some tab =>
    match request with
    | recordAction action =>
      if isRecording st && isRecordingTab (tab_id tab) st
      then handleRecordAction now action sender st
      else (st, [])
    | _ => (st, [])
    end
  end.

(** Second [chrome.runtime.onMessage] listener: the side panel.
    [runFlow], [displayFlow] and [getFlows] only read the store; the
    replay started by [runFlow] is modelled in [Orchestrator]. *)
Definition onSidePanelMessage (now : Z) (activeTab : option Tab)
    (request : Request) (sender : Sender) (st : State) (flows : FlowStore)
    : State * FlowStore * list UiMessage :=
  match sender_tab sender with
  | Some _ => (st, flows, [])
  | None =>
    match request with
    | startRecording =>
      let '(st', out) := handleStartRecording now activeTab st in (st', flows, out)
    | stopRecordingAndSave name => handleStopRecordingAndSave name st flows
    | cancelRecording => (handleCancelRecording st, flows, [])
    | deleteFlow name =>
      let '(flows', out) := handleDeleteFlow name flows in (st, flows', out)
    | runFlow _ | displayFlow _ | getFlows
    | recordAction _ | otherRequest _ => (st, flows, [])
    end
  end.

(** Everything the background script reacts to. A message carries the
    readings the handlers take from the browser while they run. *)
Inductive Event : Type :=
| Message (now : Z) (activeTab : option Tab) (request : Request) (sender : Sender)
| TabRemoved (tabId : Z)
| ResetTimer.

Record System : Type := mkSystem { sys_state : State; sys_flows : FlowStore }.

(** One event, with the handler it starts run through all its segments
    before anything else happens. Both message listeners see every
    message; each returns early on the other's senders. For the
    listeners that call no [async] handler this is all there is; for
    [startRecording], [stopRecordingAndSave] and [deleteFlow] it is the
    schedule in which no other event falls between the segments, the
    other schedules being those of [Interleaving.step]. *)
Definition handle (ev : Event) (sys : System) : System * list UiMessage :=
  match ev with
  | Message now activeTab request sender =>
    let '(st1, out1) := onContentScriptMessage now request sender (sys_state sys) in
    let '(st2, flows2, out2) :=
      onSidePanelMessage now activeTab request sender st1 (sys_flows sys) in
    ({| sys_state := st2; sys_flows := flows2 |}, out1 ++ out2)
  | TabRemoved tabId =>
    if isRecordingTab tabId (sys_state sys)
    then ({| sys_state := handleCancelRecording (sys_state sys);
             sys_flows := sys_flows sys |}, [])
    else (sys, [])
  | ResetTimer =>
    let '(st', out) := resetState (sys_state sys) in
    ({| sys_state := st'; sys_flows := sys_flows sys |}, out)
  end.

Fixpoint run (evs : list Event) (sys : System) : System :=
  match evs with
  | [] => sys
  | ev :: rest => run rest (fst (handle ev sys))
  end.

(** A [recordAction] message as it reaches the background. *)
Record Report : Type := mkReport {
  report_now : Z;
  report_action : Action;
  report_tabId : Z;
  report_frameId : Z
}.

Definition reportEvent (r : Report) : Event :=
  Message (report_now r) None (recordAction (report_action r))
    {| sender_tab := Some {| tab_id := report_tabId r; tab_url := EmptyString |};
       sender_frameId := report_frameId r |}.

Definition reportStep (r : Report) : Step :=
  withFrameId (report_action r) (report_frameId r).

(** The report comes from tab [A]. *)
Definition fromTab (A : Z) (r : Report) : bool := report_tabId r =? A.

Definition notWait (s : Step) : bool := negb (isWait s).

(** The sender of a side panel message. *)
Definition panel (frameId : Z) : Sender :=
  {| sender_tab := None; sender_frameId := frameId |}.

(** A recording in progress on tab 7 and a few reports, for examples. *)
Definition recordingOn7 : System :=
  {| sys_state :=
       {| isRecording := true;
          recordedSteps := [Goto "https://x/form" (Some 0)];
          lastActionTimestamp := 1000;
          recordingTabId := Some 7 |};
     sys_flows := ∅ |}.

Definition idleSystem : System := {| sys_state := initialState; sys_flows := ∅ |}.

Definition clickSubmit : Report :=
  {| report_now := 1050; report_action := AClick "#submit" "Submit";
     report_tabId := 7; report_frameId := 0 |}.

Definition strayClick : Report :=
  {| report_now := 1200; report_action := AClick "#ad" "Buy";
     report_tabId := 9; report_frameId := 0 |}.

Definition changeName : Report :=
  {| report_now := 1400; report_action := AChange "#name" "Ada";
     report_tabId := 7; report_frameId := 2 |}.

End Background.

(* ================================================================== *)
(** ** Background script: handlers suspended at an await *)
(* ================================================================== *)

Module Interleaving.

Import Background.

(** A call of an [async] handler that has passed its first test, with
    the local variables it holds at the [await] where it stands.
    [loaded] is what [chrome.storage.local.get] has read, once it has
    read; [stored] tells whether [chrome.storage.local.set] has written
    the object it was given. *)
Inductive Task : Type :=
| StartQuerying
| SaveLoading (flowName : string) (loaded : option FlowStore)
| SaveStoring (flowName : string) (savedFlows : FlowStore) (stored : bool)
| DeleteLoading (flowName : string) (loaded : option FlowStore)
| DeleteStoring (flowName : string) (savedFlows : FlowStore) (stored : bool)
| Done.

(** The service worker: the module-level variables, the store, and the
    handler calls that have reached an [await] so far, in the order of
    the calls; a call that has returned stays in the list as [Done]. *)
Record Worker : Type := mkWorker { worker_sys : System; worker_tasks : list Task }.

(** What can happen next: an event reaches the listeners, which run up
    to the first [await]; [chrome.storage] carries out the call a
    suspended handler waits for; or the promise a suspended handler
    awaits resolves and the handler runs its next segment, [now] and
    [activeTab] being what it reads from the clock and what
    [chrome.tabs.query] has answered. *)
Inductive Move : Type :=
| Deliver (ev : Event)
| Storage (i : nat)
| Resume (i : nat) (now : Z) (activeTab : option Tab).

Definition stateOf (wk : Worker) : State := sys_state (worker_sys wk).
Definition flowsOf (wk : Worker) : FlowStore := sys_flows (worker_sys wk).

Definition spawn (t : Task) (wk : Worker) : Worker :=
  {| worker_sys := worker_sys wk; worker_tasks := worker_tasks wk ++ [t] |}.

Definition setTask (i : nat) (t : Task) (wk : Worker) : Worker :=
  {| worker_sys := worker_sys wk; worker_tasks := <[i := t]> (worker_tasks wk) |}.

(** The listeners, up to the first [await] of the handler they call:
    [handleStartRecording] and [handleStopRecordingAndSave] test
    [isRecording] and suspend, [handleDeleteFlow] suspends at once. The
    other listeners and handlers have no [await] that matters here and
    are those of [Background.handle]. *)
Definition deliver (ev : Event) (wk : Worker) : Worker * list UiMessage :=
  let st := sys_state (worker_sys wk) in
  let unsuspended :=
    let '(sys', out) := handle ev (worker_sys wk) in
    ({| worker_sys := sys'; worker_tasks := worker_tasks wk |}, out) in
  match ev with
  | Message now activeTab request sender =>
    match sender_tab sender, request with
    | None, startRecording =>
      (if isRecording st then wk else spawn StartQuerying wk, [])
    | None, stopRecordingAndSave name =>
      (if negb (isRecording st) then wk else spawn (SaveLoading name None) wk, [])
    | None, deleteFlow name => (spawn (DeleteLoading name None) wk, [])
    | _, _ => unsuspended
    end
  | _ => unsuspended
  end.

(** [chrome.storage.local] serves the call of the [i]-th handler: a
    [get] reads the store as it is now, a [set] replaces it by the
    object it was given. *)
Definition storage (i : nat) (wk : Worker) : Worker :=
  let flows := sys_flows (worker_sys wk) in
  let write savedFlows :=
    {| sys_state := sys_state (worker_sys wk); sys_flows := savedFlows |} in
  match worker_tasks wk !! i with
  | Some (SaveLoading name None) => setTask i (SaveLoading name (Some flows)) wk
  | Some (DeleteLoading name None) => setTask i (DeleteLoading name (Some flows)) wk
  | Some (SaveStoring name savedFlows false) =>
    {| worker_sys := write savedFlows;
       worker_tasks := <[i := SaveStoring name savedFlows true]> (worker_tasks wk) |}
  | Some (DeleteStoring name savedFlows false) =>
    {| worker_sys := write savedFlows;
       worker_tasks := <[i := DeleteStoring name savedFlows true]> (worker_tasks wk) |}
  | _ => wk
  end.

(** The [i]-th handler runs its next segment, if what it awaits is
    there: the update of [handleStartRecording]; the assignment of
    [recordedSteps], as they are now, and the call of [set] in
    [handleStopRecordingAndSave], then its [resetState()]; the [delete]
    and the call of [set] in [handleDeleteFlow], then its
    [flowsUpdated]. *)
Definition resume (i : nat) (now : Z) (activeTab : option Tab) (wk : Worker)
    : Worker * list UiMessage :=
  let st := sys_state (worker_sys wk) in
  let flows := sys_flows (worker_sys wk) in
  let finish st' :=
    {| worker_sys := {| sys_state := st'; sys_flows := flows |};
       worker_tasks := <[i := Done]> (worker_tasks wk) |} in
  match worker_tasks wk !! i with
  | Some StartQuerying =>
    let '(st', out) := startRecordingOn now activeTab st in (finish st', out)
  | Some (SaveLoading name (Some loaded)) =>
    (setTask i (SaveStoring name (setProperty name (recordedSteps st) loaded) false) wk, [])
  | Some (SaveStoring name _ true) =>
    let '(st', out) := resetState st in (finish st', out)
  | Some (DeleteLoading name (Some loaded)) =>
    (setTask i (DeleteStoring name (delete name loaded) false) wk, [])
  | Some (DeleteStoring name _ true) => (finish st, [flowsUpdated])
  | _ => (wk, [])
  end.

Definition step (move : Move) (wk : Worker) : Worker * list UiMessage :=
  match move with
  | Deliver ev => deliver ev wk
  | Storage i => (storage i wk, [])
  | Resume i now activeTab => resume i now activeTab wk
  end.

Fixpoint moves (ms : list Move) (wk : Worker) : Worker :=
  match ms with
  | [] => wk
  | move :: rest => moves rest (fst (step move wk))
  end.

(** The moves that are not those of the [i]-th handler. *)
Definition elsewhere (i : nat) (move : Move) : Prop :=
  match move with
  | Deliver _ => True
  | Storage j | Resume j _ _ => j ≠ i
  end.

(** The moves of an event whose handler is not interrupted, [i] being
    the number of handler calls that have reached an [await] before. *)
Definition uninterrupted (i : nat) (ev : Event) : list Move :=
  match ev with
  | Message now activeTab request sender =>
    match sender_tab sender, request with
    | None, startRecording => [Deliver ev; Resume i now activeTab]
    | None, stopRecordingAndSave _ | None, deleteFlow _ =>
      [Deliver ev; Storage i; Resume i now activeTab; Storage i; Resume i now activeTab]
    | _, _ => [Deliver ev]
    end
  | _ => [Deliver ev]
  end.

Definition idleWorker : Worker := {| worker_sys := idleSystem; worker_tasks := [] |}.

(** Samples. A save and a delete whose reads and writes overlap: both
    read the store before either writes. *)
Definition storedFlow : list Step := [Goto "https://y/" (Some 0)].

Definition recordingWorker : Worker :=
  {| worker_sys :=
       {| sys_state := sys_state recordingOn7;
          sys_flows := <["old" := storedFlow]> ∅ |};
     worker_tasks := [] |}.

Definition overlappingSaveAndDelete : list Move :=
  [Deliver (Message 2000 None (stopRecordingAndSave "login") (panel 0));
   Deliver (Message 2010 None (deleteFlow "old") (panel 0));
   Storage 0; Storage 1;
   Resume 0 2020 None; Resume 1 2030 None;
   Storage 0; Storage 1].

(** A recording is started and a click recorded; the save that is then
    asked for resumes only after the recording has been cancelled and
    reset. *)
Definition saveAfterReset : list Move :=
  [Deliver (Message 900 None startRecording (panel 0));
   Resume 0 1000 (Some {| tab_id := 7; tab_url := "https://x/form" |});
   Deliver (reportEvent clickSubmit);
   Deliver (Message 2000 None (stopRecordingAndSave "login") (panel 0));
   Deliver (Message 2010 None cancelRecording (panel 0));
   Deliver ResetTimer;
   Storage 1; Resume 1 2200 None; Storage 1; Resume 1 2300 None].

(** Two start requests that both pass the test of [isRecording]; the
    second resumes after a click has been recorded. *)
Definition doubleStart : list Move :=
  [Deliver (Message 900 None startRecording (panel 0));
   Deliver (Message 910 None startRecording (panel 0));
   Resume 0 1000 (Some {| tab_id := 7; tab_url := "https://x/form" |});
   Deliver (reportEvent clickSubmit);
   Resume 1 1100 (Some {| tab_id := 8; tab_url := "https://y/" |})].

End Interleaving.

(* ================================================================== *)
(** ** Background script: replay orchestrator *)
(* ================================================================== *)

Module Orchestrator.

Import Background.

(** The response object the replay script passes to [sendResponse];
    [message] is absent on success. *)
Inductive Reply : Type :=
| NoReply
| ReplyObject (status : string) (message : option string).

(** How [await chrome.tabs.sendMessage(...)] ends. *)
Inductive Dispatch : Type :=
| Threw (message : string)
| Returned (response : Reply).

(** Calls the orchestrator makes on the browser, in program order.
    [AlertFailure] and [AlertCompleted] are the two calls of
    [chrome.scripting.executeScript] with a function: the browser sends
    the page the function's source text and the values of [args],
    nothing of the scope the function was written in. The function of
    [AlertCompleted] takes no argument and reads no variable; that of
    [AlertFailure] is [failureAlertFunction] below. *)
Inductive Effect : Type :=
| Log (message : string)
| LogStep (message : string) (step : Step)
| TabsCreate (url : string)
| AddUpdatedListener (tab : Z)
| RemoveUpdatedListener (tab : Z)
| InjectReplayScript (tab : Z)
| SendExecuteSingleStep (tab : Z) (step : Step) (frameId : Z)
| Delay (ms : Z)
| AlertFailure (tab : Z) (args : list string)
| AlertCompleted (tab : Z).

Inductive LoopResult : Type :=
| Finished
| Aborted (step : Step) (reason : string).

Definition dquote : string := String (ascii_of_nat 34) EmptyString.
Definition newline : string := String (ascii_of_nat 10) EmptyString.

(** [step.frameId || 0] *)
Definition frameIdOrZero (step : Step) : Z :=
  match step with
  | Goto _ (Some f) | Click _ _ (Some f) | Change _ _ (Some f) => f
  | _ => 0
  end.

(** The [error.message] caught by the [catch] block of the loop body,
    if the [try] block throws: either the dispatch itself rejected, or
    the response is truthy with [status === 'error'] and the script
    throws [new Error(response.message)]. *)
Definition caughtError (d : Dispatch) : option string :=
  match d with
  | Threw m => Some m
  | Returned NoReply => None
  | Returned (ReplyObject status message) =>
    if String.eqb status "error" then Some (default EmptyString message) else None
  end.

(** The function injected when a step fails,
    [(msg) => alert(`Replay failed at step: ${JSON.stringify(step)}\nError: ${msg}`)],
    as it runs in the page. Its parameter [msg] is bound to the first
    of [args]. [step] is not a parameter: the function reads it from
    the global scope of the world it is injected in, [scope name] being
    what [JSON.stringify] gives for the value bound to [name] there,
    and [None] when nothing is bound to it. The result is the text
    handed to [alert]; there is none when reading [step] throws a
    ReferenceError, which happens before [alert] is called. *)
Definition failureAlertFunction (scope : string → option string) (args : list string)
    : option string :=
  match scope "step" with
  | None => None
  | Some json =>
    Some ("Replay failed at step: " +:+ json +:+ newline +:+ "Error: "
            +:+ default "undefined" (head args))
  end.

(** What [replay_script.js] adds to the global scope of the world it
    shares with the injected function: the two functions it declares,
    for which [JSON.stringify] gives [undefined]. Its [step] is a
    constant of the message listener's body. *)
Definition replayScriptScope (name : string) : option string :=
  if String.eqb name "waitForElement" || String.eqb name "executeStep"
  then Some "undefined" else None.

Section Browser.

(** The browser and the pages it shows, as seen from the service worker. *)
Variable World : Type.

(** [chrome.tabs.create({url, active: true})]: the new tab's id, or
    [None] when the call rejects. *)
Variable tabs_create : string → World → World * option Z.

(** [chrome.scripting.executeScript] of [replay_script.js] in all frames:
    [false] when the call rejects. *)
Variable injectReplayScript : Z → World → World * bool.

(** [chrome.tabs.sendMessage(tab, {type: 'executeSingleStep', step}, {frameId})] *)
Variable tabs_sendMessage : Z → Step → Z → World → World * Dispatch.

(** [await new Promise(resolve => setTimeout(resolve, ms))] *)
Variable delay : Z → World → World.

(** [chrome.scripting.executeScript] of a function that calls [alert],
    with the arguments passed along. *)
Variable injectAlert : Z → list string → World → World.

(** The body of [for (const step of steps.slice(1))], on the steps that
    remain. *)
Fixpoint replayLoop (tab : Z) (steps : list Step) (w : World)
    : World * list Effect * LoopResult :=
  match steps with
  | [] => (w, [], Finished)
  | step :: rest =>
    match step with
    | Wait duration =>
      let w1 := delay duration w in
      let '(w2, tr, res) := replayLoop tab rest w1 in
      (w2, LogStep "Orchestrating step:" step :: Delay duration :: tr, res)
    | _ =>
      let '(w1, d) := tabs_sendMessage tab step (frameIdOrZero step) w in
      match caughtError d with
      | Some msg =>
        let w2 := injectAlert tab [msg] w1 in
        (w2,
         [LogStep "Orchestrating step:" step;
          SendExecuteSingleStep tab step (frameIdOrZero step);
          Log ("Failed to send message to frame or it failed. Error: " +:+ msg);
          Log "Stopping flow due to error.";
          AlertFailure tab [msg]],
         Aborted step msg)
      | None =>
        let w2 := delay 500 w1 in
        let '(w3, tr, res) := replayLoop tab rest w2 in
        (w3,
         LogStep "Orchestrating step:" step
           :: SendExecuteSingleStep tab step (frameIdOrZero step)
           :: Log "Waiting 500ms for page to stabilize..."
           :: Delay 500 :: tr,
         res)
      end
    end
  end.

(** The [chrome.tabs.onUpdated] listener registered by [handleRunFlow],
    called with an update of tab [tabId]; [complete] is
    [info.status === 'complete']. The result tells whether the listener
    is still registered afterwards. *)
Definition updatedListener (tab : Z) (steps : list Step) (tabId : Z)
    (complete : bool) (w : World) : World * list Effect * bool :=
  if (tabId =? tab) && complete then
    let '(w1, injected) := injectReplayScript tab w in
    if injected then
      let '(w2, tr, res) := replayLoop tab (drop 1 steps) w1 in
      let pre :=
        [RemoveUpdatedListener tab;
         Log ("Tab " +:+ pretty tab +:+ " loaded. Injecting replay script into all frames.");
         InjectReplayScript tab;
         Log "Replay script injected. Starting step-by-step execution."] in
      match res with
      | Aborted _ _ => (w2, pre ++ tr, false)
      | Finished =>
        (w2, pre ++ tr ++ [Log "Flow execution finished successfully."; AlertCompleted tab],
         false)
      end
    else
      (w1,
       [RemoveUpdatedListener tab;
        Log ("Tab " +:+ pretty tab +:+ " loaded. Injecting replay script into all frames.");
        InjectReplayScript tab],
       false)
  else (w, [], true).

(** What [handleRunFlow] leaves behind when it returns, or the error
    its promise is rejected with when it throws. *)
Inductive RunStart : Type :=
| NotStarted
| Listening (tab : Z) (steps : list Step)
| RunThrew (error : string).

(** [handleRunFlow(flowName)], up to the registration of the listener;
    [flows] is what [loadSavedFlows()] has read. [steps] is whatever
    [savedFlows[flowName]] evaluates to. An inherited function or
    object is truthy; unless its [length] is [0] it passes the first
    test, its [steps[0]] is [undefined], and reading [initialStep.type]
    throws outside the [try] block. *)
Definition handleRunFlow (flowName : string) (flows : FlowStore) (w : World)
    : World * list Effect * RunStart :=
  let attempt := Log ("Attempting to run flow: " +:+ dquote +:+ flowName +:+ dquote) in
  match getProperty flows flowName with
  | Undefined | OwnFlow [] | Inherited (Some O) =>
    (w, [attempt; Log "Error: Flow not found."], NotStarted)
  | Inherited _ =>
    (w, [attempt],
     RunThrew "TypeError: Cannot read properties of undefined (reading 'type')")
  | OwnFlow (initialStep :: rest) =>
    match initialStep with
    | Goto url _ =>
      match tabs_create url w with
      | (w1, Some tab) =>
        (w1, [attempt; TabsCreate url; AddUpdatedListener tab],
         Listening tab (initialStep :: rest))
      | (w1, None) =>
        (w1, [attempt; TabsCreate url; Log "Error during handleRunFlow setup:"],
         NotStarted)
      end
    | _ =>
      (w, [attempt;
           Log ("Error: Flow must start with a " +:+ dquote +:+ "goto" +:+ dquote +:+ ".")],
       NotStarted)
    end
  end.

(** Readings of a trace. *)
Definition dispatchedStep (e : Effect) : option Step :=
  match e with SendExecuteSingleStep _ s _ => Some s | _ => None end.

(** The arguments of an injection of the failure function. *)
Definition failureAlert (e : Effect) : option (list string) :=
  match e with AlertFailure _ args => Some args | _ => None end.

Definition openedPage (e : Effect) : option string :=
  match e with TabsCreate url => Some url | _ => None end.

Definition dispatched (tr : list Effect) : list Step := omap dispatchedStep tr.
Definition failureAlerts (tr : list Effect) : list (list string) := omap failureAlert tr.
Definition openedPages (tr : list Effect) : list string := omap openedPage tr.

End Browser.

(** A browser for examples: the world counts the calls made on it; the
    element [#missing] is never found, a [Change] gets no response
    object, anything else succeeds. *)
Definition sampleSendMessage (tab : Z) (step : Step) (frameId : Z) (w : nat)
    : nat * Dispatch :=
  (S w,
   match step with
   | Click sel _ _ =>
     if String.eqb sel "#missing"
     then Returned (ReplyObject "error" (Some "Element not found for selector: #missing"))
     else Returned (ReplyObject "success" None)
   | Change _ _ _ => Returned NoReply
   | _ => Returned (ReplyObject "success" None)
   end).

Definition sampleTabsCreate (url : string) (w : nat) : nat * option Z := (S w, Some 42).
Definition sampleDelay (ms : Z) (w : nat) : nat := S w.
Definition sampleInjectAlert (tab : Z) (args : list string) (w : nat) : nat := S w.

(** A stand-in for [JSON.stringify] on the steps of the examples. *)
Definition sampleStringify (step : Step) : string :=
  match step with
  | Goto url _ => "goto " +:+ url
  | Wait d => "wait " +:+ pretty d
  | Click sel _ _ => "click " +:+ sel
  | Change sel v _ => "change " +:+ sel +:+ " " +:+ v
  end.

(** A flow whose second action step cannot be found. *)
Definition sampleFlow : list Step :=
  [Goto "https://x/form" (Some 0);
   Wait 300;
   Click "#ok" "OK" (Some 0);
   Click "#missing" "Gone" None;
   Change "#name" "Ada" (Some 0)].

End Orchestrator.

(* ================================================================== *)
(** ** Replay script: frame executor *)
(* ================================================================== *)

Module Executor.

(** A DOM element as [executeStep] uses it. [el_node] is the object's
    identity; [el_value] is [None] when [typeof element.value] is
    ['undefined']. *)
Record Element : Type := mkElement {
  el_node : nat;
  el_value : option string;
  el_isContentEditable : bool
}.

(** What the script does to the page. *)
Inductive DomOp : Type :=
| OpClick (el : Element)
| OpSetValue (el : Element) (v : string)
| OpSetInnerText (el : Element) (v : string)
| OpDispatchEvent (el : Element) (type : string).

Definition opTarget (op : DomOp) : Element :=
  match op with
  | OpClick el | OpSetValue el _ | OpSetInnerText el _ | OpDispatchEvent el _ => el
  end.

(** What [document.querySelector(selector)] does in one callback: it
    returns an element, returns [null], or throws a SyntaxError because
    the selector is not one the document accepts. *)
Inductive Query : Type :=
| Found (element : Element)
| NotFound
| QueryThrows.

(** One run of the [setInterval] callback: what the query does and the
    clock the callback reads if it gets that far. *)
Record Tick : Type := mkTick { tick_now : Z; tick_query : Query }.

Inductive WaitResult : Type :=
| Resolved (el : Element)
| Rejected (message : string)
| Pending.

Definition pollInterval : Z := 100.
Definition defaultTimeout : Z := 7000.

(** [waitForElement(selector, timeout)] started at [startTime], over the
    callbacks that have run so far. A callback in which the query throws
    ends there: it neither clears the timer nor settles the promise, and
    the next callback runs as usual. *)
Fixpoint waitForElement (selector : string) (timeout startTime : Z)
    (ticks : list Tick) : WaitResult :=
  match ticks with
  | [] => Pending
  | t :: rest =>
    match tick_query t with
    | Found element => Resolved element
    | NotFound =>
      if timeout <? tick_now t - startTime
      then Rejected ("Element not found for selector: " +:+ selector)
      else waitForElement selector timeout startTime rest
    | QueryThrows => waitForElement selector timeout startTime rest
    end
  end.

(** [`${step.selector}`]: steps without the field read [undefined]. *)
Definition selectorOf (step : Step) : string :=
  match step with
  | Click sel _ _ | Change sel _ _ => sel
  | _ => "undefined"
  end.

Inductive ExecResult : Type :=
| Succeeded
| Failed (message : string)
| StillWaiting.

(** [executeStep(step)] *)
Definition executeStep (step : Step) (startTime : Z) (ticks : list Tick)
    : ExecResult * list DomOp :=
  match waitForElement (selectorOf step) defaultTimeout startTime ticks with
  | Pending => (StillWaiting, [])
  | Rejected msg => (Failed msg, [])
  | Resolved element =>
    match step with
    | Click _ _ _ => (Succeeded, [OpClick element])
    | Change _ value _ =>
      let notify :=
        [OpDispatchEvent element "input";
         OpDispatchEvent element "change";
         OpDispatchEvent element "blur"] in
      match el_value element with
      | Some _ => (Succeeded, OpSetValue element value :: notify)
      | None =>
        if el_isContentEditable element
        then (Succeeded, OpSetInnerText element value :: notify)
        else (Failed "Cannot set value on a non-input, non-contenteditable element.", [])
      end
    | _ => (Succeeded, [])
    end
  end.

(** The [executeSingleStep] listener: the object given to
    [sendResponse], once [executeStep] has settled. *)
Definition executeSingleStep (step : Step) (startTime : Z) (ticks : list Tick)
    : option Orchestrator.Reply * list DomOp :=
  match executeStep step startTime ticks with
  | (Succeeded, ops) => (Some (Orchestrator.ReplyObject "success" None), ops)
  | (Failed msg, ops) => (Some (Orchestrator.ReplyObject "error" (Some msg)), ops)
  | (StillWaiting, ops) => (None, ops)
  end.

(** The callbacks of a punctual timer: the [k]-th runs
    [k * pollInterval] after the start and sees the document of that
    moment, [query t] being what [querySelector] does at time [t]. *)
Definition punctualTick (startTime : Z) (query : Z → Query) (k : nat) : Tick :=
  {| tick_now := startTime + pollInterval * Z.of_nat k;
     tick_query := query (startTime + pollInterval * Z.of_nat k) |}.

Definition punctualTicks (startTime : Z) (query : Z → Query) (n : nat)
    : list Tick :=
  map (punctualTick startTime query) (seq 1 n).

(** The step types that act on an element. *)
Definition isAction (step : Step) : bool :=
  match step with Click _ _ _ | Change _ _ _ => true | _ => false end.

(** The number of the first punctual callback that runs more than
    [defaultTimeout] after the start. *)
Definition lastPoll : nat := 71.

(** An element that enters the document 7050ms after the start. *)
Definition lateElement : Element :=
  {| el_node := 1; el_value := None; el_isContentEditable := false |}.

Definition lateQuery (t : Z) : Query :=
  if 7050 <=? t then Found lateElement else NotFound.

(** A text field that is there from the start, and a query that never
    finds anything. *)
Definition nameField : Element :=
  {| el_node := 2; el_value := Some "Bob"; el_isContentEditable := false |}.

Definition presentQuery (t : Z) : Query := Found nameField.

(** An editable [div], also there from the start. *)
Definition noteDiv : Element :=
  {| el_node := 3; el_value := None; el_isContentEditable := true |}.

Definition noteQuery (t : Z) : Query := Found noteDiv.

Definition emptyQuery (t : Z) : Query := NotFound.

(** A field that enters the document 250ms after the start. *)
Definition soonQuery (t : Z) : Query :=
  if 250 <=? t then Found nameField else NotFound.

(** A selector the document does not accept, such as [#1st]. *)
Definition invalidQuery (t : Z) : Query := QueryThrows.

End Executor.

(* ================================================================== *)
(** ** Content scripts: the document as an observer sees it *)
(* ================================================================== *)

Module Dom.

(** Properties only HTML elements have (an SVG element has neither). *)
Record HtmlProps : Type := mkHtmlProps {
  isContentEditable : bool;
  innerText : string
}.

(** An element together with the part of the tree the scripts walk:
    its chain of previous element siblings (nearest first) and its
    parent. [el_node] is the object's identity, [el_value] is [None]
    when the element has no [value] property. *)
Inductive Element : Type := mkElement {
  el_node : nat;
  el_id : string;
  el_tagName : string;
  el_attributes : list (string * string);
  el_previousSiblings : list Element;
  el_parentElement : option Element;
  el_html : option HtmlProps;
  el_value : option string
}.

(** [a === b] on element objects. *)
Definition sameElement (a b : Element) : bool := Nat.eqb (el_node a) (el_node b).

(** [element.getAttribute(attr)]: [None] is [null]. *)
Fixpoint getAttribute (attrs : list (string * string)) (attr : string) : option string :=
  match attrs with
  | [] => None
  | (name, v) :: rest => if String.eqb name attr then Some v else getAttribute rest attr
  end.

(** Truthiness of a string, and of a string or [null]. *)
Definition truthy (s : string) : bool := negb (String.eqb s EmptyString).

Definition truthyAttr (o : option string) : bool :=
  match o with Some s => truthy s | None => false end.

(** [element.isContentEditable], falsy where the property is missing. *)
Definition el_isContentEditable (el : Element) : bool :=
  match el_html el with Some h => isContentEditable h | None => false end.

Definition lowerAscii (c : ascii) : ascii :=
  let n := nat_of_ascii c in
  if ((Nat.leb 65 n && Nat.leb n 90)
      || (Nat.leb 192 n && Nat.leb n 222 && negb (Nat.eqb n 215)))%bool
  then ascii_of_nat (n + 32) else c.

(** [s.toLowerCase()]. A character of the model is a code unit below
    256; the upper-case letters among those are A to Z and the
    accented capitals from 192 to 222, the sign at 215 apart. *)
Fixpoint toLowerCase (s : string) : string :=
  match s with
  | EmptyString => EmptyString
  | String c rest => String (lowerAscii c) (toLowerCase rest)
  end.

(** The white space and line terminators of JS among the code units
    below 256: tab to carriage return, the space and the no-break
    space. *)
Definition isSpace (c : ascii) : bool :=
  let n := nat_of_ascii c in
  (Nat.eqb n 32 || Nat.eqb n 160 || (Nat.leb 9 n && Nat.leb n 13))%bool.

Fixpoint trimStart (s : string) : string :=
  match s with
  | EmptyString => EmptyString
  | String c rest => if isSpace c then trimStart rest else s
  end.

Fixpoint trimEnd (s : string) : string :=
  match s with
  | EmptyString => EmptyString
  | String c rest =>
    match trimEnd rest with
    | EmptyString => if isSpace c then EmptyString else String c EmptyString
    | rest' => String c rest'
    end
  end.

(** [s.trim()], on strings of code units below 256. *)
Definition trim (s : string) : string := trimEnd (trimStart s).

(** The inner [while (sibling)] loop of both resolvers: one more than
    the number of previous element siblings with the same tag name. *)
Fixpoint siblingIndex (tagName : string) (siblings : list Element) : nat :=
  match siblings with
  | [] => 1
  | sibling :: rest =>
    if String.eqb (el_tagName sibling) tagName
    then S (siblingIndex tagName rest)
    else siblingIndex tagName rest
  end.

Definition dquote : string := String (ascii_of_nat 34) EmptyString.

(** A small document for examples: a form in the body, holding a label,
    a text field and a button. *)
Definition plain (text : string) : option HtmlProps :=
  Some {| isContentEditable := false; innerText := text |}.

Definition htmlElement : Element :=
  {| el_node := 1; el_id := EmptyString; el_tagName := "HTML"; el_attributes := [];
     el_previousSiblings := []; el_parentElement := None;
     el_html := plain "Name Submit"; el_value := None |}.

Definition bodyElement : Element :=
  {| el_node := 2; el_id := EmptyString; el_tagName := "BODY"; el_attributes := [];
     el_previousSiblings := []; el_parentElement := Some htmlElement;
     el_html := plain "Name Submit"; el_value := None |}.

Definition formElement : Element :=
  {| el_node := 3; el_id := EmptyString; el_tagName := "FORM"; el_attributes := [];
     el_previousSiblings := []; el_parentElement := Some bodyElement;
     el_html := plain "Name Submit"; el_value := None |}.

Definition labelElement : Element :=
  {| el_node := 4; el_id := EmptyString; el_tagName := "LABEL"; el_attributes := [];
     el_previousSiblings := []; el_parentElement := Some formElement;
     el_html := plain "Name"; el_value := None |}.

(** The text field while it holds [text]. *)
Definition nameInput (text : string) : Element :=
  {| el_node := 5; el_id := "name"; el_tagName := "INPUT";
     el_attributes := [("id", "name"); ("name", "user")];
     el_previousSiblings := [labelElement]; el_parentElement := Some formElement;
     el_html := plain EmptyString; el_value := Some text |}.

Definition submitButton : Element :=
  {| el_node := 6; el_id := "submit"; el_tagName := "BUTTON";
     el_attributes := [("id", "submit")];
     el_previousSiblings := [nameInput EmptyString; labelElement];
     el_parentElement := Some formElement;
     el_html := plain "Submit"; el_value := Some EmptyString |}.

(** Stand-ins for the browser on this document: the ids need no
    escaping, and every attribute selector matches one element. *)
Definition sampleEscape (s : string) : string := s.
Definition sampleCount (selector : string) : option nat := Some 1%nat.

End Dom.

(* ================================================================== *)
(** ** Content script, pointer-press revision: frame observer *)
(* ================================================================== *)

Module Observer.

Import Dom.

Section Document.

(** [CSS.escape] *)
Variable CSS_escape : string → string.

(** [document.querySelectorAll(selector).length], [None] when the call
    throws. *)
Variable querySelectorAll_length : string → option nat.

Definition stableAttrs : list string :=
  ["data-testid"; "name"; "aria-label"; "placeholder"; "title"; "alt"].

(** The [for (const attr of stableAttrs)] loop: the selector it returns,
    if it returns. *)
Fixpoint attributeSelector (element : Element) (attrs : list string) : option string :=
  match attrs with
  | [] => None
  | attr :: rest =>
    match getAttribute (el_attributes element) attr with
    | Some attrValue =>
      if truthy attrValue then
        let selector :=
          toLowerCase (el_tagName element) +:+ "[" +:+ attr +:+ "=" +:+ dquote
            +:+ CSS_escape attrValue +:+ dquote +:+ "]" in
        match querySelectorAll_length selector with
        | Some 1%nat => Some selector
        | _ => attributeSelector element rest
        end
      else attributeSelector element rest
    | None => attributeSelector element rest
    end
  end.

(** The [while (currentElement && currentElement.parentElement && ...)]
    loop, from [currentElement] with the [path] built so far. *)
Fixpoint positionalPath (currentElement : Element) (path : string) : string :=
  match el_parentElement currentElement with
  | None => path
  | Some parent =>
    if String.eqb (toLowerCase (el_tagName currentElement)) "body" then path
    else if truthy (el_id currentElement)
    then "#" +:+ CSS_escape (el_id currentElement) +:+ path
    else
      let index :=
        siblingIndex (el_tagName currentElement) (el_previousSiblings currentElement) in
      let tagName := toLowerCase (el_tagName currentElement) in
      let nthChild := ":nth-of-type(" +:+ pretty index +:+ ")" in
      positionalPath parent (" > " +:+ tagName +:+ nthChild +:+ path)
  end.

(** [getSelector(element)] *)
Definition getSelector (element : option Element) : string :=
  match element with
  | None => EmptyString
  | Some el =>
    if truthy (el_id el) then "#" +:+ CSS_escape (el_id el)
    else
      match attributeSelector el stableAttrs with
      | Some selector => selector
      | None => trim ("body" +:+ positionalPath el EmptyString)
      end
  end.

(** [lastRecordedValue]: a [Map] keyed by element identity. *)
Abbreviation ValueMap := (gmap nat string).

(** The [value] that [recordInputChange] reads off its target: the
    text of a content-editable element, else the [value] property;
    [None] where the function returns without one. *)
Definition currentValue (t : Element) : option string :=
  match el_html t with
  | Some h => if isContentEditable h then Some (innerText h) else el_value t
  | None => el_value t
  end.

(** [recordInputChange(target)]: the new map and the messages sent, the
    extension runtime being reachable ([sendMessage] swallows every
    failure to send). *)
Definition recordInputChange (target : option Element) (lastRecordedValue : ValueMap)
    : ValueMap * list Action :=
  match target with
  | None => (lastRecordedValue, [])
  | Some t =>
    match currentValue t with
    | None => (lastRecordedValue, [])
    | Some v =>
      if bool_decide (lastRecordedValue !! el_node t = Some v)
      then (lastRecordedValue, [])
      else (<[el_node t := v]> lastRecordedValue,
            [AChange (getSelector (Some t)) v])
    end
  end.

(** [target.innerText?.trim().substring(0, 50) || ''] *)
Definition clickLabel (target : Element) : string :=
  match el_html target with
  | Some h => String.substring 0 50 (trim (innerText h))
  | None => EmptyString
  end.

Definition isTextField (el : Element) : bool :=
  (String.eqb (el_tagName el) "INPUT" || String.eqb (el_tagName el) "TEXTAREA")%bool.

(** [onMouseDown(event)], with [target = event.composedPath()[0]] and
    [activeElement = document.activeElement]. *)
Definition onMouseDown (target : Element) (activeElement : option Element)
    (lastRecordedValue : ValueMap) : ValueMap * list Action :=
  let '(m, flushed) :=
    match activeElement with
    | Some active =>
      if (negb (sameElement active target)
          && (el_isContentEditable active || isTextField active))%bool
      then recordInputChange (Some active) lastRecordedValue
      else (lastRecordedValue, [])
    | None => (lastRecordedValue, [])
    end in
  (m, flushed ++ [AClick (getSelector (Some target)) (clickLabel target)]).

(** What happens in the frame. Each event carries the elements as they
    are when it fires: an [Edited] element already has its new content,
    a [Blurred] one its content when focus leaves. *)
Inductive DomEvent : Type :=
| Edited (target : Element)
| Blurred (target : Element)
| MouseDown (target : Element) (activeElement : option Element).

(** The script registers one listener, for [mousedown] in the capture
    phase; no other event reaches it. *)
Definition observe (ev : DomEvent) (lastRecordedValue : ValueMap)
    : ValueMap * list Action :=
  match ev with
  | MouseDown target activeElement => onMouseDown target activeElement lastRecordedValue
  | Edited _ | Blurred _ => (lastRecordedValue, [])
  end.

(** All reports of a run of events, in the order sent. *)
Fixpoint observeAll (evs : list DomEvent) (lastRecordedValue : ValueMap)
    : ValueMap * list Action :=
  match evs with
  | [] => (lastRecordedValue, [])
  | ev :: rest =>
    let '(m1, out1) := observe ev lastRecordedValue in
    let '(m2, out2) := observeAll rest m1 in
    (m2, out1 ++ out2)
  end.

(** Edits and losses of focus, as opposed to pointer presses. *)
Definition isMouseDown (ev : DomEvent) : bool :=
  match ev with MouseDown _ _ => true | _ => false end.

(** An element whose pending value a pointer press elsewhere flushes. *)
Definition isEditable (el : Element) : bool :=
  (el_isContentEditable el || isTextField el)%bool.

End Document.

End Observer.

(* ================================================================== *)
(** ** Content script, debounce revision: frame observer *)
(* ================================================================== *)

Module DebounceObserver.

Import Dom.

Section Document.

(** [document.querySelectorAll(selector).length], [None] when the call
    throws; this revision does not catch it. *)
Variable querySelectorAll_length : string → option nat.

Definition uniqueAttrs : list string := ["data-testid"; "name"].

Inductive AttrSearch : Type :=
| Found (selector : string)
| NotFound
| Thrown.

(** The [for (const attr of uniqueAttrs)] loop. *)
Fixpoint attributeSelector (element : Element) (attrs : list string) : AttrSearch :=
  match attrs with
  | [] => NotFound
  | attr :: rest =>
    match getAttribute (el_attributes element) attr with
    | Some attrValue =>
      if truthy attrValue then
        let selector :=
          toLowerCase (el_tagName element) +:+ "[" +:+ attr +:+ "=" +:+ dquote
            +:+ attrValue +:+ dquote +:+ "]" in
        match querySelectorAll_length selector with
        | None => Thrown
        | Some 1%nat => Found selector
        | Some _ => attributeSelector element rest
        end
      else attributeSelector element rest
    | None => attributeSelector element rest
    end
  end.

(** The [while (current && current.parentElement)] loop. *)
Fixpoint positionalPath (current : Element) (path : string) : string :=
  match el_parentElement current with
  | None => path
  | Some parent =>
    let index := siblingIndex (el_tagName current) (el_previousSiblings current) in
    let tagName := toLowerCase (el_tagName current) in
    let nthChild := ":nth-of-type(" +:+ pretty index +:+ ")" in
    let path' := " > " +:+ tagName +:+ nthChild +:+ path in
    if String.eqb (toLowerCase (el_tagName parent)) "body" then path'
    else positionalPath parent path'
  end.

(** [getSelector(element)]; [None] when it throws. *)
Definition getSelector (element : option Element) : option string :=
  match element with
  | None => Some EmptyString
  | Some el =>
    if truthy (el_id el) then Some ("#" +:+ el_id el)
    else
      match attributeSelector el uniqueAttrs with
      | Found selector => Some selector
      | Thrown => None
      | NotFound => Some (trim ("body " +:+ positionalPath el EmptyString))
      end
  end.

(** [recordInputChange(target)]: the messages sent. Form controls, the
    only elements it is called on, have a string [value]. *)
Definition recordInputChange (target : Element) : list Action :=
  match getSelector (Some target) with
  | Some selector => [AChange selector (default EmptyString (el_value target))]
  | None => []
  end.

Definition isFormControl (el : Element) : bool :=
  (String.eqb (el_tagName el) "INPUT" || String.eqb (el_tagName el) "TEXTAREA"
   || String.eqb (el_tagName el) "SELECT")%bool.

(** The [timeout] variable closed over by
    [debounce(recordInputChange, 500)]: when the pending timer is due and
    the element it will be called with. *)
Record Debounce : Type := mkDebounce { pending : option (Z * nat) }.

Inductive DomEvent : Type :=
| Input (now : Z) (target : Element)
| Blur (now : Z) (target : Element)
| TimerFired (now : Z) (target : Element).

(** [handleInput], [handleBlur] and the debounce timer's callback. The
    timer's callback reads the element as it is when the timer fires. *)
Definition observe (ev : DomEvent) (st : Debounce) : Debounce * list Action :=
  match ev with
  | Input now target =>
    if isFormControl target
    then ({| pending := Some (now + 500, el_node target) |}, [])
    else (st, [])
  | Blur now target =>
    if isFormControl target then (st, recordInputChange target) else (st, [])
  | TimerFired now target =>
    match pending st with
    | Some (due, node) =>
      if ((due <=? now) && Nat.eqb node (el_node target))%bool
      then ({| pending := None |}, recordInputChange target)
      else (st, [])
    | None => (st, [])
    end
  end.

Fixpoint observeAll (evs : list DomEvent) (st : Debounce) : Debounce * list Action :=
  match evs with
  | [] => (st, [])
  | ev :: rest =>
    let '(st1, out1) := observe ev st in
    let '(st2, out2) := observeAll rest st1 in
    (st2, out1 ++ out2)
  end.

End Document.

End DebounceObserver.

(* ================================================================== *)
(** ** Shape of a recording *)
(* ================================================================== *)

Module RecordingShape.

Import Background Interleaving.

Definition isActionStep (s : Step) : bool :=
  match s with Click _ _ _ | Change _ _ _ => true | _ => false end.

(** The steps after the first one: no goto among them, every wait is
    longer than 100ms and stands right before a click or a change. *)
Fixpoint tailShape (steps : list Step) : bool :=
  match steps with
  | [] => true
  | Goto _ _ :: _ => false
  | Wait duration :: rest =>
    (100 <? duration)
    && match rest with next :: _ => isActionStep next | [] => false end
    && tailShape rest
  | _ :: rest => tailShape rest
  end.

(** A whole flow: a goto tagged with the top frame, then such a tail. *)
Definition flowShape (steps : list Step) : bool :=
  match steps with
  | Goto _ (Some 0) :: tail => tailShape tail
  | _ => false
  end.

(** No steps at all, or a whole flow. *)
Definition emptyOrFlowShape (steps : list Step) : bool :=
  match steps with
  | [] => true
  | _ => flowShape steps
  end.

Definition storeShape (flows : FlowStore) : Prop :=
  ∀ name steps, flows !! name = Some steps → emptyOrFlowShape steps = true.

(** The store objects a suspended handler holds. *)
Definition taskShape (t : Task) : Prop :=
  match t with
  | SaveLoading _ (Some flows) | SaveStoring _ flows _
  | DeleteLoading _ (Some flows) | DeleteStoring _ flows _ => storeShape flows
  | _ => True
  end.

(** What holds of the module-level variables: during a recording a
    tab is bound and the steps are a whole flow; outside of one the
    steps are a whole flow (a cancelled recording not yet reset) or
    there are none. *)
Definition stateShape (st : State) : Prop :=
  (isRecording st = true →
     is_Some (recordingTabId st) ∧ flowShape (recordedSteps st) = true)
  ∧ emptyOrFlowShape (recordedSteps st) = true.

(** What holds of the controller, of the store it writes and of its
    suspended handlers. *)
Definition wellFormed (wk : Worker) : Prop :=
  stateShape (stateOf wk)
  ∧ storeShape (flowsOf wk)
  ∧ Forall taskShape (worker_tasks wk).

(** The state a start request leaves when it resumes on [tab]. *)
Definition freshRecording (now : Z) (tab : Tab) : State :=
  {| isRecording := true;
     recordedSteps := [Goto (tab_url tab) (Some 0)];
     lastActionTimestamp := now;
     recordingTabId := Some (tab_id tab) |}.

(** The steps and the flag a message to the side panel carries. *)
Definition messageSteps (msg : UiMessage) : option (bool * list Step) :=
  match msg with
  | recordingStateChanged isRec steps => Some (isRec, steps)
  | updateLiveSteps steps => Some (true, steps)
  | flowsUpdated => None
  end.

(** A short session for examples: start on tab 7, one click, save. *)
Definition sampleSession : list Event :=
  [Message 1000 (Some {| tab_id := 7; tab_url := "https://x/form" |}) startRecording
     (panel 0);
   reportEvent clickSubmit;
   Message 2000 None (stopRecordingAndSave "login") (panel 0)].

(** The same session with the handlers' segments spelled out, each
    event with the number of handler calls made before it. *)
Definition sampleSchedule : list Move :=
  concat (zip_with uninterrupted [0; 1; 1]%nat sampleSession).

End RecordingShape.

(* ================================================================== *)
(** ** Readings of a replay trace *)
(* ================================================================== *)

Module ReplayTrace.

Import Background Orchestrator.

Definition delayOf (e : Effect) : Z :=
  match e with Delay ms => ms | _ => 0 end.

(** The time the orchestrator spends in its own delays. *)
Definition totalDelay (tr : list Effect) : Z :=
  foldr (λ e acc, delayOf e + acc) 0 tr.

(** The time a list of steps asks for when every step succeeds: the
    recorded waits, and 500ms after each dispatched step. *)
Fixpoint plannedDelay (steps : list Step) : Z :=
  match steps with
  | [] => 0
  | Wait duration :: rest => duration + plannedDelay rest
  | _ :: rest => 500 + plannedDelay rest
  end.

Definition completionAlert (e : Effect) : option Z :=
  match e with AlertCompleted tab => Some tab | _ => None end.

Definition completionAlerts (tr : list Effect) : list Z := omap completionAlert tr.

(** Tab, step and frame of a dispatch. *)
Definition dispatchOf (e : Effect) : option (Z * Step * Z) :=
  match e with SendExecuteSingleStep tab s f => Some (tab, s, f) | _ => None end.

(** What a run of the loop over [steps] on tab [tab], with trace [tr]
    and result [res], is checked against below. *)
Definition dispatchesInOrder (steps : list Step) (tr : list Effect) : Prop :=
  dispatched tr `prefix_of` List.filter notWait steps.

Definition dispatchesOnTarget (tab : Z) (steps : list Step) (tr : list Effect) : Prop :=
  ∀ e t s f, In e tr → dispatchOf e = Some (t, s, f) →
    t = tab ∧ In s steps ∧ isWait s = false ∧ f = frameIdOrZero s.

Definition outcomeReported (steps : list Step) (tr : list Effect) (res : LoopResult)
    : Prop :=
  match res with
  | Finished =>
    dispatched tr = List.filter notWait steps
    ∧ failureAlerts tr = []
    ∧ totalDelay tr = plannedDelay steps
  | Aborted k msg =>
    failureAlerts tr = [[msg]]
    ∧ last (dispatched tr) = Some k
  end.

(** A browser in which every dispatch succeeds. *)
Definition sampleAlwaysOk (tab : Z) (step : Step) (frameId : Z) (w : nat)
    : nat * Dispatch :=
  (S w, Returned (ReplyObject "success" None)).

Definition sampleInject (tab : Z) (w : nat) : nat * bool := (S w, true).

End ReplayTrace.

(* ================================================================== *)
(** ** Readings of a poll sequence *)
(* ================================================================== *)

Module Polling.

Import Executor.

(** A callback that neither finds the element nor gives up: the query
    throws, or it finds nothing while the timeout has not passed. *)
Definition inconclusive (timeout startTime : Z) (t : Tick) : Prop :=
  tick_query t = QueryThrows
  ∨ (tick_query t = NotFound ∧ tick_now t - startTime ≤ timeout).

(** Callbacks with arbitrary delays, for examples: nothing at 130ms and
    at 6990ms, the element at 8200ms. *)
Definition throttledTicks : list Tick :=
  [{| tick_now := 130; tick_query := NotFound |};
   {| tick_now := 6990; tick_query := NotFound |};
   {| tick_now := 8200; tick_query := Found nameField |};
   {| tick_now := 8300; tick_query := NotFound |}].

(** The same start, but the element never comes. *)
Definition emptyTicks : list Tick :=
  [{| tick_now := 130; tick_query := NotFound |};
   {| tick_now := 6990; tick_query := NotFound |};
   {| tick_now := 8200; tick_query := NotFound |};
   {| tick_now := 8300; tick_query := Found nameField |}].

(** Callbacks on a selector the document does not accept. *)
Definition throwingTicks : list Tick :=
  [{| tick_now := 130; tick_query := QueryThrows |};
   {| tick_now := 6990; tick_query := QueryThrows |};
   {| tick_now := 8200; tick_query := QueryThrows |};
   {| tick_now := 8300; tick_query := QueryThrows |}].

End Polling.

(* ================================================================== *)
(** ** Readings of an observer's reports *)
(* ================================================================== *)

Module Reports.

Definition isClickAction (a : Action) : bool :=
  match a with AClick _ _ => true | AChange _ _ => false end.

Definition isChangeAction (a : Action) : bool :=
  match a with AChange _ _ => true | AClick _ _ => false end.

(** The number of previous siblings with exactly this tag name. *)
Definition sameTagCount (tagName : string) (siblings : list Dom.Element) : nat :=
  length (List.filter (λ sibling, String.eqb (Dom.el_tagName sibling) tagName) siblings).

(** One level of a positional path, as both resolvers write it. *)
Definition pathSegment (el : Dom.Element) : string :=
  " > " +:+ Dom.toLowerCase (Dom.el_tagName el) +:+ ":nth-of-type("
    +:+ pretty (Dom.siblingIndex (Dom.el_tagName el) (Dom.el_previousSiblings el))
    +:+ ")".

(** A [div] without id or attributes under [parent], for examples. *)
Definition divIn (node : nat) (parent : Dom.Element) : Dom.Element :=
  {| Dom.el_node := node; Dom.el_id := EmptyString; Dom.el_tagName := "DIV";
     Dom.el_attributes := []; Dom.el_previousSiblings := [];
     Dom.el_parentElement := Some parent;
     Dom.el_html := Dom.plain EmptyString; Dom.el_value := None |}.

(** A [section] with an id, in the body. *)
Definition mainSection : Dom.Element :=
  {| Dom.el_node := 30; Dom.el_id := "main"; Dom.el_tagName := "SECTION";
     Dom.el_attributes := [("id", "main")]; Dom.el_previousSiblings := [];
     Dom.el_parentElement := Some Dom.bodyElement;
     Dom.el_html := Dom.plain EmptyString; Dom.el_value := None |}.

End Reports.

(* ================================================================== *)
(** ** Content script, debounce revision: click capture *)
(* ================================================================== *)

Module ClickCapture.

Import Dom.

Definition clickableTags : list string :=
  ["A"; "BUTTON"; "INPUT"; "TEXTAREA"; "SELECT"; "LI"; "SUMMARY"].

Definition clickableRoles : list string :=
  ["button"; "link"; "menuitem"; "tab"; "option"; "checkbox"; "radio"; "switch"].

(** [list.includes(s)] *)
Definition includes (l : list string) (s : string) : bool := existsb (String.eqb s) l.

(** [element.hasAttribute(name)] *)
Definition hasAttribute (el : Element) (name : string) : bool :=
  match getAttribute (el_attributes el) name with Some _ => true | None => false end.

(** [role && clickableRoles.includes(role.toLowerCase())], on the
    element itself. *)
Definition hasClickableRole (el : Element) : bool :=
  match getAttribute (el_attributes el) "role" with
  | Some role => truthy role && includes clickableRoles (toLowerCase role)
  | None => false
  end.

(** The test applied to an ancestor; its [role] is compared as it is
    written. *)
Definition clickableParent (parent : Element) : bool :=
  includes clickableTags (el_tagName parent)
  || match getAttribute (el_attributes parent) "role" with
     | Some role => truthy role && includes clickableRoles role
     | None => false
     end.

(** The loop [for (let i = 0; i < 3 && parent; i++)], with [remaining]
    rounds to go. *)
Fixpoint clickableAncestor (remaining : nat) (parent : option Element) : bool :=
  match remaining, parent with
  | S n, Some p =>
    if clickableParent p then true else clickableAncestor n (el_parentElement p)
  | _, _ => false
  end.

(** [isValidClickTarget(element)]. The branch on text-like inputs has an
    empty body in the source and returns [true] like any clickable tag. *)
Definition isValidClickTarget (element : option Element) : bool :=
  match element with
  | None => false
  | Some el =>
    if includes clickableTags (el_tagName el) then true
    else if hasClickableRole el then true
    else if hasAttribute el "onclick" || hasAttribute el "jsaction" then true
    else clickableAncestor 3 (el_parentElement el)
  end.

(** The [k]-th ancestor of an element, the parent being the first. *)
Fixpoint nthAncestor (k : nat) (el : Element) : option Element :=
  match k with
  | O => Some el
  | S n =>
    match el_parentElement el with
    | Some parent => nthAncestor n parent
    | None => None
    end
  end.

Section Document.

Variable querySelectorAll_length : string → option nat.

(** [event.target.innerText ? event.target.innerText.trim().substring(0, 50) : ''] *)
Definition clickLabel (target : Element) : string :=
  match el_html target with
  | Some h =>
    if truthy (innerText h) then String.substring 0 50 (trim (innerText h))
    else EmptyString
  | None => EmptyString
  end.

(** [handleClick(event)]: the messages sent. [pageView] tells that
    [event.view] is there and is not an extension page. When
    [getSelector] throws the handler ends there. *)
Definition handleClick (target : Element) (activeElement : option Element)
    (pageView : bool) : list Action :=
  let flush : option (list Action) :=
    match activeElement with
    | Some active =>
      if (Observer.isTextField active && negb (sameElement active target))%bool then
        match DebounceObserver.getSelector querySelectorAll_length (Some active) with
        | Some _ =>
          Some (DebounceObserver.recordInputChange querySelectorAll_length active)
        | None => None
        end
      else Some []
    | None => Some []
    end in
  match flush with
  | None => []
  | Some out =>
    if negb pageView then out
    else if negb (isValidClickTarget (Some target)) then out
    else
      match DebounceObserver.getSelector querySelectorAll_length (Some target) with
      | Some selector => out ++ [AClick selector (clickLabel target)]
      | None => out
      end
  end.

End Document.

(** A decorative element five levels below a button, for examples. *)
Definition buttonElement : Element :=
  {| el_node := 20; el_id := EmptyString; el_tagName := "BUTTON"; el_attributes := [];
     el_previousSiblings := []; el_parentElement := Some bodyElement;
     el_html := plain "Go"; el_value := Some EmptyString |}.

Definition spanIn (node : nat) (parent : Element) : Element :=
  {| el_node := node; el_id := EmptyString; el_tagName := "SPAN"; el_attributes := [];
     el_previousSiblings := []; el_parentElement := Some parent;
     el_html := plain "Go"; el_value := None |}.

Definition iconSpan : Element := spanIn 22 (spanIn 21 buttonElement).

End ClickCapture.

(* ================================================================== *)
(** ** Replay script, single-message revision *)
(* ================================================================== *)

Module LegacyReplay.

Import Executor.

(** What the script does, in program order. *)
Inductive Effect : Type :=
| PageOp (op : DomOp)
| Sleep (ms : Z)
| Alert (text : string).

Definition newline : string := String (ascii_of_nat 10) EmptyString.

Section Page.

(** The document the script runs in. *)
Variable Page : Type.

(** [document.querySelector(selector)] on the document as it is. *)
Variable querySelector : string → Page → option Element.

(** The document after an operation of the script, and after a pause. *)
Variable perform : DomOp → Page → Page.
Variable sleep : Z → Page → Page.

Variable JSON_stringify : Step → string.

(** [executeStep(step)]: the operations done when the promise
    resolves, or the message of the error it rejects with. The element
    is looked up once, when the step starts. *)
Definition executeStep (step : Step) (page : Page) : list Effect + string :=
  match step with
  | Wait duration => inl [Sleep duration]
  | Click selector _ _ =>
    match querySelector selector page with
    | Some element => inl [PageOp (OpClick element)]
    | None => inr ("Element not found for selector: " +:+ selector)
    end
  | Change selector value _ =>
    match querySelector selector page with
    | Some element =>
      inl [PageOp (OpSetValue element value);
           PageOp (OpDispatchEvent element "input");
           PageOp (OpDispatchEvent element "change")]
    | None => inr ("Element not found for selector: " +:+ selector)
    end
  | _ => inl []
  end.

Definition applyEffect (e : Effect) (page : Page) : Page :=
  match e with
  | PageOp op => perform op page
  | Sleep ms => sleep ms page
  | Alert _ => page
  end.

Definition applyEffects (es : list Effect) (page : Page) : Page :=
  foldl (λ p e, applyEffect e p) page es.

(** The [executeFlow] listener: the loop over [request.steps] and the
    alert that ends it. *)
Fixpoint executeFlow (steps : list Step) (page : Page) : list Effect :=
  match steps with
  | [] => [Alert "Flow replay completed successfully!"]
  | step :: rest =>
    match executeStep step page with
    | inl done_ => done_ ++ executeFlow rest (applyEffects done_ page)
    | inr message =>
      [Alert ("Replay failed at step: " +:+ JSON_stringify step +:+ newline
                +:+ "Error: " +:+ message)]
    end
  end.

Definition alertOf (e : Effect) : option string :=
  match e with Alert text => Some text | _ => None end.

Definition alerts (tr : list Effect) : list string := omap alertOf tr.

End Page.

(** A page for examples: only [#ok] is in the document. *)
Definition sampleQuery (selector : string) (page : nat) : option Element :=
  if String.eqb selector "#ok"
  then Some {| el_node := 1; el_value := None; el_isContentEditable := false |}
  else None.

Definition samplePerform (op : DomOp) (page : nat) : nat := S page.
Definition sampleSleep (ms : Z) (page : nat) : nat := S page.

End LegacyReplay.

(* ================================================================== *)
(** * Properties *)
(* ================================================================== *)

(** ** Recording controller *)

Module BackgroundFacts.

Import Background.

Lemma system_eta (sys : System) :
  {| sys_state := sys_state sys; sys_flows := sys_flows sys |} = sys.
Proof. by destruct sys. Qed.

(** A report is handled by [handleRecordAction] when the controller is
    recording and the report comes from the recording tab. *)
Lemma handle_report_accepted (sys : System) (r : Report) :
  isRecording (sys_state sys) = true →
  recordingTabId (sys_state sys) = Some (report_tabId r) →
  fst (handle (reportEvent r) sys) =
    {| sys_state :=
         fst (handleRecordAction (report_now r) (report_action r)
                {| sender_tab := Some {| tab_id := report_tabId r; tab_url := EmptyString |};
                   sender_frameId := report_frameId r |} (sys_state sys));
       sys_flows := sys_flows sys |}.
Proof.
  destruct sys as [[rec steps last bound] flows]. simpl. intros -> ->.
  unfold handle, reportEvent, onContentScriptMessage, isRecordingTab. simpl.
  by rewrite Z.eqb_refl.
Qed.

(** Otherwise nothing changes. *)
Lemma handle_report_discarded (sys : System) (r : Report) :
  isRecording (sys_state sys) = false ∨
  recordingTabId (sys_state sys) ≠ Some (report_tabId r) →
  handle (reportEvent r) sys = (sys, []).
Proof.
  intros H. unfold handle, reportEvent, onContentScriptMessage. simpl.
  assert (isRecording (sys_state sys) && isRecordingTab (report_tabId r) (sys_state sys)
          = false) as ->.
  { destruct H as [-> | Hne]; [done |].
    apply andb_false_iff. right. unfold isRecordingTab.
    destruct (recordingTabId (sys_state sys)) as [b |]; [| done].
    apply Z.eqb_neq. congruence. }
  by rewrite system_eta.
Qed.

Lemma handleRecordAction_steps now action sender st :
  recordedSteps (fst (handleRecordAction now action sender st)) =
    recordedSteps st
      ++ (if 100 <? now - lastActionTimestamp st
          then [Wait (now - lastActionTimestamp st)] else [])
      ++ [withFrameId action (sender_frameId sender)].
Proof.
  unfold handleRecordAction. simpl.
  destruct (100 <? now - lastActionTimestamp st); simpl; by rewrite <- ?app_assoc.
Qed.

Lemma notWait_withFrameId action f : notWait (withFrameId action f) = true.
Proof. by destruct action. Qed.

Lemma run_discarded (sys : System) (A : Z) (rs : list Report) :
  recordingTabId (sys_state sys) = Some A →
  Forall (λ r, report_tabId r ≠ A) rs →
  run (map reportEvent rs) sys = sys.
Proof.
  intros Htab Hall. induction Hall as [| r rs Hr _ IH]; [done |].
  cbn [map run]. rewrite handle_report_discarded; [exact IH |].
  right. rewrite Htab. congruence.
Qed.

Lemma run_idle (sys : System) (rs : list Report) :
  isRecording (sys_state sys) = false → run (map reportEvent rs) sys = sys.
Proof.
  intros Hidle. induction rs as [| r rs IH]; [done |].
  cbn [map run]. rewrite handle_report_discarded; [exact IH | by left].
Qed.

Lemma run_bound (rs : list Report) : ∀ (sys : System) (A : Z),
  isRecording (sys_state sys) = true →
  recordingTabId (sys_state sys) = Some A →
  run (map reportEvent rs) sys
    = run (map reportEvent (List.filter (fromTab A) rs)) sys
  ∧ ∃ added,
      recordedSteps (sys_state (run (map reportEvent rs) sys))
        = recordedSteps (sys_state sys) ++ added
      ∧ List.filter notWait added = map reportStep (List.filter (fromTab A) rs).
Proof.
  induction rs as [| r rs IH]; intros sys A Hrec Htab.
  - split; [done |]. exists []. by rewrite app_nil_r.
  - cbn [map run List.filter].
    destruct (Z.eqb_spec (report_tabId r) A) as [HA | HA].
    + assert (Htab' : recordingTabId (sys_state sys) = Some (report_tabId r))
        by (by rewrite HA).
      replace (fromTab A r) with true by (symmetry; apply Z.eqb_eq; exact HA).
      cbn [map run]. rewrite (handle_report_accepted sys r Hrec Htab').
      set (sys1 := {| sys_state := _; sys_flows := _ |}).
      destruct (IH sys1 A) as [Heq (added & Hsteps & Hfilter)]; [done | done |].
      split; [exact Heq |].
      exists ((if 100 <? report_now r - lastActionTimestamp (sys_state sys)
               then [Wait (report_now r - lastActionTimestamp (sys_state sys))] else [])
              ++ [reportStep r] ++ added).
      split.
      * rewrite Hsteps. unfold sys1. cbn [sys_state].
        rewrite handleRecordAction_steps. cbn [sender_frameId].
        unfold reportStep. by rewrite <- !app_assoc.
      * rewrite !List.filter_app, Hfilter. simpl.
        unfold reportStep at 1. rewrite notWait_withFrameId.
        by destruct (100 <? _).
    + rewrite handle_report_discarded; [| right; rewrite Htab; congruence].
      replace (fromTab A r) with false by (symmetry; apply Z.eqb_neq; exact HA).
      cbn [fst]. apply IH; done.
Qed.

(** C3. A [recordAction] report is appended to the recorded steps only
    while the controller is recording and only when it comes from the
    recording tab; any other report is discarded and leaves the whole
    system as it was. So while idle no report is ever appended, and while
    recording on tab [A] any interleaving of reports from [A] and from
    other tabs leaves the same system as the reports of [A] alone: the
    steps appended are the steps of [A]'s reports, in order, with the
    waits synthesized between them. *)
Theorem reports_only_from_recording_tab (sys : System) (A : Z) (rs : list Report) :
  (isRecording (sys_state sys) = false →
     run (map reportEvent rs) sys = sys)
  ∧ (isRecording (sys_state sys) = true →
     recordingTabId (sys_state sys) = Some A →
     run (map reportEvent rs) sys
       = run (map reportEvent (List.filter (fromTab A) rs)) sys
     ∧ ∃ added,
         recordedSteps (sys_state (run (map reportEvent rs) sys))
           = recordedSteps (sys_state sys) ++ added
         ∧ List.filter notWait added = map reportStep (List.filter (fromTab A) rs)).
Proof.
  split.
  - apply run_idle.
  - apply run_bound.
Qed.

Lemma run_app (evs1 evs2 : list Event) (sys : System) :
  run (evs1 ++ evs2) sys = run evs2 (run evs1 sys).
Proof. revert sys. induction evs1 as [| ev evs1 IH]; intros sys; [done | apply IH]. Qed.

(** C2. Two reports accepted one after the other during a recording, at
    times [t0] and [t1] (reports discarded in between do not count):
    when [t1 - t0 > 100] exactly one wait step, of duration [t1 - t0],
    stands between their two steps; when [t1 - t0 <= 100] nothing stands
    between them. *)
Theorem wait_between_consecutive_reports
    (sys : System) (A : Z) (r0 r1 : Report) (mid : list Report) :
  isRecording (sys_state sys) = true →
  recordingTabId (sys_state sys) = Some A →
  report_tabId r0 = A →
  report_tabId r1 = A →
  Forall (λ r, report_tabId r ≠ A) mid →
  ∃ before gap,
    recordedSteps (sys_state (run (map reportEvent (r0 :: mid ++ [r1])) sys))
      = before ++ reportStep r0 :: gap ++ [reportStep r1]
    ∧ (100 < report_now r1 - report_now r0 →
         gap = [Wait (report_now r1 - report_now r0)])
    ∧ (report_now r1 - report_now r0 ≤ 100 → gap = []).
Proof.
  intros Hrec Htab H0 H1 Hmid.
  assert (Htab0 : recordingTabId (sys_state sys) = Some (report_tabId r0))
    by (by rewrite H0).
  cbn [map run]. rewrite (handle_report_accepted sys r0 Hrec Htab0).
  set (sys0 := {| sys_state := _; sys_flows := _ |}).
  assert (Hrec0 : isRecording (sys_state sys0) = true) by exact Hrec.
  assert (HtabA : recordingTabId (sys_state sys0) = Some A) by exact Htab.
  assert (Hlast0 : lastActionTimestamp (sys_state sys0) = report_now r0) by done.
  rewrite map_app, run_app, (run_discarded sys0 A mid HtabA Hmid).
  assert (Htab1 : recordingTabId (sys_state sys0) = Some (report_tabId r1))
    by (by rewrite H1).
  cbn [map run]. rewrite (handle_report_accepted sys0 r1 Hrec0 Htab1).
  cbn [sys_state]. rewrite handleRecordAction_steps, Hlast0.
  unfold sys0 at 1. cbn [sys_state]. rewrite handleRecordAction_steps.
  cbn [sender_frameId]. fold (reportStep r0). fold (reportStep r1).
  exists (recordedSteps (sys_state sys)
          ++ (if 100 <? report_now r0 - lastActionTimestamp (sys_state sys)
              then [Wait (report_now r0 - lastActionTimestamp (sys_state sys))]
              else [])),
    (if 100 <? report_now r1 - report_now r0
     then [Wait (report_now r1 - report_now r0)] else []).
  split.
  - by rewrite <- !app_assoc.
  - split; intros Hgap.
    + by apply Z.ltb_lt in Hgap as ->.
    + by apply Z.ltb_ge in Hgap as ->.
Qed.

(** The sample recording: a click at once, a stray click from another
    tab, and a change 350ms after the first click. *)
Example sample_recording :
  recordedSteps (sys_state
    (run (map reportEvent [clickSubmit; strayClick; changeName]) recordingOn7))
  = [Goto "https://x/form" (Some 0); Click "#submit" "Submit" (Some 0);
     Wait 350; Change "#name" "Ada" (Some 2)].
Proof. reflexivity. Qed.

Lemma wait_between_consecutive_reports_witness :
  ∃ before gap,
    recordedSteps (sys_state
      (run (map reportEvent (clickSubmit :: [strayClick] ++ [changeName])) recordingOn7))
      = before ++ reportStep clickSubmit :: gap ++ [reportStep changeName]
    ∧ (100 < report_now changeName - report_now clickSubmit →
         gap = [Wait (report_now changeName - report_now clickSubmit)])
    ∧ (report_now changeName - report_now clickSubmit ≤ 100 → gap = []).
Proof.
  apply (wait_between_consecutive_reports recordingOn7 7 clickSubmit changeName
           [strayClick]).
  - reflexivity.
  - reflexivity.
  - reflexivity.
  - reflexivity.
  - repeat constructor. simpl. lia.
Defined.

Lemma reports_only_from_recording_tab_witness :
  run (map reportEvent [clickSubmit; strayClick; changeName]) idleSystem = idleSystem
  ∧ run (map reportEvent [clickSubmit; strayClick; changeName]) recordingOn7
      = run (map reportEvent
               (List.filter (fromTab 7) [clickSubmit; strayClick; changeName]))
          recordingOn7
  ∧ ∃ added,
      recordedSteps (sys_state
        (run (map reportEvent [clickSubmit; strayClick; changeName]) recordingOn7))
        = recordedSteps (sys_state recordingOn7) ++ added
      ∧ List.filter notWait added
        = map reportStep (List.filter (fromTab 7) [clickSubmit; strayClick; changeName]).
Proof.
  split.
  - apply (proj1 (reports_only_from_recording_tab idleSystem 7
                    [clickSubmit; strayClick; changeName])).
    reflexivity.
  - apply (proj2 (reports_only_from_recording_tab recordingOn7 7
                    [clickSubmit; strayClick; changeName])).
    + reflexivity.
    + reflexivity.
Defined.

End BackgroundFacts.

(** ** Recording controller: handlers that overlap *)

Module InterleavingFacts.

Import Background Interleaving.

Lemma setProperty_other (name m : string) (steps : list Step) (flows : FlowStore) :
  m ≠ name → setProperty name steps flows !! m = flows !! m.
Proof.
  intros Hne. unfold setProperty.
  destruct (flows !! name); [| destruct (String.eqb name "__proto__")]; try done;
    by rewrite lookup_insert_ne.
Qed.

Lemma setProperty_own (name : string) (steps : list Step) (flows : FlowStore) :
  name ≠ "__proto__" → setProperty name steps flows !! name = Some steps.
Proof.
  intros Hne. unfold setProperty.
  destruct (flows !! name); [apply lookup_insert_eq |].
  destruct (String.eqb_spec name "__proto__"); [done | apply lookup_insert_eq].
Qed.

Lemma setProperty_lookup (name m : string) (steps old : list Step) (flows : FlowStore) :
  setProperty name steps flows !! m = Some old → old = steps ∨ flows !! m = Some old.
Proof.
  destruct (decide (m = name)) as [-> | Hne].
  - unfold setProperty. destruct (flows !! name) eqn:Hown.
    + rewrite lookup_insert_eq. intros [= <-]. by left.
    + destruct (String.eqb name "__proto__").
      * rewrite Hown. discriminate.
      * rewrite lookup_insert_eq. intros [= <-]. by left.
  - rewrite setProperty_other by done. by right.
Qed.

(** An event that is not handed to an [async] handler leaves the store
    as it is. *)
Lemma deliver_flows (ev : Event) (wk : Worker) :
  flowsOf (fst (deliver ev wk)) = flowsOf wk.
Proof.
  destruct wk as [[st flows] tasks]. unfold flowsOf.
  destruct ev as [now tab request [[t |] f] | tabId |]; cbn [deliver handle sender_tab].
  - unfold onContentScriptMessage, onSidePanelMessage. cbn [sender_tab worker_sys sys_state].
    destruct request; try done.
    by destruct (isRecording st && isRecordingTab (tab_id t) st).
  - unfold onContentScriptMessage, onSidePanelMessage.
    cbn [sender_tab worker_sys sys_state sys_flows].
    destruct request; try done.
    + by destruct (isRecording st).
    + by destruct (isRecording st).
  - cbn [worker_sys sys_state]. by destruct (isRecordingTab tabId st).
  - done.
Qed.

Lemma deliver_tasks (ev : Event) (wk : Worker) :
  worker_tasks (fst (deliver ev wk)) = worker_tasks wk
  ∨ ∃ t, worker_tasks (fst (deliver ev wk)) = worker_tasks wk ++ [t]
         ∧ (t = StartQuerying ∨ (∃ n, t = SaveLoading n None) ∨ ∃ n, t = DeleteLoading n None).
Proof.
  destruct wk as [[st flows] tasks].
  destruct ev as [now tab request [[t |] f] | tabId |]; cbn [deliver handle sender_tab].
  - left. unfold onContentScriptMessage, onSidePanelMessage.
    cbn [sender_tab worker_sys sys_state].
    destruct request; try done.
    by destruct (isRecording st && isRecordingTab (tab_id t) st).
  - unfold onContentScriptMessage, onSidePanelMessage.
    cbn [sender_tab worker_sys sys_state sys_flows].
    destruct request; try (by left).
    + destruct (isRecording st); [by left |]. right. eexists. split; [reflexivity |]. by left.
    + destruct (isRecording st); [| by left]. right. eexists. split; [reflexivity |].
      right. left. by eexists.
    + right. eexists. split; [reflexivity |]. right. right. by eexists.
  - left. cbn [worker_sys sys_state]. by destruct (isRecordingTab tabId st).
  - by left.
Qed.

(** A report from a content script is handled in one go whatever is
    suspended: its listener calls no [async] handler. *)
Lemma deliver_report (r : Report) (wk : Worker) :
  deliver (reportEvent r) wk
  = ({| worker_sys := fst (handle (reportEvent r) (worker_sys wk));
        worker_tasks := worker_tasks wk |},
     snd (handle (reportEvent r) (worker_sys wk))).
Proof.
  unfold reportEvent. cbn [deliver sender_tab].
  by destruct (handle _ (worker_sys wk)).
Qed.

(** A move of another handler, or the arrival of an event, leaves a
    suspended handler where it stands. *)
Lemma step_elsewhere (move : Move) (wk : Worker) (i : nat) (t : Task) :
  elsewhere i move →
  worker_tasks wk !! i = Some t →
  worker_tasks (fst (step move wk)) !! i = Some t.
Proof.
  intros Hother Hi. destruct move as [ev | j | j now tab]; cbn [step fst elsewhere] in *.
  - destruct (deliver_tasks ev wk) as [-> | (t' & -> & _)]; [done |].
    by apply lookup_app_l_Some.
  - unfold storage.
    destruct (worker_tasks wk !! j) as [[| n [l |] | n l [|] | n [l |] | n l [|] |] |];
      cbn [setTask worker_tasks]; try done; by rewrite list_lookup_insert_ne.
  - unfold resume.
    destruct (worker_tasks wk !! j) as [[| n [l |] | n l [|] | n [l |] | n l [|] |] |];
      try destruct (startRecordingOn _ _ _); try destruct (resetState _);
      cbn [setTask worker_tasks fst]; try done; by rewrite list_lookup_insert_ne.
Qed.

Lemma moves_elsewhere (ms : list Move) : ∀ (wk : Worker) (i : nat) (t : Task),
  Forall (elsewhere i) ms →
  worker_tasks wk !! i = Some t →
  worker_tasks (moves ms wk) !! i = Some t.
Proof.
  induction ms as [| move ms IH]; intros wk i t Hall Hi; [exact Hi |].
  inversion Hall as [| ? ? Hmove Hrest]; subst. cbn [moves].
  apply IH; [exact Hrest |]. by apply step_elsewhere.
Qed.

Lemma lookup_insert_same (tasks : list Task) (i : nat) (t t' : Task) :
  tasks !! i = Some t → <[i := t']> tasks !! i = Some t'.
Proof.
  intros Hi. apply list_lookup_insert_eq. by eapply lookup_lt_Some.
Qed.

(** The store changes at the write of a save or delete handler, and at
    no other move. *)
Lemma store_changes_at_writes (move : Move) (wk : Worker) :
  flowsOf (fst (step move wk)) ≠ flowsOf wk →
  ∃ i name savedFlows,
    move = Storage i
    ∧ (worker_tasks wk !! i = Some (SaveStoring name savedFlows false)
       ∨ worker_tasks wk !! i = Some (DeleteStoring name savedFlows false))
    ∧ flowsOf (fst (step move wk)) = savedFlows.
Proof.
  destruct move as [ev | i | i now tab]; cbn [step fst].
  - by rewrite deliver_flows.
  - unfold storage.
    destruct (worker_tasks wk !! i) as [[| n [l |] | n l [|] | n [l |] | n l [|] |] |] eqn:Hi;
      try done; intros _; exists i, n, l; repeat split; auto.
  - unfold resume.
    destruct (worker_tasks wk !! i) as [[| n [l |] | n l [|] | n [l |] | n l [|] |] |];
      try destruct (startRecordingOn _ _ _); try destruct (resetState _); done.
Qed.

(** A save handler from its read to its write. *)
Lemma save_writes_what_it_read
    (i : nat) (n : string) (wk0 : Worker) (ms1 ms2 : list Move)
    (now : Z) (tab : option Tab) :
  worker_tasks wk0 !! i = Some (SaveLoading n None) →
  Forall (elsewhere i) ms1 → Forall (elsewhere i) ms2 →
  let wk1 := moves ms1 (fst (step (Storage i) wk0)) in
  let wk2 := moves ms2 (fst (step (Resume i now tab) wk1)) in
  worker_tasks wk2 !! i
    = Some (SaveStoring n (setProperty n (recordedSteps (stateOf wk1)) (flowsOf wk0)) false)
  ∧ flowsOf (fst (step (Storage i) wk2))
    = setProperty n (recordedSteps (stateOf wk1)) (flowsOf wk0)
  ∧ worker_tasks (fst (step (Storage i) wk2)) !! i
    = Some (SaveStoring n (setProperty n (recordedSteps (stateOf wk1)) (flowsOf wk0)) true).
Proof.
  intros Hi H1 H2 wk1 wk2.
  assert (Hread : worker_tasks wk1 !! i = Some (SaveLoading n (Some (flowsOf wk0)))).
  { apply moves_elsewhere; [exact H1 |]. cbn [step fst]. unfold storage. rewrite Hi.
    cbn [setTask worker_tasks]. by eapply lookup_insert_same. }
  assert (Hset : worker_tasks wk2 !! i
            = Some (SaveStoring n (setProperty n (recordedSteps (stateOf wk1)) (flowsOf wk0))
                      false)).
  { apply moves_elsewhere; [exact H2 |]. cbn [step fst]. unfold resume. rewrite Hread.
    cbn [setTask worker_tasks fst]. by eapply lookup_insert_same. }
  split; [exact Hset |]. cbn [step fst]. unfold storage. rewrite Hset.
  split; [reflexivity |]. cbn [worker_tasks]. by eapply lookup_insert_same.
Qed.

(** A delete handler from its read to its write. *)
Lemma delete_writes_what_it_read
    (i : nat) (n : string) (wk0 : Worker) (ms1 ms2 : list Move)
    (now : Z) (tab : option Tab) :
  worker_tasks wk0 !! i = Some (DeleteLoading n None) →
  Forall (elsewhere i) ms1 → Forall (elsewhere i) ms2 →
  let wk1 := moves ms1 (fst (step (Storage i) wk0)) in
  let wk2 := moves ms2 (fst (step (Resume i now tab) wk1)) in
  worker_tasks wk2 !! i = Some (DeleteStoring n (delete n (flowsOf wk0)) false)
  ∧ flowsOf (fst (step (Storage i) wk2)) = delete n (flowsOf wk0)
  ∧ worker_tasks (fst (step (Storage i) wk2)) !! i
    = Some (DeleteStoring n (delete n (flowsOf wk0)) true).
Proof.
  intros Hi H1 H2 wk1 wk2.
  assert (Hread : worker_tasks wk1 !! i = Some (DeleteLoading n (Some (flowsOf wk0)))).
  { apply moves_elsewhere; [exact H1 |]. cbn [step fst]. unfold storage. rewrite Hi.
    cbn [setTask worker_tasks]. by eapply lookup_insert_same. }
  assert (Hset : worker_tasks wk2 !! i = Some (DeleteStoring n (delete n (flowsOf wk0)) false)).
  { apply moves_elsewhere; [exact H2 |]. cbn [step fst]. unfold resume. rewrite Hread.
    cbn [setTask worker_tasks fst]. by eapply lookup_insert_same. }
  split; [exact Hset |]. cbn [step fst]. unfold storage. rewrite Hset.
  split; [reflexivity |]. cbn [worker_tasks]. by eapply lookup_insert_same.
Qed.

Lemma lookup_last (earlier : list Task) (t : Task) :
  (earlier ++ [t]) !! length earlier = Some t.
Proof. induction earlier as [| t0 earlier IH]; [done | exact IH]. Qed.

Lemma insert_last (earlier : list Task) (t t' : Task) :
  <[length earlier := t']> (earlier ++ [t]) = earlier ++ [t'].
Proof. rewrite insert_app_r_alt by done. by rewrite Nat.sub_diag. Qed.

Lemma storage_nothing (i : nat) (wk : Worker) :
  worker_tasks wk !! i = None → storage i wk = wk.
Proof. intros Hi. unfold storage. by rewrite Hi. Qed.

Lemma resume_nothing (i : nat) (now : Z) (tab : option Tab) (wk : Worker) :
  worker_tasks wk !! i = None → resume i now tab wk = (wk, []).
Proof. intros Hi. unfold resume. by rewrite Hi. Qed.

(** [Background.handle] is the schedule in which the handler an event
    starts runs all its segments before anything else happens. *)
Lemma handle_is_uninterrupted_schedule (ev : Event) (sys : System) (earlier : list Task) :
  worker_sys (moves (uninterrupted (length earlier) ev)
                {| worker_sys := sys; worker_tasks := earlier |})
  = fst (handle ev sys).
Proof.
  destruct sys as [st flows].
  destruct ev as [now tab request [[t |] f] | tabId |];
    cbn [uninterrupted sender_tab moves step fst deliver].
  - by destruct (handle _ _).
  - destruct request as [a | | name | | name | name | name | | ty];
      cbn [moves step fst deliver sender_tab worker_sys sys_state];
      try (by destruct (handle _ _));
      cbn [handle]; unfold onContentScriptMessage, onSidePanelMessage;
      cbn [sender_tab fst snd sys_state sys_flows].
    + unfold handleStartRecording. destruct (isRecording st) eqn:Hrec.
      * rewrite resume_nothing; [done |]. by apply lookup_ge_None_2.
      * unfold resume, spawn. cbn [worker_tasks worker_sys sys_state sys_flows].
        rewrite lookup_last. by destruct (startRecordingOn now tab st).
    + unfold handleStopRecordingAndSave. destruct (isRecording st) eqn:Hrec; cbn [negb].
      * unfold storage, resume, spawn, setTask.
        cbn [worker_tasks worker_sys sys_state sys_flows fst].
        rewrite lookup_last. cbn [worker_tasks worker_sys sys_state sys_flows fst].
        rewrite insert_last, lookup_last.
        cbn [worker_tasks worker_sys sys_state sys_flows fst].
        rewrite insert_last, lookup_last.
        cbn [worker_tasks worker_sys sys_state sys_flows fst].
        rewrite insert_last, lookup_last. reflexivity.
      * assert (Hnone : earlier !! length earlier = None) by (by apply lookup_ge_None_2).
        rewrite !storage_nothing, !resume_nothing; cbn [fst];
          rewrite ?storage_nothing, ?resume_nothing; done.
    + unfold handleDeleteFlow, storage, resume, spawn, setTask.
      cbn [worker_tasks worker_sys sys_state sys_flows fst].
      rewrite lookup_last. cbn [worker_tasks worker_sys sys_state sys_flows fst].
      rewrite insert_last, lookup_last.
      cbn [worker_tasks worker_sys sys_state sys_flows fst].
      rewrite insert_last, lookup_last.
      cbn [worker_tasks worker_sys sys_state sys_flows fst].
      rewrite insert_last, lookup_last. reflexivity.
  - by destruct (handle _ _).
  - by destruct (handle _ _).
Qed.

(** C9, as the script has it. The store changes only when
    [chrome.storage] carries out the write of a save or delete handler,
    and that write replaces the whole store by the object the handler
    had read, with the handler's own name changed: set to the steps
    recorded at the moment the handler resumed after its read (save), or
    removed (delete). Whatever else happens in between, after a
    handler's write every other name holds what the handler had read.
    So when no other write has changed the store between the handler's
    read and its write, a save under [n] replaces the steps stored
    under [n] and leaves every other name as it was, a delete of [n]
    leaves every other name as it was, and a delete of a name that is
    not stored leaves the whole store as it was; the handler then ends
    as usual, announcing [flowsUpdated]. *)
Theorem flow_store_changes_only_by_save_or_delete :
  (∀ (move : Move) (wk : Worker),
     flowsOf (fst (step move wk)) ≠ flowsOf wk →
     ∃ i name savedFlows,
       move = Storage i
       ∧ (worker_tasks wk !! i = Some (SaveStoring name savedFlows false)
          ∨ worker_tasks wk !! i = Some (DeleteStoring name savedFlows false))
       ∧ flowsOf (fst (step move wk)) = savedFlows)
  ∧ (∀ (i : nat) (n : string) (wk0 : Worker) (ms1 ms2 : list Move)
       (now : Z) (tab : option Tab),
       worker_tasks wk0 !! i = Some (SaveLoading n None) →
       Forall (elsewhere i) ms1 → Forall (elsewhere i) ms2 →
       let wk1 := moves ms1 (fst (step (Storage i) wk0)) in
       let wk2 := moves ms2 (fst (step (Resume i now tab) wk1)) in
       let wk3 := fst (step (Storage i) wk2) in
       (n ≠ "__proto__" → flowsOf wk3 !! n = Some (recordedSteps (stateOf wk1)))
       ∧ (∀ m, m ≠ n → flowsOf wk3 !! m = flowsOf wk0 !! m)
       ∧ (flowsOf wk2 = flowsOf wk0 →
          ∀ m, m ≠ n → flowsOf wk3 !! m = flowsOf wk2 !! m))
  ∧ (∀ (i : nat) (n : string) (wk0 : Worker) (ms1 ms2 ms3 : list Move)
       (now now' : Z) (tab tab' : option Tab),
       worker_tasks wk0 !! i = Some (DeleteLoading n None) →
       Forall (elsewhere i) ms1 → Forall (elsewhere i) ms2 → Forall (elsewhere i) ms3 →
       let wk1 := moves ms1 (fst (step (Storage i) wk0)) in
       let wk2 := moves ms2 (fst (step (Resume i now tab) wk1)) in
       let wk3 := fst (step (Storage i) wk2) in
       let wk4 := moves ms3 wk3 in
       flowsOf wk3 !! n = None
       ∧ (∀ m, m ≠ n → flowsOf wk3 !! m = flowsOf wk0 !! m)
       ∧ (flowsOf wk2 = flowsOf wk0 →
          (∀ m, m ≠ n → flowsOf wk3 !! m = flowsOf wk2 !! m)
          ∧ (flowsOf wk0 !! n = None → flowsOf wk3 = flowsOf wk2))
       ∧ snd (step (Resume i now' tab') wk4) = [flowsUpdated]
       ∧ flowsOf (fst (step (Resume i now' tab') wk4)) = flowsOf wk4).
Proof.
  split; [exact store_changes_at_writes |]. split.
  - intros i n wk0 ms1 ms2 now tab Hi H1 H2 wk1 wk2 wk3.
    destruct (save_writes_what_it_read i n wk0 ms1 ms2 now tab Hi H1 H2)
      as (_ & Hwrite & _).
    fold wk1 wk2 in Hwrite. fold wk3 in Hwrite. rewrite Hwrite.
    split; [apply setProperty_own |].
    split; [intros m Hm; by apply setProperty_other |].
    intros -> m Hm. by apply setProperty_other.
  - intros i n wk0 ms1 ms2 ms3 now now' tab tab' Hi H1 H2 H3 wk1 wk2 wk3 wk4.
    destruct (delete_writes_what_it_read i n wk0 ms1 ms2 now tab Hi H1 H2)
      as (_ & Hwrite & Hdone).
    fold wk1 wk2 in Hwrite, Hdone. fold wk3 in Hwrite, Hdone. rewrite Hwrite.
    split; [apply lookup_delete_eq |].
    split; [intros m Hm; by apply lookup_delete_ne |].
    split.
    + intros ->. split; [intros m Hm; by apply lookup_delete_ne |].
      intros Habsent. by apply delete_id.
    + assert (Hi4 : worker_tasks wk4 !! i
                = Some (DeleteStoring n (delete n (flowsOf wk0)) true))
        by (by apply moves_elsewhere).
      cbn [step]. unfold resume. rewrite Hi4. split; reflexivity.
Qed.

(** C9 as stated fails when a save and a delete overlap. The recording
    is saved under [login] while [old] is being deleted: both handlers
    read the store before either writes. The save's write stores
    [login]; the delete's write, which comes last, puts the store back
    to what the delete had read, without [old]: the delete of [old] has
    removed [login]. *)
Lemma overlapping_delete_undoes_save :
  let before := moves (take 7 overlappingSaveAndDelete) recordingWorker in
  let after := moves overlappingSaveAndDelete recordingWorker in
  flowsOf before !! "login" = Some (recordedSteps (sys_state recordingOn7))
  ∧ after = fst (step (Storage 1) before)
  ∧ worker_tasks before !! 1%nat = Some (DeleteStoring "old" ∅ false)
  ∧ flowsOf after !! "login" = None.
Proof. vm_compute. repeat split. Qed.

Lemma flow_store_changes_only_by_save_or_delete_witness :
  let wk0 := fst (step (Deliver (Message 2000 None (stopRecordingAndSave "login") (panel 0)))
                    recordingWorker) in
  let wk1 := moves [Deliver (reportEvent clickSubmit)] (fst (step (Storage 0) wk0)) in
  let wk2 := moves [] (fst (step (Resume 0 2020 None) wk1)) in
  let wk3 := fst (step (Storage 0) wk2) in
  flowsOf wk3 !! "login" = Some (recordedSteps (stateOf wk1))
  ∧ (∀ m, m ≠ "login" → flowsOf wk3 !! m = flowsOf wk0 !! m)
  ∧ (flowsOf wk2 = flowsOf wk0 → ∀ m, m ≠ "login" → flowsOf wk3 !! m = flowsOf wk2 !! m).
Proof.
  intros wk0 wk1 wk2 wk3.
  destruct (proj1 (proj2 flow_store_changes_only_by_save_or_delete) 0%nat "login" wk0
              [Deliver (reportEvent clickSubmit)] [] 2020 None)
    as (Hown & Hothers & Hquiet).
  - reflexivity.
  - repeat constructor.
  - constructor.
  - split; [apply Hown; discriminate |]. split; [exact Hothers | exact Hquiet].
Defined.

End InterleavingFacts.

(** ** Replay orchestrator *)

Module OrchestratorFacts.

Import Background Orchestrator.

Section Browser.

Variable World : Type.
Variable tabs_create : string → World → World * option Z.
Variable injectReplayScript : Z → World → World * bool.
Variable tabs_sendMessage : Z → Step → Z → World → World * Dispatch.
Variable delay : Z → World → World.
Variable injectAlert : Z → list string → World → World.

Local Abbreviation updatedListener :=
  (updatedListener World injectReplayScript tabs_sendMessage delay injectAlert).
Local Abbreviation replayLoop :=
  (replayLoop World tabs_sendMessage delay injectAlert).
Local Abbreviation handleRunFlow := (handleRunFlow World tabs_create).

(** The loop body when the dispatch of a step that is not a wait fails. *)
Lemma replayLoop_failure tab step rest w w1 d msg :
  isWait step = false →
  tabs_sendMessage tab step (frameIdOrZero step) w = (w1, d) →
  caughtError d = Some msg →
  replayLoop tab (step :: rest) w =
    (injectAlert tab [msg] w1,
     [LogStep "Orchestrating step:" step;
      SendExecuteSingleStep tab step (frameIdOrZero step);
      Log ("Failed to send message to frame or it failed. Error: " +:+ msg);
      Log "Stopping flow due to error.";
      AlertFailure tab [msg]],
     Aborted step msg).
Proof.
  intros Hw Hsend Hd.
  destruct step; try discriminate Hw; cbn [Orchestrator.replayLoop];
    rewrite Hsend, Hd; reflexivity.
Qed.

(** The loop body when it does not. *)
Lemma replayLoop_success tab step rest w w1 d :
  isWait step = false →
  tabs_sendMessage tab step (frameIdOrZero step) w = (w1, d) →
  caughtError d = None →
  replayLoop tab (step :: rest) w =
    (let '(w3, tr, res) := replayLoop tab rest (delay 500 w1) in
     (w3,
      LogStep "Orchestrating step:" step
        :: SendExecuteSingleStep tab step (frameIdOrZero step)
        :: Log "Waiting 500ms for page to stabilize..."
        :: Delay 500 :: tr,
      res)).
Proof.
  intros Hw Hsend Hd.
  destruct step; try discriminate Hw; cbn [Orchestrator.replayLoop];
    rewrite Hsend, Hd; reflexivity.
Qed.

Lemma replayLoop_wait tab duration rest w :
  replayLoop tab (Wait duration :: rest) w =
    (let '(w2, tr, res) := replayLoop tab rest (delay duration w) in
     (w2, LogStep "Orchestrating step:" (Wait duration) :: Delay duration :: tr, res)).
Proof. reflexivity. Qed.

(** A prefix that runs to its end hands over to the rest. *)
Lemma replayLoop_app tab rest pre : ∀ w w1 tr1,
  replayLoop tab pre w = (w1, tr1, Finished) →
  replayLoop tab (pre ++ rest) w =
    (let '(w2, tr2, res) := replayLoop tab rest w1 in (w2, tr1 ++ tr2, res)).
Proof.
  induction pre as [| step pre IH]; intros w w1 tr1 Hpre.
  - cbn in Hpre. injection Hpre as <- <-. cbn [app].
    by destruct (replayLoop tab rest w) as [[w2 tr2] res].
  - rewrite <- app_comm_cons.
    destruct (isWait step) eqn:Hw.
    + destruct step; try discriminate Hw.
      rewrite replayLoop_wait in Hpre. rewrite replayLoop_wait.
      destruct (replayLoop tab pre (delay duration w)) as [[w' tr'] res'] eqn:Hrest.
      injection Hpre as <- <- ->.
      rewrite (IH _ _ _ Hrest).
      by destruct (replayLoop tab rest w') as [[w2 tr2] res].
    + destruct (tabs_sendMessage tab step (frameIdOrZero step) w) as [wa d] eqn:Hsend.
      destruct (caughtError d) as [msg |] eqn:Hd.
      * rewrite (replayLoop_failure _ _ _ _ _ _ _ Hw Hsend Hd) in Hpre. discriminate Hpre.
      * rewrite (replayLoop_success _ _ _ _ _ _ Hw Hsend Hd) in Hpre.
        rewrite (replayLoop_success _ _ _ _ _ _ Hw Hsend Hd).
        destruct (replayLoop tab pre (delay 500 wa)) as [[w' tr'] res'] eqn:Hrest.
        injection Hpre as <- <- ->.
        rewrite (IH _ _ _ Hrest).
        by destruct (replayLoop tab rest w') as [[w2 tr2] res].
Qed.

(** A run that reaches its end has reported no failure. *)
Lemma finished_no_failure tab steps : ∀ w w1 tr,
  replayLoop tab steps w = (w1, tr, Finished) → failureAlerts tr = [].
Proof.
  induction steps as [| step steps IH]; intros w w1 tr Hrun.
  - cbn in Hrun. by injection Hrun as <- <-.
  - destruct (isWait step) eqn:Hw.
    + destruct step; try discriminate Hw. rewrite replayLoop_wait in Hrun.
      destruct (replayLoop tab steps (delay duration w)) as [[w' tr'] res'] eqn:Hrest.
      injection Hrun as <- <- ->. cbn. exact (IH _ _ _ Hrest).
    + destruct (tabs_sendMessage tab step (frameIdOrZero step) w) as [wa d] eqn:Hsend.
      destruct (caughtError d) as [msg |] eqn:Hd.
      * rewrite (replayLoop_failure _ _ _ _ _ _ _ Hw Hsend Hd) in Hrun. discriminate Hrun.
      * rewrite (replayLoop_success _ _ _ _ _ _ Hw Hsend Hd) in Hrun.
        destruct (replayLoop tab steps (delay 500 wa)) as [[w' tr'] res'] eqn:Hrest.
        injection Hrun as <- <- ->. cbn. exact (IH _ _ _ Hrest).
Qed.

Lemma dispatched_app tr1 tr2 : dispatched (tr1 ++ tr2) = dispatched tr1 ++ dispatched tr2.
Proof. apply omap_app. Qed.

Lemma failureAlerts_app tr1 tr2 :
  failureAlerts (tr1 ++ tr2) = failureAlerts tr1 ++ failureAlerts tr2.
Proof. apply omap_app. Qed.

(** C1, as the script has it. When the steps before step [k] have all
    been executed and the execution of [k] fails (the dispatch to its
    frame throws, or the frame executor replies with status [error]),
    the loop stops there: whatever follows [k] in the flow, the trace is
    that of the steps before [k] followed by the dispatch of [k] and one
    injection of the failure function, so no later step is dispatched,
    and the listener that drives the loop adds nothing after it. The
    injection carries the reason as its only argument and nothing of
    the step. In the page the function reads [step] from the scope it
    runs in: where no [step] is bound, as in the world the replay script
    has set up, it throws before calling [alert] and the user sees no
    report; where one is bound, the text shows that value, whatever the
    step that failed. *)
Theorem failure_alert_does_not_carry_the_step
    (tab : Z) (pre : list Step) (k : Step) (post : list Step)
    (w w1 w2 : World) (tr1 : list Effect) (d : Dispatch) (msg : string) :
  replayLoop tab pre w = (w1, tr1, Finished) →
  isWait k = false →
  tabs_sendMessage tab k (frameIdOrZero k) w1 = (w2, d) →
  (d = Threw msg
   ∨ ∃ m, d = Returned (ReplyObject "error" m) ∧ msg = default EmptyString m) →
  ∃ tr,
    replayLoop tab (pre ++ k :: post) w = (injectAlert tab [msg] w2, tr, Aborted k msg)
    ∧ tr = tr1 ++
        [LogStep "Orchestrating step:" k;
         SendExecuteSingleStep tab k (frameIdOrZero k);
         Log ("Failed to send message to frame or it failed. Error: " +:+ msg);
         Log "Stopping flow due to error.";
         AlertFailure tab [msg]]
    ∧ dispatched tr = dispatched tr1 ++ [k]
    ∧ failureAlerts tr = [[msg]]
    ∧ (∀ args, In args (failureAlerts tr) →
         failureAlertFunction replayScriptScope args = None
         ∧ (∀ scope, scope "step" = None → failureAlertFunction scope args = None)
         ∧ (∀ scope json, scope "step" = Some json →
              failureAlertFunction scope args
                = Some ("Replay failed at step: " +:+ json +:+ newline
                          +:+ "Error: " +:+ msg)))
    ∧ ∀ first w0,
        injectReplayScript tab w0 = (w, true) →
        updatedListener tab (first :: pre ++ k :: post) tab true w0 =
          (injectAlert tab [msg] w2,
           [RemoveUpdatedListener tab;
            Log ("Tab " +:+ pretty tab
                   +:+ " loaded. Injecting replay script into all frames.");
            InjectReplayScript tab;
            Log "Replay script injected. Starting step-by-step execution."] ++ tr,
           false).
Proof.
  intros Hpre Hw Hsend Hfail.
  assert (Hd : caughtError d = Some msg).
  { destruct Hfail as [-> | (m & -> & ->)]; reflexivity. }
  pose proof (replayLoop_app tab (k :: post) pre w w1 tr1 Hpre) as Hrun.
  rewrite (replayLoop_failure tab k post w1 w2 d msg Hw Hsend Hd) in Hrun.
  eexists. split; [exact Hrun |]. split; [reflexivity |].
  assert (Halerts : failureAlerts (tr1 ++
            [LogStep "Orchestrating step:" k;
             SendExecuteSingleStep tab k (frameIdOrZero k);
             Log ("Failed to send message to frame or it failed. Error: " +:+ msg);
             Log "Stopping flow due to error.";
             AlertFailure tab [msg]]) = [[msg]]).
  { rewrite failureAlerts_app, (finished_no_failure tab pre w w1 tr1 Hpre). reflexivity. }
  split; [| split; [exact Halerts | split]].
  - rewrite dispatched_app. reflexivity.
  - rewrite Halerts. intros args [<- | []]. split; [reflexivity |]. split.
    + intros scope Hnone. unfold failureAlertFunction. by rewrite Hnone.
    + intros scope json Hsome. unfold failureAlertFunction. by rewrite Hsome.
  - intros first w0 Hinject. unfold Orchestrator.updatedListener.
    rewrite Z.eqb_refl, Hinject. cbn [andb skipn]. unfold drop. rewrite Hrun. reflexivity.
Qed.

(** C10. A dispatch that completes without a response object counts as
    a success: the orchestrator waits 500ms and goes on with the next
    step. The same holds for every dispatch that neither throws nor
    returns an object with status [error]; a dispatch that throws, or
    returns an object with status [error], aborts the run at that step. *)
Theorem undefined_reply_is_success
    (tab : Z) (k : Step) (rest : list Step) (w w1 : World) (d : Dispatch) :
  isWait k = false →
  tabs_sendMessage tab k (frameIdOrZero k) w = (w1, d) →
  let continue :=
    (let '(w3, tr, res) := replayLoop tab rest (delay 500 w1) in
     (w3,
      LogStep "Orchestrating step:" k
        :: SendExecuteSingleStep tab k (frameIdOrZero k)
        :: Log "Waiting 500ms for page to stabilize..."
        :: Delay 500 :: tr,
      res)) in
  (d = Returned NoReply → replayLoop tab (k :: rest) w = continue)
  ∧ ((∀ m, d ≠ Threw m) → (∀ m, d ≠ Returned (ReplyObject "error" m)) →
     replayLoop tab (k :: rest) w = continue)
  ∧ ((∃ m, d = Threw m) ∨ (∃ m, d = Returned (ReplyObject "error" m)) →
     ∃ w' tr msg,
       replayLoop tab (k :: rest) w = (w', tr, Aborted k msg) ∧ dispatched tr = [k]).
Proof.
  intros Hw Hsend continue. split; [| split].
  - intros ->. exact (replayLoop_success tab k rest w w1 _ Hw Hsend eq_refl).
  - intros Hthrew Herror. apply (replayLoop_success tab k rest w w1 d Hw Hsend).
    destruct d as [m | [| status m]]; [by destruct (Hthrew m) | reflexivity |].
    cbn. destruct (String.eqb_spec status "error") as [-> | _]; [| reflexivity].
    by destruct (Herror m).
  - intros Hfail.
    assert (∃ msg, caughtError d = Some msg) as [msg Hd].
    { destruct Hfail as [[m ->] | [m ->]]; eexists; reflexivity. }
    eexists _, _, msg. split.
    + exact (replayLoop_failure tab k rest w w1 d msg Hw Hsend Hd).
    + reflexivity.
Qed.

(** C6, as the script has it. Running a flow that is stored with no
    steps, or whose first step is not a goto, or a name that is neither
    stored nor inherited from [Object.prototype], logs an error and does
    nothing else: the browser is left as it was, no page is opened, no
    listener is registered and no step is dispatched. The same goes for
    an inherited name whose value has length [0], such as [toString].
    For any other inherited name that is not stored, such as
    [constructor] or [__proto__], the handler logs no error: it throws
    a TypeError while reading the type of a first step that is not
    there. No page is opened and no step is dispatched in that case
    either. *)
Theorem run_of_inherited_name_throws
    (flowName : string) (flows : gmap string (list Step)) (w : World) :
  (flows !! flowName = None →
   ∀ len, inheritedLength flowName = Some len → len ≠ Some 0%nat →
     handleRunFlow flowName flows w =
       (w, [Log ("Attempting to run flow: " +:+ dquote +:+ flowName +:+ dquote)],
        RunThrew "TypeError: Cannot read properties of undefined (reading 'type')"))
  ∧ ((flows !! flowName = None
      ∧ (inheritedLength flowName = None ∨ inheritedLength flowName = Some (Some 0%nat)))
     ∨ flows !! flowName = Some []
     ∨ (∃ first rest, flows !! flowName = Some (first :: rest) ∧ isGoto first = false) →
     ∃ err,
       handleRunFlow flowName flows w =
         (w, [Log ("Attempting to run flow: " +:+ dquote +:+ flowName +:+ dquote); Log err],
          NotStarted)
       ∧ (err = "Error: Flow not found."
          ∨ err = "Error: Flow must start with a " +:+ dquote +:+ "goto" +:+ dquote +:+ "."))
  ∧ (flows !! flowName = None
     ∨ flows !! flowName = Some []
     ∨ (∃ first rest, flows !! flowName = Some (first :: rest) ∧ isGoto first = false) →
     fst (fst (handleRunFlow flowName flows w)) = w
     ∧ openedPages (snd (fst (handleRunFlow flowName flows w))) = []
     ∧ dispatched (snd (fst (handleRunFlow flowName flows w))) = []
     ∧ ∀ tab steps, snd (handleRunFlow flowName flows w) ≠ Listening tab steps).
Proof.
  unfold Orchestrator.handleRunFlow, getProperty. split; [| split].
  - intros -> len -> Hlen. destruct len as [[| n] |]; done.
  - intros [[-> [-> | ->]] | [-> | (first & rest & -> & Hgoto)]].
    + eexists. split; [reflexivity |]. by left.
    + eexists. split; [reflexivity |]. by left.
    + eexists. split; [reflexivity |]. by left.
    + destruct first; try discriminate Hgoto;
        (eexists; split; [reflexivity |]; by right).
  - intros [-> | [-> | (first & rest & -> & Hgoto)]].
    + destruct (inheritedLength flowName) as [[[| n] |] |]; done.
    + done.
    + destruct first; try discriminate Hgoto; done.
Qed.

End Browser.

Lemma failure_alert_does_not_carry_the_step_witness :
  ∃ tr,
    replayLoop nat sampleSendMessage sampleDelay sampleInjectAlert 42
      (drop 1 sampleFlow) 0%nat
      = (5%nat, tr, Aborted (Click "#missing" "Gone" None)
                      "Element not found for selector: #missing")
    ∧ dispatched tr = [Click "#ok" "OK" (Some 0); Click "#missing" "Gone" None]
    ∧ failureAlerts tr = [["Element not found for selector: #missing"]]
    ∧ ∀ args, In args (failureAlerts tr) →
        failureAlertFunction replayScriptScope args = None.
Proof.
  destruct (failure_alert_does_not_carry_the_step nat (λ _ w, (w, true)) sampleSendMessage
              sampleDelay sampleInjectAlert 42
              [Wait 300; Click "#ok" "OK" (Some 0)] (Click "#missing" "Gone" None)
              [Change "#name" "Ada" (Some 0)] 0%nat 3%nat 4%nat
              [LogStep "Orchestrating step:" (Wait 300); Delay 300;
               LogStep "Orchestrating step:" (Click "#ok" "OK" (Some 0));
               SendExecuteSingleStep 42 (Click "#ok" "OK" (Some 0)) 0;
               Log "Waiting 500ms for page to stabilize..."; Delay 500]
              (Returned (ReplyObject "error"
                           (Some "Element not found for selector: #missing")))
              "Element not found for selector: #missing")
    as (tr & Hrun & _ & Hsent & Halert & Hpage & _).
  - reflexivity.
  - reflexivity.
  - reflexivity.
  - right. eexists. split; reflexivity.
  - exists tr. split; [exact Hrun |]. split; [exact Hsent |]. split; [exact Halert |].
    intros args Hargs. exact (proj1 (Hpage args Hargs)).
Defined.

Lemma undefined_reply_is_success_witness :
  dispatched
    (snd (fst (replayLoop nat sampleSendMessage sampleDelay sampleInjectAlert 42
                 [Change "#name" "Ada" (Some 0); Click "#ok" "OK" (Some 0)] 0%nat)))
    = [Change "#name" "Ada" (Some 0); Click "#ok" "OK" (Some 0)]
  ∧ ∃ w' tr msg,
      replayLoop nat sampleSendMessage sampleDelay sampleInjectAlert 42
        [Click "#missing" "Gone" None; Click "#ok" "OK" (Some 0)] 0%nat
        = (w', tr, Aborted (Click "#missing" "Gone" None) msg)
      ∧ dispatched tr = [Click "#missing" "Gone" None].
Proof.
  split.
  - rewrite (proj1 (undefined_reply_is_success nat sampleSendMessage sampleDelay
                      sampleInjectAlert 42
                      (Change "#name" "Ada" (Some 0)) [Click "#ok" "OK" (Some 0)]
                      0%nat 1%nat (Returned NoReply) eq_refl eq_refl) eq_refl).
    reflexivity.
  - apply (proj2 (proj2 (undefined_reply_is_success nat sampleSendMessage sampleDelay
                           sampleInjectAlert 42
                           (Click "#missing" "Gone" None) [Click "#ok" "OK" (Some 0)]
                           0%nat 1%nat
                           (Returned (ReplyObject "error"
                              (Some "Element not found for selector: #missing")))
                           eq_refl eq_refl))).
    right. eexists. reflexivity.
Defined.

Lemma run_of_inherited_name_throws_witness :
  handleRunFlow nat sampleTabsCreate "constructor"
    (<["broken" := [Click "#ok" "OK" (Some 0)]]> ∅) 0%nat
    = (0%nat,
       [Log ("Attempting to run flow: " +:+ dquote +:+ "constructor" +:+ dquote)],
       RunThrew "TypeError: Cannot read properties of undefined (reading 'type')")
  ∧ ∃ err,
      handleRunFlow nat sampleTabsCreate "nightly"
        (<["broken" := [Click "#ok" "OK" (Some 0)]]> ∅) 0%nat
        = (0%nat,
           [Log ("Attempting to run flow: " +:+ dquote +:+ "nightly" +:+ dquote); Log err],
           NotStarted)
      ∧ (err = "Error: Flow not found."
         ∨ err = "Error: Flow must start with a " +:+ dquote +:+ "goto" +:+ dquote +:+ ".").
Proof.
  split.
  - apply (proj1 (run_of_inherited_name_throws nat sampleTabsCreate "constructor"
                    (<["broken" := [Click "#ok" "OK" (Some 0)]]> ∅) 0%nat))
      with (len := Some 1%nat).
    + vm_compute. reflexivity.
    + reflexivity.
    + discriminate.
  - apply (proj1 (proj2 (run_of_inherited_name_throws nat sampleTabsCreate "nightly"
                           (<["broken" := [Click "#ok" "OK" (Some 0)]]> ∅) 0%nat))).
    left. split; [vm_compute; reflexivity | by left].
Defined.

End OrchestratorFacts.

(** ** Frame executor *)

Module ExecutorFacts.

Import Executor.

Section Punctual.

Variable selector : string.
Variable startTime : Z.
Variable query : Z → Query.

(** The selector is one the document accepts. *)
Hypothesis accepted : ∀ t, query t ≠ QueryThrows.

Local Abbreviation tick := (punctualTick startTime query).
Local Abbreviation at_poll := (λ k : nat, query (startTime + pollInterval * Z.of_nat k)).

Lemma tick_elapsed (k : nat) : tick_now (tick k) - startTime = 100 * Z.of_nat k.
Proof. unfold punctualTick, pollInterval. cbn [tick_now]. lia. Qed.

(** The element [waitForElement] resolves to was found by a callback,
    the first that found one, and every callback before it ran within
    the timeout. *)
Lemma punctual_resolved_inv (n : nat) : ∀ (i : nat) (el : Element),
  waitForElement selector defaultTimeout startTime (map tick (seq i n)) = Resolved el →
  ∃ k : nat,
    (i ≤ k < i + n)%nat ∧ at_poll k = Found el
    ∧ ∀ j : nat, (i ≤ j < k)%nat → at_poll j = NotFound ∧ (j ≤ 70)%nat.
Proof.
  induction n as [| n IH]; intros i el Hres; [discriminate Hres |].
  cbn [seq map waitForElement] in Hres.
  destruct (tick_query (tick i)) as [found | |] eqn:Hfound.
  - injection Hres as ->. exists i. repeat split; [lia | lia | exact Hfound | lia | lia].
  - rewrite tick_elapsed in Hres. unfold defaultTimeout in Hres.
    destruct (Z.ltb_spec 7000 (100 * Z.of_nat i)) as [Hlate | Hin]; [discriminate Hres |].
    destruct (IH (S i) el Hres) as (k & Hk & Hel & Hbefore).
    exists k. split; [lia |]. split; [exact Hel |].
    intros j Hj. destruct (decide (j = i)) as [-> | Hne].
    + split; [exact Hfound | lia].
    + apply Hbefore. lia.
  - by destruct (accepted _ Hfound).
Qed.

(** When [waitForElement] rejects, no callback up to the rejecting one
    found an element, and that one ran more than 7000ms after the
    start. *)
Lemma punctual_rejected_inv (n : nat) : ∀ (i : nat) (msg : string),
  waitForElement selector defaultTimeout startTime (map tick (seq i n)) = Rejected msg →
  ∃ k : nat,
    (i ≤ k < i + n)%nat ∧ (70 < k)%nat
    ∧ ∀ j : nat, (i ≤ j ≤ k)%nat → at_poll j = NotFound.
Proof.
  induction n as [| n IH]; intros i msg Hres; [discriminate Hres |].
  cbn [seq map waitForElement] in Hres.
  destruct (tick_query (tick i)) as [found | |] eqn:Hfound; [discriminate Hres | |].
  - rewrite tick_elapsed in Hres. unfold defaultTimeout in Hres.
    destruct (Z.ltb_spec 7000 (100 * Z.of_nat i)) as [Hlate | Hin].
    + exists i. split; [lia |]. split; [lia |].
      intros j Hj. by replace j with i by lia.
    + destruct (IH (S i) msg Hres) as (k & Hk & Hlate & Hnone).
      exists k. split; [lia |]. split; [exact Hlate |].
      intros j Hj. destruct (decide (j = i)) as [-> | Hne]; [exact Hfound |].
      apply Hnone. lia.
  - by destruct (accepted _ Hfound).
Qed.

(** When none of the callbacks up to number [lastPoll] finds an element,
    [waitForElement] rejects as soon as that callback has run. *)
Lemma punctual_rejects (n : nat) : ∀ i : nat,
  (i ≤ lastPoll)%nat → (lastPoll < i + n)%nat →
  (∀ k : nat, (i ≤ k ≤ lastPoll)%nat → at_poll k = NotFound) →
  waitForElement selector defaultTimeout startTime (map tick (seq i n))
    = Rejected ("Element not found for selector: " +:+ selector).
Proof.
  unfold lastPoll.
  induction n as [| n IH]; intros i Hi Hn Hnone; [lia |].
  cbn [seq map waitForElement].
  assert (Hfound : tick_query (tick i) = NotFound) by (apply Hnone; lia).
  rewrite Hfound, tick_elapsed. unfold defaultTimeout.
  destruct (Z.ltb_spec 7000 (100 * Z.of_nat i)) as [Hlate | Hin]; [reflexivity |].
  apply IH; [lia | lia |]. intros k Hk. apply Hnone. lia.
Qed.

(** While the callbacks find nothing and number [lastPoll] has not run,
    the wait goes on. *)
Lemma punctual_pending (n : nat) : ∀ i : nat,
  (i + n ≤ lastPoll)%nat →
  (∀ k : nat, (i ≤ k < i + n)%nat → at_poll k = NotFound) →
  waitForElement selector defaultTimeout startTime (map tick (seq i n)) = Pending.
Proof.
  unfold lastPoll.
  induction n as [| n IH]; intros i Hn Hnone; [reflexivity |].
  cbn [seq map waitForElement].
  assert (Hfound : tick_query (tick i) = NotFound) by (apply Hnone; lia).
  rewrite Hfound, tick_elapsed. unfold defaultTimeout.
  destruct (Z.ltb_spec 7000 (100 * Z.of_nat i)) as [Hlate | Hin]; [lia |].
  apply IH; [lia |]. intros k Hk. apply Hnone. lia.
Qed.

(** The first callback that finds an element ends the wait with that
    element, when it is one of the first [lastPoll]. *)
Lemma punctual_resolves (n : nat) : ∀ (i k : nat) (el : Element),
  (i ≤ k < i + n)%nat → (k ≤ lastPoll)%nat →
  at_poll k = Found el →
  (∀ j : nat, (i ≤ j < k)%nat → at_poll j = NotFound) →
  waitForElement selector defaultTimeout startTime (map tick (seq i n)) = Resolved el.
Proof.
  unfold lastPoll.
  induction n as [| n IH]; intros i k el Hk Hlast Hel Hnone; [lia |].
  cbn [seq map waitForElement].
  destruct (decide (k = i)) as [-> | Hne].
  - assert (Hfound : tick_query (tick i) = Found el) by exact Hel. by rewrite Hfound.
  - assert (Hfound : tick_query (tick i) = NotFound) by (apply Hnone; lia).
    rewrite Hfound, tick_elapsed. unfold defaultTimeout.
    destruct (Z.ltb_spec 7000 (100 * Z.of_nat i)) as [Hlate | Hin]; [lia |].
    apply (IH (S i) k el); [lia | lia | exact Hel |]. intros j Hj. apply Hnone. lia.
Qed.

End Punctual.

(** An action step touches no element but the one [waitForElement]
    resolved to. *)
Lemma executeStep_targets step startTime ticks op :
  In op (snd (executeStep step startTime ticks)) →
  waitForElement (selectorOf step) defaultTimeout startTime ticks = Resolved (opTarget op).
Proof.
  unfold executeStep.
  destruct (waitForElement _ _ _ _) as [el | msg |]; [| intros [] | intros []].
  destruct step as [url f | d | sel lbl f | sel v f]; cbn [snd].
  - intros [].
  - intros [].
  - intros [<- | []]. reflexivity.
  - destruct (el_value el); [| destruct (el_isContentEditable el)]; cbn [snd In];
      intros H; decompose [or] H; subst; try reflexivity; contradiction.
Qed.


Lemma soonQuery_accepted (t : Z) : soonQuery t ≠ QueryThrows.
Proof. unfold soonQuery. destruct (250 <=? t); discriminate. Qed.

Lemma lateQuery_accepted (t : Z) : lateQuery t ≠ QueryThrows.
Proof. unfold lateQuery. destruct (7050 <=? t); discriminate. Qed.





End ExecutorFacts.

(** ** Frame observers and selector resolver *)

Module ObserverFacts.

Import Dom.

(** C5. An element with an id (unique in the document or not) resolves
    to its id selector, before any attribute or position is looked at:
    whatever its tag, attributes, siblings and ancestors, and whatever
    the rest of the document holds. The pointer-press revision writes
    the selector as [#] followed by [CSS.escape(id)], the debounce
    revision as [#] followed by the id as it is. *)
Theorem getSelector_id_first
    (CSS_escape : string → string) (querySelectorAll_length : string → option nat)
    (element : Element) :
  el_id element ≠ EmptyString →
  Observer.getSelector CSS_escape querySelectorAll_length (Some element)
    = "#" +:+ CSS_escape (el_id element)
  ∧ DebounceObserver.getSelector querySelectorAll_length (Some element)
    = Some ("#" +:+ el_id element).
Proof.
  intros Hid. unfold Observer.getSelector, DebounceObserver.getSelector, truthy.
  destruct (String.eqb_spec (el_id element) EmptyString) as [Heq | _]; [done |].
  split; reflexivity.
Qed.

Lemma getSelector_id_first_witness :
  Observer.getSelector sampleEscape sampleCount (Some submitButton) = "#submit"
  ∧ DebounceObserver.getSelector sampleCount (Some submitButton) = Some "#submit".
Proof.
  apply (getSelector_id_first sampleEscape sampleCount submitButton). discriminate.
Defined.

(** Without an id and without a stable attribute that is unique, both
    revisions fall back to the positional path. *)
Example positional_selector :
  Observer.getSelector sampleEscape sampleCount (Some labelElement)
    = "body > form:nth-of-type(1) > label:nth-of-type(1)"
  ∧ DebounceObserver.getSelector sampleCount (Some labelElement)
    = Some "body  > form:nth-of-type(1) > label:nth-of-type(1)".
Proof. split; reflexivity. Qed.

Section Document.

Variable CSS_escape : string → string.
Variable querySelectorAll_length : string → option nat.

Local Abbreviation getSelector := (Observer.getSelector CSS_escape querySelectorAll_length).
Local Abbreviation observeAll := (Observer.observeAll CSS_escape querySelectorAll_length).
Local Abbreviation onMouseDown := (Observer.onMouseDown CSS_escape querySelectorAll_length).

(** Without a pointer press nothing is reported and nothing remembered. *)
Lemma observeAll_silent (evs : list Observer.DomEvent) (m : gmap nat string) :
  forallb (λ ev, negb (Observer.isMouseDown ev)) evs = true →
  observeAll evs m = (m, []).
Proof.
  induction evs as [| ev evs IH]; [done |].
  cbn [forallb]. intros [Hev Hrest]%andb_true_iff.
  cbn [Observer.observeAll]. destruct ev; [| | discriminate Hev];
    cbn [Observer.observe]; by rewrite (IH Hrest).
Qed.

Lemma observeAll_app (evs1 evs2 : list Observer.DomEvent) (m : gmap nat string) :
  observeAll (evs1 ++ evs2) m =
    (let '(m1, out1) := observeAll evs1 m in
     let '(m2, out2) := observeAll evs2 m1 in
     (m2, out1 ++ out2)).
Proof.
  revert m. induction evs1 as [| ev evs1 IH]; intros m.
  - cbn. by destruct (observeAll evs2 m).
  - cbn [app Observer.observeAll].
    destruct (Observer.observe _ _ ev m) as [m1 out1]. rewrite IH.
    destruct (observeAll evs1 m1) as [m2 out2].
    destruct (observeAll evs2 m2) as [m3 out3]. by rewrite app_assoc.
Qed.

(** C4, as the pointer-press revision has it. Edits report nothing, and
    neither does a loss of focus: the script listens to pointer presses
    only. After any number of edits and blurs, a pointer press on
    another element while the edited element is the active one reports
    the element's value at that moment in exactly one change report,
    just before the click report; when that value is the last one
    reported for the element, only the click is reported. *)
Theorem edits_flushed_by_pointer_press
    (edits : list Observer.DomEvent) (active target : Element) (v : string)
    (m : gmap nat string) :
  forallb (λ ev, negb (Observer.isMouseDown ev)) edits = true →
  sameElement active target = false →
  Observer.isEditable active = true →
  Observer.currentValue active = Some v →
  observeAll edits m = (m, [])
  ∧ observeAll (edits ++ [Observer.Blurred active]) m = (m, [])
  ∧ (m !! el_node active ≠ Some v →
     observeAll (edits ++ [Observer.MouseDown target (Some active)]) m
       = (<[el_node active := v]> m,
          [AChange (getSelector (Some active)) v;
           AClick (getSelector (Some target)) (Observer.clickLabel target)]))
  ∧ (m !! el_node active = Some v →
     observeAll (edits ++ [Observer.MouseDown target (Some active)]) m
       = (m, [AClick (getSelector (Some target)) (Observer.clickLabel target)])).
Proof.
  intros Hedits Hother Heditable Hvalue.
  pose proof (observeAll_silent edits m Hedits) as Hsilent.
  split; [exact Hsilent |]. split.
  - rewrite observeAll_app, Hsilent. reflexivity.
  - unfold Observer.isEditable in Heditable.
    split; intros Hlast; rewrite observeAll_app, Hsilent;
      cbn [Observer.observeAll Observer.observe];
      unfold Observer.onMouseDown, Observer.recordInputChange;
      rewrite Hother, Heditable, Hvalue; cbn [negb andb].
    + rewrite bool_decide_eq_false_2 by exact Hlast. reflexivity.
    + rewrite bool_decide_eq_true_2 by exact Hlast. reflexivity.
Qed.

End Document.

Lemma edits_flushed_by_pointer_press_witness :
  Observer.observeAll sampleEscape sampleCount
    ([Observer.Edited (nameInput "A"); Observer.Edited (nameInput "Ad");
      Observer.Edited (nameInput "Ada")]
     ++ [Observer.MouseDown submitButton (Some (nameInput "Ada"))]) ∅
  = (<[5%nat := "Ada"]> ∅, [AChange "#name" "Ada"; AClick "#submit" "Submit"]).
Proof.
  apply (proj1 (proj2 (proj2 (edits_flushed_by_pointer_press sampleEscape sampleCount
           [Observer.Edited (nameInput "A"); Observer.Edited (nameInput "Ad");
            Observer.Edited (nameInput "Ada")]
           (nameInput "Ada") submitButton "Ada" ∅ eq_refl eq_refl eq_refl eq_refl)))).
  discriminate.
Defined.

(** C4 as stated fails on the pointer-press revision: three edits of the
    text field followed by its blur produce no change report at all. *)
Lemma edits_then_blur_report_nothing :
  snd (Observer.observeAll sampleEscape sampleCount
         [Observer.Edited (nameInput "A"); Observer.Edited (nameInput "Ad");
          Observer.Edited (nameInput "Ada"); Observer.Blurred (nameInput "Ada")] ∅)
    = []
  ∧ length (snd (Observer.observeAll sampleEscape sampleCount
         [Observer.Edited (nameInput "A"); Observer.Edited (nameInput "Ad");
          Observer.Edited (nameInput "Ada"); Observer.Blurred (nameInput "Ada")] ∅))
    ≠ 1%nat.
Proof. split; [reflexivity | discriminate]. Qed.

(** The debounce revision does listen to blur, but its blur handler
    leaves the pending debounce timer in place: two edits, a blur and
    then the timer produce the same change report twice. *)
Lemma blur_then_debounce_reports_twice :
  snd (DebounceObserver.observeAll sampleCount
         [DebounceObserver.Input 0 (nameInput "A");
          DebounceObserver.Input 100 (nameInput "Ad");
          DebounceObserver.Blur 200 (nameInput "Ad");
          DebounceObserver.TimerFired 600 (nameInput "Ad")]
         {| DebounceObserver.pending := None |})
    = [AChange "#name" "Ad"; AChange "#name" "Ad"].
Proof. reflexivity. Qed.

End ObserverFacts.

(** ** Recording controller: invariants and compositions

    The invariants hold in every schedule of [Interleaving.step]. The
    compositions X3 to X7 are about events handled one after the other,
    as [Background.handle] has them. *)

Module RecordingFacts.

Import Background Interleaving RecordingShape.

Lemma tailShape_app (l1 l2 : list Step) :
  tailShape l1 = true → tailShape l2 = true → tailShape (l1 ++ l2) = true.
Proof.
  induction l1 as [| s l1 IH]; [done |]. intros H1 H2.
  destruct s as [url f | d | sel lbl f | sel v f]; cbn [app tailShape] in *.
  - discriminate H1.
  - apply andb_true_iff in H1 as [[Hd Hnext]%andb_true_iff Hrest].
    rewrite Hd, (IH Hrest H2). destruct l1 as [| next l1]; [discriminate Hnext |].
    cbn [app]. by rewrite Hnext.
  - by apply IH.
  - by apply IH.
Qed.

Lemma tailShape_withFrameId (action : Action) (f : Z) :
  tailShape [withFrameId action f] = true.
Proof. by destruct action. Qed.

Lemma isActionStep_withFrameId (action : Action) (f : Z) :
  isActionStep (withFrameId action f) = true.
Proof. by destruct action. Qed.

(** One accepted report keeps the shape. *)
Lemma flowShape_handleRecordAction now action sender st :
  flowShape (recordedSteps st) = true →
  flowShape (recordedSteps (fst (handleRecordAction now action sender st))) = true.
Proof.
  intros Hshape. unfold handleRecordAction. cbn [fst recordedSteps].
  destruct (recordedSteps st) as [| [url [[| |] |] | | |] tail]; try discriminate Hshape.
  cbn [flowShape] in Hshape.
  destruct (Z.ltb_spec 100 (now - lastActionTimestamp st)) as [Hgap | Hgap].
  - rewrite <- app_assoc. cbn [app flowShape]. apply tailShape_app; [exact Hshape |].
    apply Z.ltb_lt in Hgap. destruct action; cbn; by rewrite Hgap.
  - cbn [app flowShape]. apply tailShape_app; [exact Hshape |].
    apply tailShape_withFrameId.
Qed.

(** What a message from a content script leaves behind. *)
Lemma handle_content_script now tab request t f (sys : System) :
  fst (handle (Message now tab request {| sender_tab := Some t; sender_frameId := f |}) sys)
  = {| sys_state :=
         fst (onContentScriptMessage now request
                {| sender_tab := Some t; sender_frameId := f |} (sys_state sys));
       sys_flows := sys_flows sys |}.
Proof.
  cbn [handle].
  by destruct (onContentScriptMessage now request _ (sys_state sys)) as [st1 out1].
Qed.

(** What a message from the side panel leaves behind. *)
Lemma handle_panel now tab request f (sys : System) :
  fst (handle (Message now tab request (panel f)) sys)
  = {| sys_state :=
         fst (fst (onSidePanelMessage now tab request (panel f)
                     (sys_state sys) (sys_flows sys)));
       sys_flows :=
         snd (fst (onSidePanelMessage now tab request (panel f)
                     (sys_state sys) (sys_flows sys))) |}.
Proof.
  cbn [handle]. unfold onContentScriptMessage. cbn [panel sender_tab].
  by destruct (onSidePanelMessage now tab request _ (sys_state sys) (sys_flows sys))
    as [[st2 flows2] out2].
Qed.

Lemma handleCancelRecording_flag (st : State) :
  isRecording (handleCancelRecording st) = false.
Proof. unfold handleCancelRecording. by destruct (isRecording st) eqn:Hr. Qed.

Lemma handleCancelRecording_steps (st : State) :
  recordedSteps (handleCancelRecording st) = recordedSteps st.
Proof. unfold handleCancelRecording. by destruct (isRecording st). Qed.

Lemma flowShape_emptyOrFlowShape (steps : list Step) :
  flowShape steps = true → emptyOrFlowShape steps = true.
Proof. by destruct steps. Qed.

Lemma stateShape_initial : stateShape initialState.
Proof. split; [discriminate | reflexivity]. Qed.

Lemma stateShape_cancelled (st : State) : stateShape st → stateShape (handleCancelRecording st).
Proof.
  intros [_ Hsteps]. split.
  - by rewrite handleCancelRecording_flag.
  - by rewrite handleCancelRecording_steps.
Qed.

Lemma stateShape_started now tab (st : State) :
  stateShape st → stateShape (fst (startRecordingOn now tab st)).
Proof.
  intros Hst. destruct tab as [tab |]; [| exact Hst].
  split; [| reflexivity]. intros _. split; [by eexists | reflexivity].
Qed.

(** The module-level variables keep their shape through every event
    that is handled to its end. *)
Lemma stateShape_handle (ev : Event) (sys : System) :
  stateShape (sys_state sys) → stateShape (sys_state (fst (handle ev sys))).
Proof.
  intros Hst. pose proof Hst as [Hrec Hsteps].
  destruct ev as [now tab request [[t |] f] | tabId |].
  - rewrite handle_content_script. cbn [sys_state].
    unfold onContentScriptMessage. cbn [sender_tab].
    destruct request as [a | | name | | name | name | name | | ty]; try exact Hst.
    destruct (isRecording (sys_state sys) && isRecordingTab (tab_id t) (sys_state sys))
      eqn:Hacc; [| exact Hst].
    apply andb_true_iff in Hacc as [Hr _]. destruct (Hrec Hr) as [Htab Hshape].
    assert (Hnew : flowShape (recordedSteps
                      (fst (handleRecordAction now a
                              {| sender_tab := Some t; sender_frameId := f |}
                              (sys_state sys)))) = true)
      by (by apply flowShape_handleRecordAction).
    split; [intros _; split; [exact Htab | exact Hnew] |].
    by apply flowShape_emptyOrFlowShape.
  - change {| sender_tab := None; sender_frameId := f |} with (panel f).
    rewrite handle_panel. unfold onSidePanelMessage. cbn [panel sender_tab sys_state].
    destruct request as [a | | name | | name | name | name | | ty]; try exact Hst.
    + unfold handleStartRecording.
      destruct (isRecording (sys_state sys)) eqn:Hr; [exact Hst |].
      pose proof (stateShape_started now tab _ Hst) as Hnew.
      by destruct (startRecordingOn now tab (sys_state sys)).
    + unfold handleStopRecordingAndSave, resetState.
      destruct (isRecording (sys_state sys)) eqn:Hr; cbn [negb fst]; [| exact Hst].
      apply stateShape_initial.
    + by apply stateShape_cancelled.
  - cbn [handle]. destruct (isRecordingTab tabId (sys_state sys)); [| exact Hst].
    by apply stateShape_cancelled.
  - apply stateShape_initial.
Qed.

(** The listeners either leave the module-level variables alone or do
    what [Background.handle] does. *)
Lemma deliver_state (ev : Event) (wk : Worker) :
  stateOf (fst (deliver ev wk)) = stateOf wk
  ∨ stateOf (fst (deliver ev wk)) = sys_state (fst (handle ev (worker_sys wk))).
Proof.
  destruct wk as [sys tasks]. unfold stateOf.
  destruct ev as [now tab request [[t |] f] | tabId |]; cbn [deliver sender_tab worker_sys].
  - right. by destruct (handle _ sys).
  - destruct request; try (right; by destruct (handle _ sys)); left.
    + by destruct (isRecording (sys_state sys)).
    + by destruct (isRecording (sys_state sys)).
    + reflexivity.
  - right. by destruct (handle _ sys).
  - right. by destruct (handle _ sys).
Qed.

Lemma storeShape_setProperty (name : string) (steps : list Step) (flows : FlowStore) :
  emptyOrFlowShape steps = true → storeShape flows →
  storeShape (setProperty name steps flows).
Proof.
  intros Hsteps Hflows m old Hm.
  destruct (InterleavingFacts.setProperty_lookup _ _ _ _ _ Hm) as [-> | Hold];
    [exact Hsteps | by eapply Hflows].
Qed.

Lemma storeShape_delete (name : string) (flows : FlowStore) :
  storeShape flows → storeShape (delete name flows).
Proof. intros Hflows m old [_ Hm]%lookup_delete_Some. by eapply Hflows. Qed.

Lemma wellFormed_step (move : Move) (wk : Worker) :
  wellFormed wk → wellFormed (fst (step move wk)).
Proof.
  intros Hwk. pose proof Hwk as (Hst & Hflows & Htasks).
  destruct move as [ev | i | i now tab]; cbn [step fst].
  - split; [| split].
    + destruct (deliver_state ev wk) as [-> | ->]; [exact Hst |].
      by apply stateShape_handle.
    + by rewrite InterleavingFacts.deliver_flows.
    + destruct (InterleavingFacts.deliver_tasks ev wk)
        as [-> | (t & -> & [-> | [[n ->] | [n ->]]])]; [exact Htasks | | |];
        (apply Forall_app; split; [exact Htasks | by repeat constructor]).
  - unfold storage.
    destruct (worker_tasks wk !! i) as [[| n [l |] | n l [|] | n [l |] | n l [|] |] |] eqn:Hi;
      try exact Hwk.
    + split; [exact Hst |]. split; [exact Hflows |]. by apply Forall_insert.
    + pose proof (Forall_lookup_1 _ _ _ _ Htasks Hi) as Hl.
      split; [exact Hst |]. split; [exact Hl |]. by apply Forall_insert.
    + split; [exact Hst |]. split; [exact Hflows |]. by apply Forall_insert.
    + pose proof (Forall_lookup_1 _ _ _ _ Htasks Hi) as Hl.
      split; [exact Hst |]. split; [exact Hl |]. by apply Forall_insert.
  - unfold resume.
    destruct (worker_tasks wk !! i) as [[| n [l |] | n l [|] | n [l |] | n l [|] |] |] eqn:Hi;
      try exact Hwk.
    + pose proof (stateShape_started now tab (stateOf wk) Hst) as Hnew.
      unfold stateOf in Hnew.
      destruct (startRecordingOn now tab (sys_state (worker_sys wk))) as [st' out].
      split; [exact Hnew |]. split; [exact Hflows |]. by apply Forall_insert.
    + pose proof (Forall_lookup_1 _ _ _ _ Htasks Hi) as Hl.
      split; [exact Hst |]. split; [exact Hflows |]. cbn [fst setTask worker_tasks].
      apply Forall_insert; [exact Htasks |].
      apply storeShape_setProperty; [apply Hst | exact Hl].
    + split; [apply stateShape_initial |]. split; [exact Hflows |]. by apply Forall_insert.
    + pose proof (Forall_lookup_1 _ _ _ _ Htasks Hi) as Hl.
      split; [exact Hst |]. split; [exact Hflows |]. cbn [fst setTask worker_tasks].
      apply Forall_insert; [exact Htasks |]. by apply storeShape_delete.
    + split; [exact Hst |]. split; [exact Hflows |]. by apply Forall_insert.
Qed.

Lemma wellFormed_moves (ms : list Move) : ∀ wk, wellFormed wk → wellFormed (moves ms wk).
Proof.
  induction ms as [| move ms IH]; intros wk Hwk; [exact Hwk |].
  cbn [moves]. apply IH. by apply wellFormed_step.
Qed.

Lemma wellFormed_idle : wellFormed idleWorker.
Proof.
  split; [apply stateShape_initial |]. split; [| constructor].
  intros name steps Hn. unfold idleWorker, idleSystem, flowsOf in Hn.
  cbn [worker_sys sys_flows] in Hn. by rewrite lookup_empty in Hn.
Qed.

(** X1. Whatever happens to the extension from its idle start with an
    empty store, in whatever order events arrive and suspended handlers
    resume: while it is recording a tab is bound and the recorded steps
    begin with one goto tagged with the top frame, hold no other goto,
    and hold waits only of more than 100ms, each right before a click
    or change; outside a recording the steps have that shape or there
    are none; and every stored flow has that shape or is empty. An
    empty flow is stored when a save resumes after the recording has
    been reset. *)
Theorem recording_always_well_formed (ms : list Move) :
  wellFormed (moves ms idleWorker)
  ∧ flowsOf (moves saveAfterReset idleWorker) !! "login" = Some [].
Proof. split; [apply wellFormed_moves, wellFormed_idle | by vm_compute]. Qed.

(** While a recording goes on, an event handled to its end removes no
    step and does not rebind the tab. *)
Lemma handle_steps_grow (ev : Event) (sys : System) :
  isRecording (sys_state sys) = true →
  isRecording (sys_state (fst (handle ev sys))) = true →
  recordingTabId (sys_state (fst (handle ev sys))) = recordingTabId (sys_state sys)
  ∧ recordedSteps (sys_state sys) `prefix_of`
      recordedSteps (sys_state (fst (handle ev sys))).
Proof.
  intros Hr.
  destruct ev as [now tab request [[t |] f] | tabId |].
  - rewrite handle_content_script. cbn [sys_state].
    unfold onContentScriptMessage. cbn [sender_tab].
    destruct request; try done.
    destruct (isRecording (sys_state sys) && isRecordingTab (tab_id t) (sys_state sys));
      [| done].
    intros _. split; [reflexivity |].
    rewrite BackgroundFacts.handleRecordAction_steps. by apply prefix_app_r.
  - change {| sender_tab := None; sender_frameId := f |} with (panel f).
    rewrite handle_panel. unfold onSidePanelMessage. cbn [panel sender_tab].
    destruct request as [a | | name | | name | name | name | | ty]; try done.
    + unfold handleStartRecording. by rewrite Hr.
    + unfold handleStopRecordingAndSave, resetState. by rewrite Hr.
    + cbn [fst sys_state]. by rewrite handleCancelRecording_flag.
  - cbn [handle]. destruct (isRecordingTab tabId (sys_state sys)); [| done].
    cbn [fst sys_state]. by rewrite handleCancelRecording_flag.
  - discriminate.
Qed.

(** X2. While a recording goes on, whatever happens next either keeps
    the bound tab and the recorded steps, with new steps appended at
    most, or is the resumption of a start request: one that passed its
    test of [isRecording] before this recording began and whose tab
    query has now answered. That resumption rebinds the tab and replaces
    the recorded steps by a single goto. *)
Theorem steps_only_grow_while_recording (move : Move) (wk : Worker) :
  isRecording (stateOf wk) = true →
  isRecording (stateOf (fst (step move wk))) = true →
  (recordingTabId (stateOf (fst (step move wk))) = recordingTabId (stateOf wk)
   ∧ recordedSteps (stateOf wk) `prefix_of` recordedSteps (stateOf (fst (step move wk))))
  ∨ ∃ i now tab,
      move = Resume i now (Some tab)
      ∧ worker_tasks wk !! i = Some StartQuerying
      ∧ stateOf (fst (step move wk)) = freshRecording now tab.
Proof.
  intros Hr.
  destruct move as [ev | i | i now tab]; cbn [step fst].
  - intros Hr'. left. destruct (deliver_state ev wk) as [Heq | Heq]; rewrite Heq in Hr' |- *.
    + done.
    + by apply handle_steps_grow.
  - intros _. left. unfold storage, stateOf.
    by destruct (worker_tasks wk !! i) as [[| n [l |] | n l [|] | n [l |] | n l [|] |] |].
  - unfold resume, stateOf.
    destruct (worker_tasks wk !! i) as [[| n [l |] | n l [|] | n [l |] | n l [|] |] |] eqn:Hi;
      try (by left).
    destruct tab as [tab |]; [| by left].
    intros _. right. by exists i, now, tab.
Qed.

Lemma steps_only_grow_while_recording_witness :
  let wk := moves (take 4 doubleStart) idleWorker in
  recordedSteps (stateOf wk)
    = [Goto "https://x/form" (Some 0); Click "#submit" "Submit" (Some 0)]
  ∧ ((recordingTabId (stateOf (fst (step (Deliver (reportEvent changeName)) wk)))
        = recordingTabId (stateOf wk)
      ∧ recordedSteps (stateOf wk) `prefix_of`
          recordedSteps (stateOf (fst (step (Deliver (reportEvent changeName)) wk))))
     ∨ ∃ i now tab,
         Deliver (reportEvent changeName) = Resume i now (Some tab)
         ∧ worker_tasks wk !! i = Some StartQuerying
         ∧ stateOf (fst (step (Deliver (reportEvent changeName)) wk))
           = freshRecording now tab)
  ∧ stateOf (moves doubleStart idleWorker)
    = freshRecording 1100 {| tab_id := 8; tab_url := "https://y/" |}.
Proof.
  intros wk. split; [reflexivity |]. split.
  - apply (steps_only_grow_while_recording (Deliver (reportEvent changeName)) wk);
      reflexivity.
  - destruct (steps_only_grow_while_recording
                (Resume 1 1100 (Some {| tab_id := 8; tab_url := "https://y/" |})) wk
                eq_refl eq_refl) as [[Htab _] | (i & now & tab & Hmove & _ & Hstate)].
    + discriminate Htab.
    + injection Hmove as <- <- <-. exact Hstate.
Defined.

(** X3. Every message to the side panel that carries steps carries the
    steps as they are once the event is handled, and the recording flag
    it implies is the controller's. *)
Theorem ui_messages_carry_current_state
    (ev : Event) (sys : System) (msg : UiMessage) (isRec : bool) (steps : list Step) :
  In msg (snd (handle ev sys)) →
  messageSteps msg = Some (isRec, steps) →
  steps = recordedSteps (sys_state (fst (handle ev sys)))
  ∧ isRec = isRecording (sys_state (fst (handle ev sys))).
Proof.
  destruct sys as [st flows].
  destruct ev as [now tab request [[t |] f] | tabId |];
    cbn [handle sys_state sys_flows].
  - unfold onContentScriptMessage, onSidePanelMessage. cbn [sender_tab].
    destruct request; try solve [cbn [fst snd app In]; intros []].
    destruct (isRecording st && isRecordingTab (tab_id t) st) eqn:Hacc; [| cbn [fst snd app In]; intros []].
    apply andb_true_iff in Hacc as [Hr _].
    unfold handleRecordAction. cbn [fst snd sys_state app In].
    intros [<- | []] [= <- <-]. by rewrite Hr.
  - unfold onContentScriptMessage, onSidePanelMessage. cbn [sender_tab].
    destruct request as [a | | name | | name | name | name | | ty]; try solve [cbn [fst snd app In]; intros []].
    + unfold handleStartRecording. destruct (isRecording st); [cbn [fst snd app In]; intros [] |].
      destruct tab as [tab |]; [| cbn [fst snd app In]; intros []].
      cbn [fst snd sys_state app In]. by intros [<- | []] [= <- <-].
    + unfold handleStopRecordingAndSave, resetState.
      destruct (isRecording st); cbn [negb fst snd sys_state app In]; [| cbn [fst snd app In]; intros []].
      by intros [<- | [<- | []]] [= <- <-].
    + unfold handleDeleteFlow. cbn [fst snd app In]. by intros [<- | []].
  - destruct (isRecordingTab tabId st); cbn [fst snd app In]; intros [].
  - unfold resetState. cbn [fst snd sys_state In].
    by intros [<- | [<- | []]] [= <- <-].
Qed.

Lemma ui_messages_carry_current_state_witness :
  [Goto "https://x/form" (Some 0); Click "#submit" "Submit" (Some 0)]
    = recordedSteps (sys_state (fst (handle (reportEvent clickSubmit) recordingOn7)))
  ∧ true = isRecording (sys_state (fst (handle (reportEvent clickSubmit) recordingOn7))).
Proof.
  apply (ui_messages_carry_current_state (reportEvent clickSubmit) recordingOn7
           (updateLiveSteps
              [Goto "https://x/form" (Some 0); Click "#submit" "Submit" (Some 0)])).
  - left. reflexivity.
  - reflexivity.
Defined.

(** X4. Cancelling never writes the store. From the moment of the
    cancel every report is discarded, also those of the recorded tab,
    and when the reset timer fires the controller is back in its initial
    state with the store as it was. *)
Theorem cancel_discards_without_saving
    (sys : System) (now : Z) (tab : option Tab) (f : Z) (rs : list Report) :
  let cancelled := fst (handle (Message now tab cancelRecording (panel f)) sys) in
  sys_flows cancelled = sys_flows sys
  ∧ run (map reportEvent rs) cancelled = cancelled
  ∧ fst (handle ResetTimer cancelled)
    = {| sys_state := initialState; sys_flows := sys_flows sys |}.
Proof.
  intros cancelled. unfold cancelled. rewrite handle_panel.
  unfold onSidePanelMessage. cbn [panel sender_tab fst snd].
  split; [reflexivity |]. split; [| reflexivity].
  apply BackgroundFacts.run_idle. cbn [sys_state]. apply handleCancelRecording_flag.
Qed.

(** X5. The reset timer of a cancelled recording is not tied to that
    recording: when a new recording starts before the timer fires, the
    timer wipes the new recording, bound tab and first step included. *)
Theorem stale_reset_timer_wipes_new_recording
    (sys : System) (now1 now2 : Z) (t1 : option Tab) (f1 f2 : Z) (tab : Tab) :
  isRecording (sys_state sys) = true →
  let restarted :=
    run [Message now1 t1 cancelRecording (panel f1);
         Message now2 (Some tab) startRecording (panel f2)] sys in
  (isRecording (sys_state restarted) = true
   ∧ recordingTabId (sys_state restarted) = Some (tab_id tab)
   ∧ recordedSteps (sys_state restarted) = [Goto (tab_url tab) (Some 0)])
  ∧ sys_state (fst (handle ResetTimer restarted)) = initialState.
Proof.
  intros Hr restarted. split; [| reflexivity].
  unfold restarted. cbn [run]. rewrite !handle_panel.
  unfold onSidePanelMessage. cbn [panel sender_tab fst snd sys_state sys_flows].
  unfold handleStartRecording. rewrite handleCancelRecording_flag. done.
Qed.

Lemma stale_reset_timer_wipes_new_recording_witness :
  let restarted :=
    run [Message 5000 None cancelRecording (panel 0);
         Message 5050 (Some {| tab_id := 8; tab_url := "https://y/" |}) startRecording
           (panel 0)] recordingOn7 in
  (isRecording (sys_state restarted) = true
   ∧ recordingTabId (sys_state restarted) = Some 8
   ∧ recordedSteps (sys_state restarted) = [Goto "https://y/" (Some 0)])
  ∧ sys_state (fst (handle ResetTimer restarted)) = initialState.
Proof.
  apply (stale_reset_timer_wipes_new_recording recordingOn7 5000 5050 None 0 0
           {| tab_id := 8; tab_url := "https://y/" |}).
  reflexivity.
Defined.

(** X6. Closing the recording tab does what a cancel from the side
    panel does; closing any other tab does nothing. *)
Theorem closing_recording_tab_cancels
    (sys : System) (tabId now : Z) (tab : option Tab) (f : Z) :
  (isRecordingTab tabId (sys_state sys) = true →
     fst (handle (TabRemoved tabId) sys)
       = fst (handle (Message now tab cancelRecording (panel f)) sys))
  ∧ (isRecordingTab tabId (sys_state sys) = false →
     handle (TabRemoved tabId) sys = (sys, [])).
Proof.
  split; intros Htab.
  - rewrite handle_panel. cbn [handle]. by rewrite Htab.
  - cbn [handle]. by rewrite Htab.
Qed.

Lemma closing_recording_tab_cancels_witness :
  fst (handle (TabRemoved 7) recordingOn7)
    = fst (handle (Message 5000 None cancelRecording (panel 0)) recordingOn7)
  ∧ handle (TabRemoved 9) recordingOn7 = (recordingOn7, []).
Proof.
  split.
  - apply (proj1 (closing_recording_tab_cancels recordingOn7 7 5000 None 0)). reflexivity.
  - apply (proj2 (closing_recording_tab_cancels recordingOn7 9 5000 None 0)). reflexivity.
Defined.

(** X7. Saving a recording under a name that is not stored and then
    deleting that name gives the store back as it was; deleting a name
    twice is the same as deleting it once. *)
Theorem save_then_delete_restores_store
    (sys : System) (n : string) (now1 now2 : Z) (t1 t2 : option Tab) (f1 f2 : Z) :
  (isRecording (sys_state sys) = true →
   sys_flows sys !! n = None →
   sys_flows (run [Message now1 t1 (stopRecordingAndSave n) (panel f1);
                   Message now2 t2 (deleteFlow n) (panel f2)] sys)
     = sys_flows sys)
  ∧ sys_flows (run [Message now1 t1 (deleteFlow n) (panel f1);
                    Message now2 t2 (deleteFlow n) (panel f2)] sys)
    = sys_flows (run [Message now1 t1 (deleteFlow n) (panel f1)] sys).
Proof.
  split.
  - intros Hr Habsent. cbn [run]. rewrite !handle_panel.
    unfold onSidePanelMessage, handleStopRecordingAndSave, handleDeleteFlow, resetState.
    cbn [panel sender_tab]. rewrite Hr. cbn [negb fst snd sys_state sys_flows].
    unfold setProperty. rewrite Habsent.
    destruct (String.eqb n "__proto__"); [by apply delete_id | by apply delete_insert_id].
  - cbn [run]. rewrite !handle_panel.
    unfold onSidePanelMessage, handleDeleteFlow.
    cbn [panel sender_tab fst snd sys_state sys_flows].
    apply delete_delete_eq.
Qed.

Lemma save_then_delete_restores_store_witness :
  sys_flows (run [Message 2000 None (stopRecordingAndSave "login") (panel 0);
                  Message 3000 None (deleteFlow "login") (panel 0)] recordingOn7)
    = sys_flows recordingOn7.
Proof.
  apply (proj1 (save_then_delete_restores_store recordingOn7 "login" 2000 3000
                  None None 0 0)); reflexivity.
Defined.

(** X28. Saving a recording under the name [__proto__] stores nothing:
    the assignment changes the prototype of the object read from the
    store, the object written back holds what the store held, and the
    handler ends as any save does, with the controller reset and the
    side panel told so. The recorded steps are lost. *)
Theorem saving_under_proto_stores_nothing
    (sys : System) (now : Z) (tab : option Tab) (f : Z) :
  isRecording (sys_state sys) = true →
  sys_flows sys !! "__proto__" = None →
  let saved := handle (Message now tab (stopRecordingAndSave "__proto__") (panel f)) sys in
  sys_flows (fst saved) = sys_flows sys
  ∧ sys_state (fst saved) = initialState
  ∧ snd saved = [recordingStateChanged false []; flowsUpdated].
Proof.
  destruct sys as [st flows]. cbn [sys_state sys_flows]. intros Hr Habsent.
  cbn [handle]. unfold onContentScriptMessage, onSidePanelMessage,
    handleStopRecordingAndSave, resetState, setProperty.
  cbn [panel sender_tab sys_state sys_flows]. rewrite Hr, Habsent. done.
Qed.

Lemma saving_under_proto_stores_nothing_witness :
  let saved :=
    handle (Message 2000 None (stopRecordingAndSave "__proto__") (panel 0)) recordingOn7 in
  sys_flows (fst saved) = sys_flows recordingOn7
  ∧ sys_state (fst saved) = initialState
  ∧ snd saved = [recordingStateChanged false []; flowsUpdated].
Proof.
  apply (saving_under_proto_stores_nothing recordingOn7 2000 None 0).
  - reflexivity.
  - vm_compute. reflexivity.
Defined.

Section Replay.

Variable World : Type.
Variable tabs_create : string → World → World * option Z.

(** X8. A flow the controller has stored, in whatever order events
    arrived and suspended handlers resumed, never fails the test of its
    first step: either it is empty, and [handleRunFlow] answers with
    [Flow not found], or it begins with a goto, and [handleRunFlow]
    opens exactly one page, at the recorded url. *)
Theorem saved_flows_pass_run_preconditions
    (ms : list Move) (name : string) (steps : list Step) (w : World) :
  flowsOf (moves ms idleWorker) !! name = Some steps →
  (steps = []
   ∧ Orchestrator.handleRunFlow World tabs_create name (flowsOf (moves ms idleWorker)) w
     = (w, [Orchestrator.Log ("Attempting to run flow: " +:+ Orchestrator.dquote +:+ name
                                +:+ Orchestrator.dquote);
            Orchestrator.Log "Error: Flow not found."],
        Orchestrator.NotStarted))
  ∨ ∃ url tail,
      steps = Goto url (Some 0) :: tail
      ∧ Orchestrator.openedPages
          (snd (fst (Orchestrator.handleRunFlow World tabs_create name
                       (flowsOf (moves ms idleWorker)) w)))
        = [url].
Proof.
  intros Hstored.
  pose proof (proj1 (proj2 (wellFormed_moves ms idleWorker wellFormed_idle))
                name steps Hstored) as Hshape.
  unfold Orchestrator.handleRunFlow, getProperty. rewrite Hstored.
  destruct steps as [| [url [[| |] |] | | |] tail]; try discriminate Hshape.
  - by left.
  - right. exists url, tail. split; [reflexivity |].
    by destruct (tabs_create url w) as [w1 [tab |]].
Qed.

End Replay.

Lemma saved_flows_pass_run_preconditions_witness :
  ([Goto "https://x/form" (Some 0); Click "#submit" "Submit" (Some 0)] = []
   ∧ Orchestrator.handleRunFlow nat Orchestrator.sampleTabsCreate "login"
       (flowsOf (moves sampleSchedule idleWorker)) 0%nat
     = (0%nat,
        [Orchestrator.Log ("Attempting to run flow: " +:+ Orchestrator.dquote +:+ "login"
                             +:+ Orchestrator.dquote);
         Orchestrator.Log "Error: Flow not found."],
        Orchestrator.NotStarted))
  ∨ ∃ url tail,
      [Goto "https://x/form" (Some 0); Click "#submit" "Submit" (Some 0)]
        = Goto url (Some 0) :: tail
      ∧ Orchestrator.openedPages
          (snd (fst (Orchestrator.handleRunFlow nat Orchestrator.sampleTabsCreate "login"
                       (flowsOf (moves sampleSchedule idleWorker)) 0%nat)))
        = [url].
Proof.
  apply (saved_flows_pass_run_preconditions nat Orchestrator.sampleTabsCreate
           sampleSchedule "login").
  vm_compute. reflexivity.
Defined.

End RecordingFacts.

(** ** Replay orchestrator: whole runs *)

Module ReplayFacts.

Import Background Orchestrator ReplayTrace.

Section Browser.

Variable World : Type.
Variable injectReplayScript : Z → World → World * bool.
Variable tabs_sendMessage : Z → Step → Z → World → World * Dispatch.
Variable delay : Z → World → World.
Variable injectAlert : Z → list string → World → World.

Local Abbreviation updatedListener :=
  (updatedListener World injectReplayScript tabs_sendMessage delay injectAlert).
Local Abbreviation replayLoop :=
  (replayLoop World tabs_sendMessage delay injectAlert).
Local Abbreviation loop_failure :=
  (OrchestratorFacts.replayLoop_failure World tabs_sendMessage delay injectAlert).
Local Abbreviation loop_success :=
  (OrchestratorFacts.replayLoop_success World tabs_sendMessage delay injectAlert).
Local Abbreviation loop_wait :=
  (OrchestratorFacts.replayLoop_wait World tabs_sendMessage delay injectAlert).

Lemma notWait_true (step : Step) : isWait step = false → notWait step = true.
Proof. unfold notWait. by intros ->. Qed.

(** Induction over the loop: what every run satisfies. *)
Lemma replayLoop_facts (tab : Z) (steps : list Step) : ∀ (w w' : World) tr res,
  replayLoop tab steps w = (w', tr, res) →
  dispatchesInOrder steps tr
  ∧ dispatchesOnTarget tab steps tr
  ∧ completionAlerts tr = []
  ∧ outcomeReported steps tr res.
Proof.
  unfold dispatchesInOrder, dispatchesOnTarget, outcomeReported.
  induction steps as [| step steps IH]; intros w w' tr res Hrun.
  - cbn in Hrun. injection Hrun as <- <- <-. repeat split; try done.
  - destruct (isWait step) eqn:Hw.
    + destruct step; try discriminate Hw. rewrite loop_wait in Hrun.
      destruct (replayLoop tab steps (delay duration w)) as [[w1 tr1] res1] eqn:Hrest.
      injection Hrun as <- <- <-.
      destruct (IH _ _ _ _ Hrest) as (Hord & Htarget & Hdone & Hout).
      split; [exact Hord |]. split; [| split; [exact Hdone |]].
      * intros e t s f [<- | [<- | Hin]] He; try discriminate He.
        destruct (Htarget e t s f Hin He) as (-> & Hs & Hnw & ->).
        repeat split; try done. by right.
      * destruct res1 as [| k msg]; [| exact Hout].
        destruct Hout as (Hd & Hf & Ht). repeat split; try done.
        cbn [totalDelay foldr delayOf plannedDelay]. fold (totalDelay tr1). lia.
    + destruct (tabs_sendMessage tab step (frameIdOrZero step) w) as [w1 d] eqn:Hsend.
      destruct (caughtError d) as [msg |] eqn:Hd.
      * rewrite (loop_failure _ _ _ _ _ _ _ Hw Hsend Hd) in Hrun.
        injection Hrun as <- <- <-. cbn [List.filter]. rewrite (notWait_true _ Hw).
        split; [by apply prefix_cons, prefix_nil |]. split; [| done].
        intros e t s f Hin He. cbn [In] in Hin.
        decompose [or] Hin; subst; try discriminate He; try contradiction.
        injection He as <- <- <-. repeat split; try done. by left.
      * rewrite (loop_success _ _ _ _ _ _ Hw Hsend Hd) in Hrun.
        destruct (replayLoop tab steps (delay 500 w1)) as [[w2 tr2] res2] eqn:Hrest.
        injection Hrun as <- <- <-.
        destruct (IH _ _ _ _ Hrest) as (Hord & Htarget & Hdone & Hout).
        cbn [List.filter]. rewrite (notWait_true _ Hw).
        split; [by apply prefix_cons |]. split; [| split; [exact Hdone |]].
        -- intros e t s f Hin He. cbn [In] in Hin.
           destruct Hin as [<- | [<- | [<- | [<- | Hin]]]]; try discriminate He.
           ++ injection He as <- <- <-. repeat split; try done. by left.
           ++ destruct (Htarget e t s f Hin He) as (-> & Hs & Hnw & ->).
              repeat split; try done. by right.
        -- destruct res2 as [| k msg].
           ++ destruct Hout as (Hdis & Hf & Ht). repeat split.
              ** change (dispatched (_ :: _ :: _ :: _ :: tr2))
                   with (step :: dispatched tr2). by rewrite Hdis.
              ** exact Hf.
              ** cbn [totalDelay foldr delayOf]. fold (totalDelay tr2).
                 destruct step; try discriminate Hw; cbn [plannedDelay]; lia.
           ++ destruct Hout as (Hf & Hlast). split; [exact Hf |].
              change (dispatched (_ :: _ :: _ :: _ :: tr2))
                with (step :: dispatched tr2).
              by rewrite last_cons, Hlast.
Qed.

(** X9. In every run of the loop the dispatched steps are an initial
    part of the flow's steps that are not waits, in the flow's order:
    no step is skipped, repeated or taken out of turn. A run that
    finishes has dispatched them all, injected no failure function and
    spent in delays the recorded waits plus 500ms per dispatched step;
    a run that aborts has injected the failure function exactly once,
    with the reason of the abort as its only argument, and the last
    step it dispatched is the one it aborted at. The loop itself never
    announces completion. *)
Theorem replay_is_linear (tab : Z) (steps : list Step) (w : World) :
  dispatchesInOrder steps (snd (fst (replayLoop tab steps w)))
  ∧ completionAlerts (snd (fst (replayLoop tab steps w))) = []
  ∧ outcomeReported steps
      (snd (fst (replayLoop tab steps w))) (snd (replayLoop tab steps w)).
Proof.
  destruct (replayLoop tab steps w) as [[w' tr] res] eqn:Hrun.
  destruct (replayLoop_facts tab steps w w' tr res Hrun) as (Hord & _ & Hdone & Hout).
  done.
Qed.

(** X10. Every dispatch goes to the replay tab, carries a step of the
    flow that is not a wait, and is addressed to the frame named by the
    step ([step.frameId || 0]); a step recorded by the controller from
    frame [g] is therefore dispatched to frame [g]. *)
Theorem dispatches_reach_recorded_frame
    (tab : Z) (steps : list Step) (w : World) (e : Effect) (t : Z) (s : Step) (f : Z) :
  In e (snd (fst (replayLoop tab steps w))) →
  dispatchOf e = Some (t, s, f) →
  t = tab ∧ In s steps ∧ isWait s = false ∧ f = frameIdOrZero s
  ∧ ∀ action g, s = withFrameId action g → f = g.
Proof.
  intros Hin He.
  destruct (replayLoop tab steps w) as [[w' tr] res] eqn:Hrun.
  destruct (replayLoop_facts tab steps w w' tr res Hrun) as (_ & Htarget & _).
  destruct (Htarget e t s f Hin He) as (-> & Hs & Hnw & ->).
  repeat split; try done. intros action g ->. by destruct action.
Qed.

(** X11. When no dispatch throws or returns an error, the loop runs the
    whole flow, and the listener that drives it ends the replay with
    exactly one completion alert and no failure alert. *)
Theorem replay_without_failure_completes (tab : Z) (steps : list Step) (w w0 : World) :
  (∀ t step f w1, caughtError (snd (tabs_sendMessage t step f w1)) = None) →
  snd (replayLoop tab steps w) = Finished
  ∧ dispatched (snd (fst (replayLoop tab steps w))) = List.filter notWait steps
  ∧ (∀ first,
       injectReplayScript tab w0 = (w, true) →
       let tr := snd (fst (updatedListener tab (first :: steps) tab true w0)) in
       completionAlerts tr = [tab] ∧ failureAlerts tr = []
       ∧ dispatched tr = List.filter notWait steps).
Proof.
  intros Hok.
  assert (Hfin : ∀ steps w, snd (replayLoop tab steps w) = Finished).
  { clear steps w. induction steps as [| step steps IH]; intros w; [done |].
    destruct (isWait step) eqn:Hw.
    - destruct step; try discriminate Hw. rewrite loop_wait.
      specialize (IH (delay duration w)).
      by destruct (replayLoop tab steps (delay duration w)) as [[w1 tr1] res1].
    - destruct (tabs_sendMessage tab step (frameIdOrZero step) w) as [w1 d] eqn:Hsend.
      pose proof (Hok tab step (frameIdOrZero step) w) as Hd. rewrite Hsend in Hd.
      rewrite (loop_success _ _ _ _ _ _ Hw Hsend Hd).
      specialize (IH (delay 500 w1)).
      by destruct (replayLoop tab steps (delay 500 w1)) as [[w2 tr2] res2]. }
  specialize (Hfin steps w).
  destruct (replayLoop tab steps w) as [[w' tr] res] eqn:Hrun. cbn [fst snd] in *.
  subst res.
  destruct (replayLoop_facts tab steps w w' tr Finished Hrun)
    as (_ & _ & Hdone & Hdis & Hfail & _).
  split; [reflexivity |]. split; [exact Hdis |].
  intros first Hinject. unfold Orchestrator.updatedListener.
  rewrite Z.eqb_refl, Hinject. cbn [andb skipn]. unfold drop. rewrite Hrun.
  cbn [fst snd]. unfold completionAlerts, failureAlerts, dispatched in *.
  rewrite !omap_app, Hdone, Hfail, Hdis. repeat split; try reflexivity.
  apply app_nil_r.
Qed.


End Browser.

Lemma dispatches_reach_recorded_frame_witness :
  42 = 42
  ∧ In (Click "#ok" "OK" (Some 0)) (drop 1 sampleFlow)
  ∧ isWait (Click "#ok" "OK" (Some 0)) = false
  ∧ 0 = frameIdOrZero (Click "#ok" "OK" (Some 0))
  ∧ ∀ action g, Click "#ok" "OK" (Some 0) = withFrameId action g → 0 = g.
Proof.
  apply (dispatches_reach_recorded_frame nat sampleSendMessage sampleDelay
           sampleInjectAlert 42 (drop 1 sampleFlow) 0%nat
           (SendExecuteSingleStep 42 (Click "#ok" "OK" (Some 0)) 0)).
  - simpl. auto 10.
  - reflexivity.
Defined.

Lemma replay_without_failure_completes_witness :
  snd (replayLoop nat sampleAlwaysOk sampleDelay sampleInjectAlert 42
         (drop 1 sampleFlow) 1%nat) = Finished
  ∧ dispatched
      (snd (fst (replayLoop nat sampleAlwaysOk sampleDelay sampleInjectAlert
                   42 (drop 1 sampleFlow) 1%nat)))
    = List.filter notWait (drop 1 sampleFlow)
  ∧ (∀ first,
       sampleInject 42 0%nat = (1%nat, true) →
       let tr :=
         snd (fst (updatedListener nat sampleInject sampleAlwaysOk sampleDelay
                     sampleInjectAlert 42
                     (first :: drop 1 sampleFlow) 42 true 0%nat)) in
       completionAlerts tr = [42] ∧ failureAlerts tr = []
       ∧ dispatched tr = List.filter notWait (drop 1 sampleFlow)).
Proof.
  apply (replay_without_failure_completes nat sampleInject sampleAlwaysOk sampleDelay
           sampleInjectAlert 42 (drop 1 sampleFlow) 1%nat 0%nat).
  intros t step f w1. reflexivity.
Defined.


End ReplayFacts.

(** ** Frame executor: arbitrary poll times *)

Module PollingFacts.

Import Executor Polling.

Lemma waitForElement_app selector timeout startTime (ticks more : list Tick) :
  waitForElement selector timeout startTime (ticks ++ more) =
    match waitForElement selector timeout startTime ticks with
    | Pending => waitForElement selector timeout startTime more
    | settled => settled
    end.
Proof.
  induction ticks as [| t ticks IH]; [reflexivity |].
  cbn [app waitForElement]. destruct (tick_query t); [done | | done].
  by destruct (timeout <? tick_now t - startTime).
Qed.

Lemma waitForElement_inconclusive selector timeout startTime (ticks : list Tick) :
  Forall (inconclusive timeout startTime) ticks →
  waitForElement selector timeout startTime ticks = Pending.
Proof.
  induction 1 as [| t ticks [Hthrows | [Hnone Hin]] _ IH]; [done | |].
  - cbn [waitForElement]. by rewrite Hthrows.
  - cbn [waitForElement]. rewrite Hnone.
    by destruct (Z.ltb_spec timeout (tick_now t - startTime)); [lia |].
Qed.

(** The callbacks before the one that settles the wait. *)
Lemma waitForElement_settled_inv selector timeout startTime (ticks : list Tick) :
  waitForElement selector timeout startTime ticks ≠ Pending →
  ∃ pre t post,
    ticks = pre ++ t :: post
    ∧ Forall (inconclusive timeout startTime) pre
    ∧ waitForElement selector timeout startTime [t]
      = waitForElement selector timeout startTime ticks
    ∧ tick_query t ≠ QueryThrows
    ∧ (tick_query t = NotFound → timeout < tick_now t - startTime).
Proof.
  induction ticks as [| t ticks IH]; [done |]. cbn [waitForElement].
  destruct (tick_query t) as [el | |] eqn:Hfound.
  - intros _. exists [], t, ticks. cbn [waitForElement]. rewrite Hfound.
    repeat split; [constructor | done | done].
  - destruct (Z.ltb_spec timeout (tick_now t - startTime)) as [Hlate | Hin].
    + intros _. exists [], t, ticks. cbn [waitForElement]. rewrite Hfound.
      apply Z.ltb_lt in Hlate as Hlate'. rewrite Hlate'.
      repeat split; [constructor | done | done].
    + intros Hsettled.
      destruct (IH Hsettled) as (pre & t' & post & -> & Hpre & Heq & Hok & Hl).
      exists (t :: pre), t', post. repeat split; try done.
      constructor; [by right | exact Hpre].
  - intros Hsettled.
    destruct (IH Hsettled) as (pre & t' & post & -> & Hpre & Heq & Hok & Hl).
    exists (t :: pre), t', post. repeat split; try done.
    constructor; [by left | exact Hpre].
Qed.

(** X13. Whatever the times at which the timer's callbacks run and
    whatever the query does in them: the wait is pending exactly while
    every callback so far has either thrown at the query or found
    nothing within the timeout; it resolves with the element of the
    first callback that finds one, provided no earlier callback has
    given up, however late that callback itself runs; and it rejects
    at the first callback in which the query returns nothing after the
    timeout, naming the selector. With a selector on which the query
    throws every time, the wait therefore never settles and
    [executeStep] never answers. *)
Theorem waitForElement_outcomes
    (selector : string) (timeout startTime : Z) (ticks : list Tick) :
  (waitForElement selector timeout startTime ticks = Pending
   ↔ Forall (inconclusive timeout startTime) ticks)
  ∧ (∀ el,
       waitForElement selector timeout startTime ticks = Resolved el
       ↔ ∃ pre t post,
           ticks = pre ++ t :: post
           ∧ Forall (inconclusive timeout startTime) pre
           ∧ tick_query t = Found el)
  ∧ (∀ msg,
       waitForElement selector timeout startTime ticks = Rejected msg
       ↔ msg = "Element not found for selector: " +:+ selector
         ∧ ∃ pre t post,
             ticks = pre ++ t :: post
             ∧ Forall (inconclusive timeout startTime) pre
             ∧ tick_query t = NotFound
             ∧ timeout < tick_now t - startTime)
  ∧ (Forall (λ t, tick_query t = QueryThrows) ticks →
     ∀ step, executeStep step startTime ticks = (StillWaiting, [])).
Proof.
  split; [| split; [| split]].
  - split; [| apply waitForElement_inconclusive].
    induction ticks as [| t ticks IH]; [constructor |]. cbn [waitForElement].
    destruct (tick_query t) eqn:Hfound; [discriminate | |].
    + destruct (Z.ltb_spec timeout (tick_now t - startTime)); [discriminate |].
      intros Hrest. constructor; [by right | by apply IH].
    + intros Hrest. constructor; [by left | by apply IH].
  - intros el. split.
    + intros Hres.
      destruct (waitForElement_settled_inv selector timeout startTime ticks)
        as (pre & t & post & -> & Hpre & Heq & _); [by rewrite Hres |].
      exists pre, t, post. repeat split; [exact Hpre |].
      rewrite Hres in Heq. cbn [waitForElement] in Heq.
      destruct (tick_query t); [congruence | | discriminate Heq].
      by destruct (timeout <? tick_now t - startTime).
    + intros (pre & t & post & -> & Hpre & Hfound).
      rewrite waitForElement_app, (waitForElement_inconclusive _ _ _ _ Hpre).
      cbn [waitForElement]. by rewrite Hfound.
  - intros msg. split.
    + intros Hrej.
      destruct (waitForElement_settled_inv selector timeout startTime ticks)
        as (pre & t & post & -> & Hpre & Heq & _ & Hlate); [by rewrite Hrej |].
      rewrite Hrej in Heq. cbn [waitForElement] in Heq.
      destruct (tick_query t) eqn:Hfound; [discriminate Heq | | discriminate Heq].
      destruct (timeout <? tick_now t - startTime); [| discriminate Heq].
      injection Heq as <-. split; [reflexivity |].
      exists pre, t, post. repeat split; try done. by apply Hlate.
    + intros (-> & pre & t & post & -> & Hpre & Hfound & Hlate).
      rewrite waitForElement_app, (waitForElement_inconclusive _ _ _ _ Hpre).
      cbn [waitForElement]. rewrite Hfound.
      by apply Z.ltb_lt in Hlate as ->.
  - intros Hthrows step. unfold executeStep.
    rewrite waitForElement_inconclusive; [reflexivity |].
    eapply Forall_impl; [exact Hthrows |]. intros t Ht. by left.
Qed.

Lemma waitForElement_outcomes_witness :
  waitForElement "#name" defaultTimeout 0 throttledTicks = Resolved nameField
  ∧ waitForElement "#name" defaultTimeout 0 emptyTicks
    = Rejected "Element not found for selector: #name"
  ∧ executeStep (Click "#1st" "First" None) 0 throwingTicks = (StillWaiting, []).
Proof.
  split; [| split].
  - apply (proj1 (proj2 (waitForElement_outcomes "#name" defaultTimeout 0 throttledTicks))
             nameField).
    exists [{| tick_now := 130; tick_query := NotFound |};
            {| tick_now := 6990; tick_query := NotFound |}],
      {| tick_now := 8200; tick_query := Found nameField |},
      [{| tick_now := 8300; tick_query := NotFound |}].
    split; [reflexivity |]. split; [| reflexivity].
    repeat (apply List.Forall_cons;
            [right; split; [reflexivity | unfold defaultTimeout; cbn; lia] |]).
    apply List.Forall_nil.
  - apply (proj1 (proj2 (proj2 (waitForElement_outcomes "#name" defaultTimeout 0 emptyTicks)))
             "Element not found for selector: #name").
    split; [reflexivity |].
    exists [{| tick_now := 130; tick_query := NotFound |};
            {| tick_now := 6990; tick_query := NotFound |}],
      {| tick_now := 8200; tick_query := NotFound |},
      [{| tick_now := 8300; tick_query := Found nameField |}].
    split; [reflexivity |]. split; [| split; [reflexivity | unfold defaultTimeout; cbn; lia]].
    repeat (apply List.Forall_cons;
            [right; split; [reflexivity | unfold defaultTimeout; cbn; lia] |]).
    apply List.Forall_nil.
  - apply (proj2 (proj2 (proj2 (waitForElement_outcomes "#1st" defaultTimeout 0
                                  throwingTicks)))).
    repeat constructor.
Defined.

(** X14. Once a step has settled, later callbacks change nothing: the
    result and the operations on the page stay what they were (the
    timer is cleared). *)
Theorem executeStep_settles_once
    (step : Step) (startTime : Z) (ticks more : list Tick) :
  fst (executeStep step startTime ticks) ≠ StillWaiting →
  executeStep step startTime (ticks ++ more) = executeStep step startTime ticks.
Proof.
  unfold executeStep. rewrite waitForElement_app.
  by destruct (waitForElement (selectorOf step) defaultTimeout startTime ticks).
Qed.

Lemma executeStep_settles_once_witness :
  executeStep (Change "#name" "Ada" None) 0
    (throttledTicks ++ [{| tick_now := 9000; tick_query := Found noteDiv |}])
  = executeStep (Change "#name" "Ada" None) 0 throttledTicks.
Proof.
  apply (executeStep_settles_once (Change "#name" "Ada" None) 0 throttledTicks).
  discriminate.
Defined.

(** X15. A step that fails or is still waiting has done nothing to the
    page. A step that succeeds has touched one element only, the one
    the wait resolved to; a click is one call of [click()] on it. *)
Theorem executeStep_touches_one_element
    (step : Step) (startTime : Z) (ticks : list Tick) :
  match fst (executeStep step startTime ticks) with
  | Succeeded =>
    ∃ el,
      waitForElement (selectorOf step) defaultTimeout startTime ticks = Resolved el
      ∧ Forall (λ op, opTarget op = el) (snd (executeStep step startTime ticks))
      ∧ ∀ sel lbl f, step = Click sel lbl f →
          snd (executeStep step startTime ticks) = [OpClick el]
  | Failed _ | StillWaiting => snd (executeStep step startTime ticks) = []
  end.
Proof.
  unfold executeStep.
  destruct (waitForElement _ _ _ _) as [el | msg |]; [| reflexivity | reflexivity].
  destruct step as [url f | d | sel lbl f | sel v f]; cbn [fst snd].
  - exists el. split; [reflexivity |]. split; [constructor | discriminate].
  - exists el. split; [reflexivity |]. split; [constructor | discriminate].
  - exists el. split; [reflexivity |]. split; [by repeat constructor | done].
  - destruct (el_value el); [| destruct (el_isContentEditable el)]; cbn [fst snd];
      try reflexivity;
      (exists el; split; [reflexivity |]; split; [by repeat constructor | discriminate]).
Qed.

(** X16. The executor's answer decides the orchestrator's loop: when
    [executeStep] fails, the listener responds with an object that makes
    the orchestrator abort with the very message of the failure; when it
    succeeds, with one that lets the loop go on; while it waits, no
    response is sent. The page operations are those of [executeStep]. *)
Theorem executor_reply_drives_orchestrator
    (step : Step) (startTime : Z) (ticks : list Tick) :
  snd (executeSingleStep step startTime ticks) = snd (executeStep step startTime ticks)
  ∧ match fst (executeStep step startTime ticks) with
    | Failed msg =>
      ∃ reply,
        fst (executeSingleStep step startTime ticks) = Some reply
        ∧ Orchestrator.caughtError (Orchestrator.Returned reply) = Some msg
    | Succeeded =>
      ∃ reply,
        fst (executeSingleStep step startTime ticks) = Some reply
        ∧ Orchestrator.caughtError (Orchestrator.Returned reply) = None
    | StillWaiting => fst (executeSingleStep step startTime ticks) = None
    end.
Proof.
  unfold executeSingleStep.
  destruct (executeStep step startTime ticks) as [[| msg |] ops]; cbn [fst snd].
  - split; [reflexivity |]. by eexists.
  - split; [reflexivity |]. by eexists.
  - done.
Qed.

End PollingFacts.

(** ** Pointer-press observer: reports and selectors *)

Module PointerFacts.

Import Dom Reports.

Lemma substring_length (s : string) : ∀ n m, (String.length (String.substring n m s) ≤ m)%nat.
Proof.
  induction s as [| c s IH]; intros [| n] [| m]; cbn; try lia.
  - specialize (IH 0%nat m). lia.
  - apply (IH n 0%nat).
  - apply (IH n (S m)).
Qed.

Lemma substring_prefix (s : string) : ∀ m, String.prefix (String.substring 0 m s) s = true.
Proof.
  induction s as [| c s IH]; intros [| m]; cbn; try reflexivity.
  destruct (ascii_dec c c) as [_ | Hne]; [apply IH | by destruct Hne].
Qed.

Lemma append_nonempty (a b : string) : b ≠ EmptyString → a +:+ b ≠ EmptyString.
Proof. destruct a; [done | discriminate]. Qed.

Lemma trimEnd_nonspace (c : ascii) (rest : string) :
  isSpace c = false → trimEnd (String c rest) ≠ EmptyString.
Proof.
  intros Hc. cbn [trimEnd]. destruct (trimEnd rest); [rewrite Hc |]; discriminate.
Qed.

Lemma trim_body_nonempty (path : string) : trim ("body" +:+ path) ≠ EmptyString.
Proof.
  unfold trim.
  change (trimStart ("body" +:+ path)) with (String "b" ("ody" +:+ path)).
  by apply trimEnd_nonspace.
Qed.

Section Document.

Variable CSS_escape : string → string.
Variable querySelectorAll_length : string → option nat.

Local Abbreviation getSelector := (Observer.getSelector CSS_escape querySelectorAll_length).
Local Abbreviation attributeSelector :=
  (Observer.attributeSelector CSS_escape querySelectorAll_length).
Local Abbreviation recordInputChange :=
  (Observer.recordInputChange CSS_escape querySelectorAll_length).
Local Abbreviation onMouseDown := (Observer.onMouseDown CSS_escape querySelectorAll_length).
Local Abbreviation observeAll := (Observer.observeAll CSS_escape querySelectorAll_length).

(** Where the attribute loop returns a selector. *)
Lemma attributeSelector_sound (element : Element) (attrs : list string) (selector : string) :
  attributeSelector element attrs = Some selector →
  querySelectorAll_length selector = Some 1%nat
  ∧ ∃ attr value,
      In attr attrs
      ∧ getAttribute (el_attributes element) attr = Some value
      ∧ value ≠ EmptyString
      ∧ selector =
          toLowerCase (el_tagName element) +:+ "[" +:+ attr +:+ "=" +:+ dquote
            +:+ CSS_escape value +:+ dquote +:+ "]".
Proof.
  induction attrs as [| attr attrs IH]; [discriminate |]. cbn [Observer.attributeSelector].
  assert (Hrest : attributeSelector element attrs = Some selector →
            querySelectorAll_length selector = Some 1%nat
            ∧ ∃ a value,
                In a (attr :: attrs)
                ∧ getAttribute (el_attributes element) a = Some value
                ∧ value ≠ EmptyString
                ∧ selector =
                    toLowerCase (el_tagName element) +:+ "[" +:+ a +:+ "=" +:+ dquote
                      +:+ CSS_escape value +:+ dquote +:+ "]").
  { intros H. destruct (IH H) as (Hone & a & value & Hin & Hrest).
    split; [exact Hone |]. exists a, value. split; [by right | exact Hrest]. }
  destruct (getAttribute (el_attributes element) attr) as [value |] eqn:Hattr;
    [| exact Hrest].
  unfold truthy. destruct (String.eqb_spec value EmptyString) as [-> | Hne];
    [exact Hrest |]. cbn [negb].
  match goal with
  | |- context [match querySelectorAll_length ?c with _ => _ end] =>
    destruct (querySelectorAll_length c) as [[| [| n]] |] eqn:Hcount
  end; try exact Hrest.
  intros [= <-]. split; [exact Hcount |]. exists attr, value.
  repeat split; try done. by left.
Qed.

(** X17. The resolver returns the empty selector for a missing element
    only: for an element it always returns something, and when it
    returns an attribute selector, that selector was built from a
    non-empty attribute of the priority list and matched exactly one
    element of the document when it was checked. *)
Theorem getSelector_never_empty_for_an_element (element : Element) :
  getSelector None = EmptyString
  ∧ getSelector (Some element) ≠ EmptyString
  ∧ ∀ selector,
      el_id element = EmptyString →
      attributeSelector element Observer.stableAttrs = Some selector →
      getSelector (Some element) = selector
      ∧ querySelectorAll_length selector = Some 1%nat
      ∧ ∃ attr value,
          In attr Observer.stableAttrs
          ∧ getAttribute (el_attributes element) attr = Some value
          ∧ value ≠ EmptyString.
Proof.
  split; [reflexivity |]. split.
  - unfold Observer.getSelector. destruct (truthy (el_id element)); [discriminate |].
    destruct (attributeSelector element Observer.stableAttrs) as [sel |] eqn:Hattr.
    + destruct (attributeSelector_sound _ _ _ Hattr) as (_ & a & v & _ & _ & _ & ->).
      apply append_nonempty. discriminate.
    + apply trim_body_nonempty.
  - intros selector Hid Hattr. unfold Observer.getSelector, truthy.
    rewrite Hid, Hattr. cbn. split; [reflexivity |].
    destruct (attributeSelector_sound _ _ _ Hattr) as (Hone & a & v & Hin & Hv & Hne & _).
    split; [exact Hone |]. by exists a, v.
Qed.

(** X18. A flush is remembered: right after [recordInputChange] has run
    on an element, running it again on the same element with the same
    content reports nothing more. One run reports at most one change,
    carries the content it read, and leaves what is remembered about
    other elements alone. *)
Theorem flush_is_not_repeated
    (t t' : Element) (m : gmap nat string) :
  sameElement t t' = true →
  Observer.currentValue t' = Observer.currentValue t →
  let m1 := fst (recordInputChange (Some t) m) in
  recordInputChange (Some t') m1 = (m1, [])
  ∧ (snd (recordInputChange (Some t) m) = []
     ∨ ∃ v, Observer.currentValue t = Some v
            ∧ snd (recordInputChange (Some t) m) = [AChange (getSelector (Some t)) v])
  ∧ ∀ node, node ≠ el_node t → m1 !! node = m !! node.
Proof.
  intros Hsame Hvalue m1. unfold m1. clear m1.
  unfold sameElement in Hsame. apply Nat.eqb_eq in Hsame.
  unfold Observer.recordInputChange. rewrite Hvalue, <- Hsame.
  destruct (Observer.currentValue t) as [v |]; cbn [fst snd];
    [| split; [reflexivity |]; split; [by left | done]].
  destruct (decide (m !! el_node t = Some v)) as [Hlast | Hlast].
  - rewrite (bool_decide_eq_true_2 _ Hlast). cbn [fst snd].
    rewrite (bool_decide_eq_true_2 _ Hlast).
    split; [reflexivity |]. split; [by left | done].
  - rewrite (bool_decide_eq_false_2 _ Hlast). cbn [fst snd].
    rewrite bool_decide_eq_true_2 by apply lookup_insert_eq.
    split; [reflexivity |]. split; [right; by exists v |].
    intros node Hne. by rewrite lookup_insert_ne.
Qed.

(** One pointer press: an optional change report, then the click report. *)
Lemma onMouseDown_reports (target : Element) (activeElement : option Element)
    (m : gmap nat string) :
  ∃ flushed,
    snd (onMouseDown target activeElement m)
      = flushed ++ [AClick (getSelector (Some target)) (Observer.clickLabel target)]
    ∧ (flushed = [] ∨ ∃ sel v, flushed = [AChange sel v]).
Proof.
  unfold Observer.onMouseDown.
  destruct activeElement as [active |]; [| exists []; by split; [| left]].
  destruct (negb (sameElement active target)
            && (el_isContentEditable active || Observer.isTextField active))%bool;
    [| exists []; by split; [| left]].
  unfold Observer.recordInputChange.
  destruct (Observer.currentValue active) as [v |]; [| exists []; by split; [| left]].
  destruct (bool_decide _); [exists []; by split; [| left] |].
  eexists [_]. split; [reflexivity |]. right. by eexists _, _.
Qed.

(** X19. Over any run of events the observer sends exactly one click
    report per pointer press and at most one change report per pointer
    press; edits and blurs add nothing. *)
Theorem one_click_report_per_pointer_press
    (evs : list Observer.DomEvent) (m : gmap nat string) :
  length (List.filter isClickAction (snd (observeAll evs m)))
    = length (List.filter Observer.isMouseDown evs)
  ∧ (length (List.filter isChangeAction (snd (observeAll evs m)))
     ≤ length (List.filter Observer.isMouseDown evs))%nat.
Proof.
  revert m. induction evs as [| ev evs IH]; intros m; [by split |].
  cbn [Observer.observeAll].
  destruct ev as [t | t | target active]; cbn [Observer.observe List.filter Observer.isMouseDown].
  - destruct (observeAll evs m) as [m2 out2] eqn:Hrest. cbn [snd app].
    specialize (IH m). by rewrite Hrest in IH.
  - destruct (observeAll evs m) as [m2 out2] eqn:Hrest. cbn [snd app].
    specialize (IH m). by rewrite Hrest in IH.
  - destruct (onMouseDown_reports target active m) as (flushed & Hout & Hflushed).
    destruct (onMouseDown target active m) as [m1 out1]. cbn [snd] in Hout. subst out1.
    destruct (observeAll evs m1) as [m2 out2] eqn:Hrest. cbn [snd].
    specialize (IH m1). rewrite Hrest in IH. cbn [snd] in IH. destruct IH as [IHc IHv].
    rewrite !List.filter_app, !length_app. cbn [List.filter isClickAction isChangeAction length].
    destruct Hflushed as [-> | (sel & v & ->)]; cbn; lia.
Qed.

(** X20. A click's label is at most 50 characters long, is an initial
    part of the target's trimmed text, and is empty for an element
    without [innerText]. *)
Theorem clickLabel_is_a_short_prefix (target : Element) :
  (String.length (Observer.clickLabel target) ≤ 50)%nat
  ∧ match el_html target with
    | Some h => String.prefix (Observer.clickLabel target) (trim (innerText h)) = true
    | None => Observer.clickLabel target = EmptyString
    end.
Proof.
  unfold Observer.clickLabel. destruct (el_html target) as [h |].
  - split; [apply substring_length | apply substring_prefix].
  - split; [cbn; lia | reflexivity].
Qed.

End Document.

(** X21. The position written into [:nth-of-type(...)] is one more than
    the number of previous siblings whose tag name is exactly the
    element's: at least 1, at most one more than the number of previous
    siblings, and a previous sibling with the same tag raises it by
    one. *)
Theorem siblingIndex_counts_same_tag (tagName : string) (siblings : list Element) :
  siblingIndex tagName siblings = S (sameTagCount tagName siblings)
  ∧ (1 ≤ siblingIndex tagName siblings ≤ S (length siblings))%nat
  ∧ ∀ sibling,
      el_tagName sibling = tagName →
      siblingIndex tagName (sibling :: siblings) = S (siblingIndex tagName siblings).
Proof.
  assert (Hcount : siblingIndex tagName siblings = S (sameTagCount tagName siblings)).
  { unfold sameTagCount. induction siblings as [| s siblings IH]; [reflexivity |].
    cbn [siblingIndex List.filter].
    destruct (String.eqb (el_tagName s) tagName); cbn [length]; by rewrite IH. }
  split; [exact Hcount |]. split.
  - rewrite Hcount. unfold sameTagCount.
    pose proof (List.filter_length_le
                  (λ sibling, String.eqb (el_tagName sibling) tagName) siblings).
    lia.
  - intros sibling <-. cbn [siblingIndex]. by rewrite String.eqb_refl.
Qed.

Lemma getSelector_never_empty_for_an_element_witness :
  Observer.getSelector sampleEscape sampleCount
    (Some {| el_node := 7; el_id := EmptyString; el_tagName := "INPUT";
             el_attributes := [("name", "user")]; el_previousSiblings := [];
             el_parentElement := Some formElement; el_html := plain EmptyString;
             el_value := Some EmptyString |})
    = "input[name=" +:+ dquote +:+ "user" +:+ dquote +:+ "]"
  ∧ sampleCount ("input[name=" +:+ dquote +:+ "user" +:+ dquote +:+ "]") = Some 1%nat.
Proof.
  destruct (proj2 (proj2 (getSelector_never_empty_for_an_element sampleEscape sampleCount
              {| el_node := 7; el_id := EmptyString; el_tagName := "INPUT";
                 el_attributes := [("name", "user")]; el_previousSiblings := [];
                 el_parentElement := Some formElement; el_html := plain EmptyString;
                 el_value := Some EmptyString |}))
              ("input[name=" +:+ dquote +:+ "user" +:+ dquote +:+ "]") eq_refl eq_refl)
    as (Hsel & Hone & _).
  split; [exact Hsel | exact Hone].
Defined.

Lemma flush_is_not_repeated_witness :
  Observer.recordInputChange sampleEscape sampleCount (Some (nameInput "Ada"))
    (fst (Observer.recordInputChange sampleEscape sampleCount (Some (nameInput "Ada")) ∅))
  = (fst (Observer.recordInputChange sampleEscape sampleCount (Some (nameInput "Ada")) ∅),
     []).
Proof.
  apply (proj1 (flush_is_not_repeated sampleEscape sampleCount
                  (nameInput "Ada") (nameInput "Ada") ∅ eq_refl eq_refl)).
Defined.

Lemma siblingIndex_counts_same_tag_witness :
  siblingIndex "INPUT" [nameInput "Ada"; labelElement]
    = S (siblingIndex "INPUT" [labelElement]).
Proof.
  apply (proj2 (proj2 (siblingIndex_counts_same_tag "INPUT" [labelElement]))
           (nameInput "Ada")).
  reflexivity.
Defined.

End PointerFacts.

(** ** Debounce observer: input handling and click capture *)

Module DebounceFacts.

Import Dom Reports DebounceObserver ClickCapture.

(** The ancestor loop finds a clickable ancestor among the nearest
    [n], and only there. *)
Lemma clickableAncestor_iff (n : nat) : ∀ el : Element,
  clickableAncestor n (el_parentElement el) = true
  ↔ ∃ k a, (1 ≤ k ≤ n)%nat ∧ nthAncestor k el = Some a ∧ clickableParent a = true.
Proof.
  induction n as [| n IH]; intros el.
  - split; [discriminate | intros (k & a & Hk & _); lia].
  - cbn [clickableAncestor]. destruct (el_parentElement el) as [p |] eqn:Hparent.
    + destruct (clickableParent p) eqn:Hp.
      * split; [| done]. intros _. exists 1%nat, p. split; [lia |].
        cbn [nthAncestor]. by rewrite Hparent.
      * rewrite IH. split.
        -- intros (k & a & Hk & Hnth & Ha). exists (S k), a. split; [lia |].
           cbn [nthAncestor]. by rewrite Hparent.
        -- intros (k & a & Hk & Hnth & Ha). destruct k as [| k]; [lia |].
           cbn [nthAncestor] in Hnth. rewrite Hparent in Hnth.
           destruct k as [| k].
           ++ cbn in Hnth. injection Hnth as ->. congruence.
           ++ exists (S k), a. split; [lia | done].
    + split; [discriminate |]. intros (k & a & Hk & Hnth & _).
      destruct k as [| k]; [lia |]. cbn [nthAncestor] in Hnth.
      by rewrite Hparent in Hnth.
Qed.

(** X22. An element counts as a click target exactly when it has a
    clickable tag, a clickable role, an [onclick] or [jsaction]
    attribute, or when one of its three nearest ancestors has a
    clickable tag or role; ancestors further up do not count. *)
Theorem click_target_iff_marked_or_near_clickable_ancestor (el : Element) :
  isValidClickTarget (Some el) = true
  ↔ includes clickableTags (el_tagName el) = true
    ∨ hasClickableRole el = true
    ∨ hasAttribute el "onclick" = true
    ∨ hasAttribute el "jsaction" = true
    ∨ ∃ k a, (1 ≤ k ≤ 3)%nat ∧ nthAncestor k el = Some a ∧ clickableParent a = true.
Proof.
  unfold isValidClickTarget.
  destruct (includes clickableTags (el_tagName el)); [by split; [left |] |].
  destruct (hasClickableRole el); [by split; [right; left |] |].
  destruct (hasAttribute el "onclick"); [by split; [right; right; left |] |].
  destruct (hasAttribute el "jsaction"); [by split; [right; right; right; left |] |].
  cbn [orb]. rewrite clickableAncestor_iff. split.
  - intros H. by repeat right.
  - intros [H | [H | [H | [H | H]]]]; try discriminate H. exact H.
Qed.

Lemma click_target_iff_marked_or_near_clickable_ancestor_witness :
  isValidClickTarget (Some iconSpan) = true.
Proof.
  apply (proj2 (click_target_iff_marked_or_near_clickable_ancestor iconSpan)).
  repeat right. exists 2%nat, buttonElement. split; [lia |]. split; reflexivity.
Defined.

(** Four levels below the button the ancestor no longer counts. *)
Example deep_descendant_is_not_a_click_target :
  isValidClickTarget (Some (spanIn 24 (spanIn 23 iconSpan))) = false.
Proof. reflexivity. Qed.

Section Document.

Variable querySelectorAll_length : string → option nat.

Local Abbreviation getSelector := (DebounceObserver.getSelector querySelectorAll_length).
Local Abbreviation recordInputChange :=
  (DebounceObserver.recordInputChange querySelectorAll_length).
Local Abbreviation observe := (DebounceObserver.observe querySelectorAll_length).
Local Abbreviation observeAll := (DebounceObserver.observeAll querySelectorAll_length).
Local Abbreviation handleClick := (ClickCapture.handleClick querySelectorAll_length).

(** X23. The click handler sends at most two reports. A click report
    is sent only for a click in a page (not an extension page) on an
    element that counts as a click target, and then it is the last
    report and carries the target's selector and label. A change report
    is sent only for the focused text field, when it is not the element
    clicked, and carries that field's value: so a click that is not
    reported can still flush the field. *)
Theorem handleClick_reports
    (target : Element) (activeElement : option Element) (pageView : bool) :
  (length (handleClick target activeElement pageView) ≤ 2)%nat
  ∧ (∀ sel lbl,
       In (AClick sel lbl) (handleClick target activeElement pageView) →
       pageView = true
       ∧ isValidClickTarget (Some target) = true
       ∧ getSelector (Some target) = Some sel
       ∧ lbl = clickLabel target
       ∧ last (handleClick target activeElement pageView) = Some (AClick sel lbl))
  ∧ (∀ sel v,
       In (AChange sel v) (handleClick target activeElement pageView) →
       ∃ active,
         activeElement = Some active
         ∧ Observer.isTextField active = true
         ∧ sameElement active target = false
         ∧ getSelector (Some active) = Some sel
         ∧ v = default EmptyString (el_value active)).
Proof.
  unfold ClickCapture.handleClick.
  set (flush := match activeElement with Some _ => _ | None => _ end).
  assert (Hflush :
    flush = None ∨ flush = Some []
    ∨ ∃ active sel,
        activeElement = Some active
        ∧ Observer.isTextField active = true
        ∧ sameElement active target = false
        ∧ getSelector (Some active) = Some sel
        ∧ flush = Some [AChange sel (default EmptyString (el_value active))]).
  { unfold flush. destruct activeElement as [active |]; [| by right; left].
    destruct (Observer.isTextField active) eqn:Htext; [| by right; left].
    destruct (sameElement active target) eqn:Hsame; [by right; left |]. cbn [negb andb].
    unfold DebounceObserver.recordInputChange.
    destruct (getSelector (Some active)) as [sel |] eqn:Hsel; [| by left].
    right; right. by exists active, sel. }
  clearbody flush.
  assert (Hclick : ∀ out sel lbl,
            In (AClick sel lbl) (out ++ [AClick sel lbl])
            ∧ last (out ++ [AClick sel lbl]) = Some (AClick sel lbl)).
  { intros out sel lbl. split; [apply in_or_app; right; by left | apply last_snoc]. }
  destruct Hflush as [-> | [-> | (active & asel & -> & Htext & Hsame & Hsel & ->)]].
  - cbn. split; [lia |]. split; [intros ? ? [] | intros ? ? []].
  - destruct pageView; cbn [negb]; [| cbn; split; [lia |]; split; [intros ? ? [] | intros ? ? []]].
    destruct (isValidClickTarget (Some target)); cbn [negb];
      [| cbn; split; [lia |]; split; [intros ? ? [] | intros ? ? []]].
    destruct (getSelector (Some target)) as [sel |];
      [| cbn; split; [lia |]; split; [intros ? ? [] | intros ? ? []]].
    cbn [app length In]. split; [lia |]. split.
    + intros s l [[= <- <-] | []]. done.
    + intros s v [H | []]. discriminate H.
  - assert (Hchange : ∀ s v,
              AChange asel (default EmptyString (el_value active)) = AChange s v →
              ∃ a, Some active = Some a ∧ Observer.isTextField a = true
                   ∧ sameElement a target = false ∧ getSelector (Some a) = Some s
                   ∧ v = default EmptyString (el_value a)).
    { intros s v [= <- <-]. by exists active. }
    destruct pageView; cbn [negb];
      [| cbn [length In]; split; [lia |]; split;
         [intros ? ? [H | []]; discriminate H | intros s v [H | []]; by apply Hchange]].
    destruct (isValidClickTarget (Some target)); cbn [negb];
      [| cbn [length In]; split; [lia |]; split;
         [intros ? ? [H | []]; discriminate H | intros s v [H | []]; by apply Hchange]].
    destruct (getSelector (Some target)) as [sel |];
      [| cbn [length In]; split; [lia |]; split;
         [intros ? ? [H | []]; discriminate H | intros s v [H | []]; by apply Hchange]].
    cbn [app length In]. split; [lia |]. split.
    + intros s l [H | [[= <- <-] | []]]; [discriminate H | done].
    + intros s v [H | [H | []]]; [by apply Hchange | discriminate H].
Qed.

(** Input events alone report nothing; the last one on a form control
    decides what the timer is waiting for. *)
Lemma inputs_only_arm_timer (earlier : list (Z * Element)) (tlast : Z) (target : Element) :
  ∀ st : Debounce,
  isFormControl target = true →
  observeAll (map (λ p, Input p.1 p.2) earlier ++ [Input tlast target]) st
    = ({| pending := Some (tlast + 500, el_node target) |}, []).
Proof.
  induction earlier as [| [t e] earlier IH]; intros st Hform.
  - cbn [map app DebounceObserver.observeAll DebounceObserver.observe]. by rewrite Hform.
  - cbn [map app DebounceObserver.observeAll DebounceObserver.observe fst snd].
    destruct (isFormControl e); by rewrite IH.
Qed.

Lemma debounce_observeAll_app (evs1 evs2 : list DomEvent) (st : Debounce) :
  observeAll (evs1 ++ evs2) st =
    (let '(st1, out1) := observeAll evs1 st in
     let '(st2, out2) := observeAll evs2 st1 in
     (st2, out1 ++ out2)).
Proof.
  revert st. induction evs1 as [| ev evs1 IH]; intros st.
  - cbn. by destruct (observeAll evs2 st).
  - cbn [app DebounceObserver.observeAll].
    destruct (observe ev st) as [st1 out1]. rewrite IH.
    destruct (observeAll evs1 st1) as [st2 out2].
    destruct (observeAll evs2 st2) as [st3 out3]. by rewrite app_assoc.
Qed.

(** X24. Typing is coalesced by one timer shared by all fields: however
    many input events arrive, nothing is reported until the timer set
    by the last one is due, 500ms after it; then exactly one change is
    reported, for the element of that last input and with the value it
    has at that moment; a timer callback before the due time or after
    the report does nothing, and earlier inputs on other fields are
    never reported by the timer. *)
Theorem debounce_reports_last_input_once
    (earlier : list (Z * Element)) (tlast now later early : Z)
    (target current : Element) (st : Debounce) :
  isFormControl target = true →
  el_node current = el_node target →
  tlast + 500 ≤ now →
  early < tlast + 500 →
  let inputs := map (λ p, Input p.1 p.2) earlier ++ [Input tlast target] in
  observeAll inputs st = ({| pending := Some (tlast + 500, el_node target) |}, [])
  ∧ observeAll (inputs ++ [TimerFired early current]) st = (fst (observeAll inputs st), [])
  ∧ observeAll (inputs ++ [TimerFired now current; TimerFired later current]) st
    = ({| pending := None |}, recordInputChange current).
Proof.
  intros Hform Hnode Hdue Hearly inputs. unfold inputs.
  pose proof (inputs_only_arm_timer earlier tlast target st Hform) as Harm.
  split; [exact Harm |]. split.
  - rewrite debounce_observeAll_app, Harm.
    cbn [DebounceObserver.observeAll DebounceObserver.observe pending fst].
    destruct (Z.leb_spec (tlast + 500) early); [lia |]. reflexivity.
  - rewrite debounce_observeAll_app, Harm.
    cbn [DebounceObserver.observeAll DebounceObserver.observe pending].
    destruct (Z.leb_spec (tlast + 500) now); [| lia].
    rewrite Hnode, Nat.eqb_refl. cbn [andb pending app]. by rewrite app_nil_r.
Qed.

(** X25. A blur reports the field at once but leaves the debounce timer
    armed: after an input on a form control, its blur and then the
    timer each send the change report, so an unchanged value is reported
    twice. *)
Theorem blur_does_not_cancel_debounce
    (t1 t2 t3 : Z) (target : Element) (st : Debounce) :
  isFormControl target = true →
  t1 + 500 ≤ t3 →
  observeAll [Input t1 target; Blur t2 target; TimerFired t3 target] st
    = ({| pending := None |}, recordInputChange target ++ recordInputChange target).
Proof.
  intros Hform Hdue.
  cbn [DebounceObserver.observeAll DebounceObserver.observe]. rewrite Hform.
  cbn [pending]. destruct (Z.leb_spec (t1 + 500) t3); [| lia].
  rewrite Nat.eqb_refl. cbn [andb app]. by rewrite app_nil_r.
Qed.

End Document.

Lemma handleClick_reports_witness :
  last (handleClick sampleCount submitButton (Some (nameInput "Ada")) true)
    = Some (AClick "#submit" "Submit").
Proof.
  apply (proj1 (proj2 (handleClick_reports sampleCount submitButton
                         (Some (nameInput "Ada")) true)) "#submit" "Submit").
  simpl. auto.
Defined.

Lemma debounce_reports_last_input_once_witness :
  DebounceObserver.observeAll sampleCount
    ((map (λ p, Input p.1 p.2) [(0, nameInput "A"); (100, nameInput "Ad")]
      ++ [Input 200 (nameInput "Ada")])
     ++ [TimerFired 700 (nameInput "Ada"); TimerFired 1200 (nameInput "Ada")])
    {| pending := None |}
  = ({| pending := None |}, [AChange "#name" "Ada"]).
Proof.
  apply (proj2 (proj2 (debounce_reports_last_input_once sampleCount
           [(0, nameInput "A"); (100, nameInput "Ad")] 200 700 1200 300
           (nameInput "Ada") (nameInput "Ada") {| pending := None |}
           eq_refl eq_refl ltac:(lia) ltac:(lia)))).
Defined.

Lemma blur_does_not_cancel_debounce_witness :
  DebounceObserver.observeAll sampleCount
    [Input 0 (nameInput "Ada"); Blur 100 (nameInput "Ada");
     TimerFired 500 (nameInput "Ada")] {| pending := None |}
  = ({| pending := None |}, [AChange "#name" "Ada"; AChange "#name" "Ada"]).
Proof.
  apply (blur_does_not_cancel_debounce sampleCount 0 100 500 (nameInput "Ada")
           {| pending := None |} eq_refl).
  lia.
Defined.

End DebounceFacts.

(** ** Replay script, single-message revision *)

Module LegacyFacts.

Import Executor LegacyReplay.

Section Page.

Variable Page : Type.
Variable querySelector : string → Page → option Element.
Variable perform : DomOp → Page → Page.
Variable sleep : Z → Page → Page.
Variable JSON_stringify : Step → string.

Local Abbreviation executeStep := (LegacyReplay.executeStep Page querySelector).
Local Abbreviation executeFlow :=
  (LegacyReplay.executeFlow Page querySelector perform sleep JSON_stringify).
Local Abbreviation applyEffects := (LegacyReplay.applyEffects Page perform sleep).

Lemma executeStep_no_alert (step : Step) (page : Page) (done_ : list Effect) :
  executeStep step page = inl done_ → alerts done_ = [].
Proof.
  destruct step as [url f | d | sel lbl f | sel v f]; cbn [LegacyReplay.executeStep].
  - by intros [= <-].
  - by intros [= <-].
  - destruct (querySelector sel page); [by intros [= <-] | discriminate].
  - destruct (querySelector sel page); [by intros [= <-] | discriminate].
Qed.

(** Operations without an alert, at the head of a trace that ends with
    an alert, are a prefix of what comes before that alert. *)
Lemma quiet_prefix_split (first tail done_ : list Effect) (text : string) :
  alerts first = [] →
  first ++ tail = done_ ++ [Alert text] →
  ∃ rest, done_ = first ++ rest ∧ tail = rest ++ [Alert text].
Proof.
  revert done_. induction first as [| e first IH]; intros done_ Hquiet Heq;
    [by exists done_ |].
  unfold alerts in Hquiet. simpl in Hquiet.
  destruct (alertOf e) eqn:He; [discriminate Hquiet |].
  destruct done_ as [| e' done_]; cbn [app] in Heq.
  - injection Heq as -> _. discriminate He.
  - injection Heq as <- Htail.
    destruct (IH done_ Hquiet Htail) as (rest & -> & Hrest). by exists rest.
Qed.

(** X26. Every run of the single-message replay script ends with
    exactly one alert, and the alert is the last thing it does. The
    first step whose element is not in the document when the step starts
    ends the run: the alert then holds the serialized step and the
    message naming its selector, and nothing of the later steps is
    done. *)
Theorem legacy_flow_alerts_exactly_once (steps : list Step) (page : Page) :
  (∃ text, alerts (executeFlow steps page) = [text]
           ∧ last (executeFlow steps page) = Some (Alert text))
  ∧ ∀ pre k post done_ message,
      steps = pre ++ k :: post →
      executeFlow pre page = done_ ++ [Alert "Flow replay completed successfully!"] →
      executeStep k (applyEffects done_ page) = inr message →
      executeFlow steps page =
        done_ ++ [Alert ("Replay failed at step: " +:+ JSON_stringify k +:+ newline
                           +:+ "Error: " +:+ message)].
Proof.
  split.
  - revert page. induction steps as [| step steps IH]; intros page.
    + by eexists.
    + cbn [LegacyReplay.executeFlow].
      destruct (executeStep step page) as [done_ | message] eqn:Hstep; [| by eexists].
      destruct (IH (applyEffects done_ page)) as (text & Halert & Hlast).
      pose proof (executeStep_no_alert _ _ _ Hstep) as Hquiet.
      exists text. unfold alerts in *.
      rewrite omap_app, Hquiet, Halert.
      split; [reflexivity |]. rewrite last_app, Hlast. reflexivity.
  - intros pre k post done_ message -> Hpre Hk. revert page done_ Hpre Hk.
    induction pre as [| step pre IH]; intros page done_ Hpre Hk.
    + cbn [LegacyReplay.executeFlow] in Hpre.
      destruct done_ as [| e done_]; [| by destruct done_].
      unfold LegacyReplay.applyEffects in Hk. cbn [foldl] in Hk.
      cbn [app LegacyReplay.executeFlow]. by rewrite Hk.
    + cbn [app LegacyReplay.executeFlow] in Hpre |- *.
      destruct (executeStep step page) as [first | m] eqn:Hstep.
      * pose proof (executeStep_no_alert _ _ _ Hstep) as Hquiet.
        destruct (quiet_prefix_split first _ done_ _ Hquiet Hpre) as (rest & -> & Hrest).
        rewrite <- app_assoc. f_equal.
        apply IH; [exact Hrest |].
        unfold LegacyReplay.applyEffects in Hk |- *. by rewrite foldl_app in Hk.
      * exfalso. destruct done_ as [| e done_]; [discriminate Hpre |].
        injection Hpre as _ Htail. by destruct done_.
Qed.

End Page.

Lemma legacy_flow_alerts_exactly_once_witness :
  LegacyReplay.executeFlow nat sampleQuery samplePerform sampleSleep
    Orchestrator.sampleStringify
    ([Wait 300; Click "#ok" "OK" None] ++ Click "#missing" "Gone" None
       :: [Change "#name" "Ada" None]) 0%nat
  = [Sleep 300;
     PageOp (OpClick {| el_node := 1; el_value := None; el_isContentEditable := false |})]
    ++ [Alert ("Replay failed at step: click #missing" +:+ newline
                 +:+ "Error: Element not found for selector: #missing")].
Proof.
  apply (proj2 (legacy_flow_alerts_exactly_once nat sampleQuery samplePerform sampleSleep
                  Orchestrator.sampleStringify _ 0%nat)
           [Wait 300; Click "#ok" "OK" None] (Click "#missing" "Gone" None)
           [Change "#name" "Ada" None]); reflexivity.
Defined.

End LegacyFacts.

(** ** Selector resolver: positional paths *)

Module PathFacts.

Import Dom Reports.

Lemma append_cons (c : ascii) (a b : string) : String c a +:+ b = String c (a +:+ b).
Proof. reflexivity. Qed.

Lemma append_assoc (a b c : string) : (a +:+ b) +:+ c = a +:+ (b +:+ c).
Proof. induction a as [| x a IH]; [reflexivity |]. by rewrite !append_cons, IH. Qed.

Lemma append_nil_r (a : string) : a +:+ EmptyString = a.
Proof. induction a as [| x a IH]; [reflexivity |]. by rewrite append_cons, IH. Qed.

(** Trailing text that [trimEnd] keeps is kept behind any prefix. *)
Lemma trimEnd_keeps (a b : string) :
  b ≠ EmptyString → trimEnd b = b → trimEnd (a +:+ b) = a +:+ b.
Proof.
  intros Hne Hb. induction a as [| x a IH]; [exact Hb |].
  rewrite append_cons. cbn [trimEnd]. rewrite IH.
  destruct (a +:+ b) eqn:Hab; [| reflexivity].
  destruct a; [by destruct Hne | discriminate Hab].
Qed.

(** A selector that opens with [body] and closes with a bracket is left
    alone by [trim]. *)
Lemma trim_body_path (middle : string) :
  trim ("body" +:+ middle +:+ ")") = "body" +:+ middle +:+ ")".
Proof.
  unfold trim.
  change (trimStart ("body" +:+ middle +:+ ")")) with ("body" +:+ middle +:+ ")").
  apply trimEnd_keeps; [| apply trimEnd_keeps; [discriminate | reflexivity]].
  destruct middle; discriminate.
Qed.

Lemma pathSegment_closes (el : Element) :
  ∃ middle, pathSegment el = middle +:+ ")".
Proof.
  unfold pathSegment.
  exists (" > " +:+ toLowerCase (el_tagName el) +:+ ":nth-of-type("
          +:+ pretty (siblingIndex (el_tagName el) (el_previousSiblings el))).
  by rewrite !append_assoc.
Qed.

Section Document.

Variable CSS_escape : string → string.
Variable querySelectorAll_length : string → option nat.

Lemma positionalPath_step (current : Element) (path : string) :
  Observer.positionalPath CSS_escape current path =
    match el_parentElement current with
    | None => path
    | Some parent =>
      if String.eqb (toLowerCase (el_tagName current)) "body" then path
      else if truthy (el_id current)
      then "#" +:+ CSS_escape (el_id current) +:+ path
      else Observer.positionalPath CSS_escape parent
             (" > " +:+ toLowerCase (el_tagName current)
              +:+ (":nth-of-type("
                   +:+ pretty (siblingIndex (el_tagName current)
                                 (el_previousSiblings current))
                   +:+ ")") +:+ path)
    end.
Proof. by destruct current. Qed.

Lemma debounce_positionalPath_step (current : Element) (path : string) :
  DebounceObserver.positionalPath current path =
    match el_parentElement current with
    | None => path
    | Some parent =>
      if String.eqb (toLowerCase (el_tagName parent)) "body"
      then " > " +:+ toLowerCase (el_tagName current)
           +:+ (":nth-of-type("
                +:+ pretty (siblingIndex (el_tagName current)
                              (el_previousSiblings current))
                +:+ ")") +:+ path
      else DebounceObserver.positionalPath parent
             (" > " +:+ toLowerCase (el_tagName current)
              +:+ (":nth-of-type("
                   +:+ pretty (siblingIndex (el_tagName current)
                                 (el_previousSiblings current))
                   +:+ ")") +:+ path)
    end.
Proof. by destruct current. Qed.

Lemma first_segment (el : Element) :
  " > " +:+ toLowerCase (el_tagName el)
    +:+ (":nth-of-type("
         +:+ pretty (siblingIndex (el_tagName el) (el_previousSiblings el))
         +:+ ")") +:+ EmptyString
  = pathSegment el.
Proof. unfold pathSegment. by rewrite !append_assoc, append_nil_r. Qed.

(** X27. The positional fallback. For an element without id and
    without a unique stable attribute, that is not the body: directly
    under the body (or under a parent that has no parent) the
    pointer-press revision returns [body] followed by the element's own
    [ > tag:nth-of-type(n)]; under a parent that has an id it stops
    there and returns [body#id] followed by that same segment. The
    debounce revision returns, directly under the body, [body], a space
    and the segment. *)
Theorem positional_selector_shape (el parent : Element) :
  el_id el = EmptyString →
  el_parentElement el = Some parent →
  toLowerCase (el_tagName el) ≠ "body" →
  (Observer.attributeSelector CSS_escape querySelectorAll_length el Observer.stableAttrs
     = None →
   (toLowerCase (el_tagName parent) = "body" ∨ el_parentElement parent = None →
      Observer.getSelector CSS_escape querySelectorAll_length (Some el)
        = "body" +:+ pathSegment el)
   ∧ (toLowerCase (el_tagName parent) ≠ "body" →
      is_Some (el_parentElement parent) →
      el_id parent ≠ EmptyString →
      Observer.getSelector CSS_escape querySelectorAll_length (Some el)
        = "body#" +:+ CSS_escape (el_id parent) +:+ pathSegment el))
  ∧ (DebounceObserver.attributeSelector querySelectorAll_length el
       DebounceObserver.uniqueAttrs = DebounceObserver.NotFound →
     toLowerCase (el_tagName parent) = "body" →
     DebounceObserver.getSelector querySelectorAll_length (Some el)
       = Some ("body " +:+ pathSegment el)).
Proof.
  intros Hid Hparent Hbody.
  assert (Hnot : String.eqb (toLowerCase (el_tagName el)) "body" = false)
    by (by apply String.eqb_neq).
  destruct (pathSegment_closes el) as [middle Hseg].
  split.
  - intros Hattr. unfold Observer.getSelector, truthy.
    rewrite Hid, Hattr. cbn [String.eqb negb].
    rewrite positionalPath_step, Hparent, Hnot.
    unfold truthy. rewrite Hid. cbn [String.eqb negb]. rewrite first_segment.
    split.
    + intros Hstop.
      assert (Observer.positionalPath CSS_escape parent (pathSegment el)
              = pathSegment el) as ->.
      { rewrite positionalPath_step.
        destruct (el_parentElement parent) as [gp |]; [| reflexivity].
        destruct Hstop as [-> | Hnone]; [reflexivity | discriminate Hnone]. }
      rewrite Hseg. apply trim_body_path.
    + intros Hpbody [gp Hgp] Hpid.
      rewrite positionalPath_step, Hgp.
      replace (String.eqb (toLowerCase (el_tagName parent)) "body") with false
        by (symmetry; by apply String.eqb_neq).
      replace (truthy (el_id parent)) with true
        by (symmetry; unfold truthy; by apply negb_true_iff, String.eqb_neq).
      rewrite Hseg.
      rewrite <- (append_assoc (CSS_escape (el_id parent)) middle ")").
      exact (trim_body_path ("#" +:+ CSS_escape (el_id parent) +:+ middle)).
  - intros Hattr Hpbody. unfold DebounceObserver.getSelector, truthy.
    rewrite Hid, Hattr. cbn [String.eqb negb].
    rewrite debounce_positionalPath_step, Hparent, Hpbody, String.eqb_refl.
    rewrite first_segment, Hseg. f_equal.
    exact (trim_body_path (" " +:+ middle)).
Qed.

End Document.

Lemma positional_selector_shape_witness :
  Observer.getSelector sampleEscape (λ _, None) (Some (divIn 31 mainSection))
    = "body#main > div:nth-of-type(1)"
  ∧ DebounceObserver.getSelector sampleCount (Some (divIn 32 bodyElement))
    = Some "body  > div:nth-of-type(1)".
Proof.
  split.
  - apply (proj2 (proj1 (positional_selector_shape sampleEscape (λ _, None)
                           (divIn 31 mainSection) mainSection
                           eq_refl eq_refl ltac:(discriminate)) eq_refl));
      [discriminate | by eexists | discriminate].
  - apply (proj2 (positional_selector_shape sampleEscape sampleCount
                    (divIn 32 bodyElement) bodyElement
                    eq_refl eq_refl ltac:(discriminate))); reflexivity.
Defined.

End PathFacts.
